(** * sahabat-guru backend: exam lifecycle, participation and scoring

    A shallow embedding of the exam lifecycle manager
    ([src/modules/exams/exams.service.ts], [exams.repository.ts]), of the
    persisted schema ([libs/db/migrate.ts]) and of the two scoring services
    of the repository (the one that grades essays with a fixed placeholder
    and the one that calls [aesScorerService]).

    Conventions of the embedding.
    - A table is the list of its rows in insertion order, which is the
      order in which a query without [orderBy] is taken to return them;
      [findFirst] is [find], [findMany] is [filter], [update ... where]
      maps over the rows that match, [insert] appends.
    - [async] service methods are computations in the monad [M]: the world
      (tables, the in-memory [scoringQueue], the broadcast log) is threaded
      through, and a thrown error keeps the writes made before it, as the
      services open no transaction.  An operation in [M] is one request
      run from its first call to its last; where a statement depends on
      it, two requests whose calls alternate are written with the parts
      of the operations ([readsBeforeWrites]).
    - [new Date()] and [defaultRandom()] are arguments ([now], [newId]);
      external services are arguments too (a function from the request to
      either a result or a thrown error).
    - A JavaScript number, and a [doublePrecision] column, is an IEEE 754
      binary64 value: the kernel's primitive [float], with its rounding,
      its NaN and its two zeros.  [integer] columns are [Z]; a nullable
      column is an [option].
    - A column of an enum type takes the members of its [pgEnum] only:
      the database refuses any other value and the driver throws.
    - A [string] stands for a JavaScript string.  [toLowerCase],
      [toUpperCase] and [trim] belong to the engine and follow Unicode;
      the services are defined over any implementation of the three
      ([StringBuiltins]), and the examples run them on ASCII strings. *)

From Stdlib Require Import List String Ascii Bool ZArith QArith Floats Lia.
Import ListNotations.

Local Open Scope string_scope.
Local Open Scope list_scope.

(** ** Schema *)

Definition Id := string.
Definition Timestamp := Z.

(** The status type of the service layer
    ([newStatus: "DRAFT" | "ONGOING" | "FINISHED" | "PUBLISHED"]). *)
Inductive ExamStatus := DRAFT | ONGOING | FINISHED | PUBLISHED.

Inductive QuestionType := PG | ESSAY.
Inductive AnswerStatus := PENDING | SCORED.

Definition ExamStatus_eqb (a b : ExamStatus) : bool :=
  match a, b with
  | DRAFT, DRAFT | ONGOING, ONGOING | FINISHED, FINISHED
  | PUBLISHED, PUBLISHED => true
  | _, _ => false
  end.

Definition ExamStatus_toString (s : ExamStatus) : string :=
  match s with
  | DRAFT => "DRAFT" | ONGOING => "ONGOING"
  | FINISHED => "FINISHED" | PUBLISHED => "PUBLISHED"
  end.

(** [pgEnum("exam_status", ["DRAFT", "ONGOING", "FINISHED"])] *)
Definition examStatusEnum : list ExamStatus := [DRAFT; ONGOING; FINISHED].

Record ExamSettings := { enableProctoring : option bool }.

Record Exam := {
  exam_id : Id;
  exam_teacherId : Id;
  exam_title : string;
  exam_startTime : option Timestamp;
  exam_endTime : option Timestamp;
  exam_status : ExamStatus;
  exam_settings : option ExamSettings;
  exam_updatedAt : Timestamp
}.

Record Question := {
  question_id : Id;
  question_teacherId : Id;
  question_type : QuestionType;
  question_question : string;
  question_answerKey : option string;
  question_rubric : option (list (string * float))
}.

Record ExamQuestion := {
  eq_examId : Id;
  eq_questionId : Id;
  eq_order : option Z;
  eq_points : option float
}.

Record ExamParticipant := {
  participant_id : Id;
  participant_examId : Id;
  participant_studentId : Id;
  participant_proctoringSessionId : option string;
  participant_startTime : option Timestamp;
  participant_submitTime : option Timestamp;
  participant_score : option float;
  participant_status : option string;
  participant_createdAt : Timestamp
}.

(** The object that the scoring pipeline hands to [JSON.stringify]. *)
Record ScoringDetail := {
  rubric_breakdown : list (string * float);
  total_points : float;
  max_points : float;
  extracted_text : option string
}.

Record FeedbackObject := {
  overall : string;
  strengths : list string;
  improvements : list string;
  detail : option ScoringDetail
}.

(** The [feedback] text column: JSON written by the pipeline, or the free
    text of a teacher's override. *)
Inductive Feedback :=
| FeedbackJson (o : FeedbackObject)
| FeedbackText (s : string).

Record Answer := {
  answer_id : Id;
  answer_participantId : Id;
  answer_questionId : Id;
  answer_answerText : option string;
  answer_answerFileUrl : option string;
  answer_aiScore : option float;
  answer_finalScore : option float;
  answer_feedback : option Feedback;
  answer_status : AnswerStatus;
  answer_updatedAt : Timestamp
}.

Record ExamStatistic := {
  stat_examId : Id;
  avgScore : option float;
  maxScore : option float;
  minScore : option float;
  totalParticipants : option Z;
  submittedCount : option Z;
  scoredCount : option Z;
  suspiciousCount : option Z;
  stat_updatedAt : Timestamp
}.

(** ** Process state *)

Inductive JobStatus := pending | processing | done | failed.

Record ScoringJob := {
  job_examId : Id;
  job_participantId : Id;
  job_status : JobStatus;
  job_createdAt : Timestamp;
  job_completedAt : option Timestamp;
  job_error : option string
}.

Inductive Broadcast :=
| ExamStart (examId : Id)
| ExamEnd (examId : Id).

Record World := {
  exams : list Exam;
  questions : list Question;
  examQuestions : list ExamQuestion;
  examParticipants : list ExamParticipant;
  answers : list Answer;
  examStatistics : list ExamStatistic;
  scoringQueue : list (Id * ScoringJob);
  broadcasts : list Broadcast
}.

Definition with_exams (v : list Exam) (w : World) : World :=
  {| exams := v; questions := questions w; examQuestions := examQuestions w;
     examParticipants := examParticipants w; answers := answers w;
     examStatistics := examStatistics w; scoringQueue := scoringQueue w;
     broadcasts := broadcasts w |}.

Definition with_examParticipants (v : list ExamParticipant) (w : World)
  : World :=
  {| exams := exams w; questions := questions w;
     examQuestions := examQuestions w;
     examParticipants := v; answers := answers w;
     examStatistics := examStatistics w; scoringQueue := scoringQueue w;
     broadcasts := broadcasts w |}.

Definition with_answers (v : list Answer) (w : World) : World :=
  {| exams := exams w; questions := questions w;
     examQuestions := examQuestions w;
     examParticipants := examParticipants w; answers := v;
     examStatistics := examStatistics w; scoringQueue := scoringQueue w;
     broadcasts := broadcasts w |}.

Definition with_examStatistics (v : list ExamStatistic) (w : World)
  : World :=
  {| exams := exams w; questions := questions w;
     examQuestions := examQuestions w;
     examParticipants := examParticipants w; answers := answers w;
     examStatistics := v; scoringQueue := scoringQueue w;
     broadcasts := broadcasts w |}.

Definition with_scoringQueue (v : list (Id * ScoringJob)) (w : World)
  : World :=
  {| exams := exams w; questions := questions w;
     examQuestions := examQuestions w;
     examParticipants := examParticipants w; answers := answers w;
     examStatistics := examStatistics w; scoringQueue := v;
     broadcasts := broadcasts w |}.

Definition with_broadcasts (v : list Broadcast) (w : World) : World :=
  {| exams := exams w; questions := questions w;
     examQuestions := examQuestions w;
     examParticipants := examParticipants w; answers := answers w;
     examStatistics := examStatistics w; scoringQueue := scoringQueue w;
     broadcasts := v |}.

(** ** Errors and the service monad *)

(** [AppError] subclasses of [error.middleware.ts] carry their constructor
    argument; [TypeError] and [ExternalError] are the plain [Error]s of the
    runtime and of the service clients. *)
Inductive AppError :=
| NotFoundError (resource : string)
| ForbiddenError (message : string)
| BadRequestError (message : string)
| TypeError (message : string)
| ExternalError (message : string).

Definition statusCode (e : AppError) : Z :=
  match e with
  | NotFoundError _ => 404
  | ForbiddenError _ => 403
  | BadRequestError _ => 400
  | TypeError _ | ExternalError _ => 500
  end.

Definition errorMessage (e : AppError) : string :=
  match e with
  | NotFoundError r => r ++ " not found"
  | ForbiddenError m | BadRequestError m | TypeError m
  | ExternalError m => m
  end.

Inductive Outcome (A : Type) :=
| Returned (a : A)
| Thrown (e : AppError).
Arguments Returned {A} a.
Arguments Thrown {A} e.

Definition M (A : Type) : Type := World -> Outcome A * World.

Definition ret {A} (a : A) : M A := fun w => (Returned a, w).

Definition bind {A B} (m : M A) (k : A -> M B) : M B :=
  fun w =>
    match m w with
    | (Returned a, w') => k a w'
    | (Thrown e, w') => (Thrown e, w')
    end.

Definition throw {A} (e : AppError) : M A := fun w => (Thrown e, w).

Definition tryCatch {A} (body : M A) (handler : AppError -> M A) : M A :=
  fun w =>
    match body w with
    | (Returned a, w') => (Returned a, w')
    | (Thrown e, w') => handler e w'
    end.

Definition gets {A} (f : World -> A) : M A := fun w => (Returned (f w), w).

Definition modify (f : World -> World) : M unit :=
  fun w => (Returned tt, f w).

Declare Scope service_scope.
Delimit Scope service_scope with service.
Notation "x <- m ;; k" := (bind m (fun x => k))
  (at level 61, m at next level, right associativity) : service_scope.
Notation "m ;;; k" := (bind m (fun _ => k))
  (at level 61, right associativity) : service_scope.
Local Open Scope service_scope.

Fixpoint forEach {A} (xs : list A) (body : A -> M unit) : M unit :=
  match xs with
  | [] => ret tt
  | x :: rest => body x ;;; forEach rest body
  end.

(** JavaScript truthiness of a nullable string and [x || 0] on integers. *)
Definition truthy (s : option string) : bool :=
  match s with
  | Some "" | None => false
  | Some _ => true
  end.

(** The string behind a nullable column that was tested to be truthy. *)
Definition valueOf (s : option string) : string :=
  match s with Some v => v | None => "" end.

Definition isSome {A} (o : option A) : bool :=
  match o with Some _ => true | None => false end.

Definition orZeroZ (o : option Z) : Z :=
  match o with Some z => z | None => 0%Z end.

(** [x || 0] on a nullable number: null, 0, -0 and NaN are falsy. *)
Definition orZero (o : option float) : float :=
  match o with
  | Some x => if PrimFloat.eqb x 0 || PrimFloat.is_nan x then 0%float else x
  | None => 0%float
  end.

(** ** exams.repository.ts *)

Module examsRepository.

Definition findExamById (id : Id) : M (option Exam) :=
  gets (fun w => find (fun e => exam_id e =? id) (exams w)).

Definition findExamByIdAndTeacher (id teacherId : Id) : M (option Exam) :=
  gets (fun w =>
    find (fun e => (exam_id e =? id) && (exam_teacherId e =? teacherId))
         (exams w)).

(** The fields of [Partial<Exam>] that the status operations set. *)
Record ExamPatch := {
  set_status : option ExamStatus;
  set_startTime : option Timestamp;
  set_endTime : option Timestamp
}.

Definition applyExamPatch (data : ExamPatch) (now : Timestamp) (e : Exam)
  : Exam :=
  {| exam_id := exam_id e;
     exam_teacherId := exam_teacherId e;
     exam_title := exam_title e;
     exam_startTime :=
       match set_startTime data with
       | Some t => Some t | None => exam_startTime e end;
     exam_endTime :=
       match set_endTime data with
       | Some t => Some t | None => exam_endTime e end;
     exam_status :=
       match set_status data with
       | Some s => s | None => exam_status e end;
     exam_settings := exam_settings e;
     exam_updatedAt := now |}.

(** The column [status] has the type [exam_status]: a value that is not
    a member of [examStatusEnum] is refused by the database (invalid input
    value for enum), whatever rows the statement would match. *)
Definition columnAccepts (s : ExamStatus) : bool :=
  existsb (ExamStatus_eqb s) examStatusEnum.

Definition invalidEnumValue (s : ExamStatus) : AppError :=
  ExternalError ("invalid input value for enum exam_status: "
                 ++ ExamStatus_toString s).

(** What the database answers to [SET status = ...]. *)
Definition refusedByColumn (data : ExamPatch) : option AppError :=
  match set_status data with
  | Some s => if columnAccepts s then None else Some (invalidEnumValue s)
  | None => None
  end.

Definition updateExam (id : Id) (data : ExamPatch) (now : Timestamp)
  : M (option Exam) :=
  match refusedByColumn data with
  | Some error => throw error
  | None =>
      modify (fun w =>
        with_exams
          (map (fun e => if exam_id e =? id
                         then applyExamPatch data now e else e) (exams w))
          w) ;;;
      gets (fun w => find (fun e => exam_id e =? id) (exams w))
  end.

(** [findMany] on the link table; the [orderBy] is left out, the callers
    below read only the length and the question ids of the result. *)
Definition getExamQuestions (examId : Id) : M (list ExamQuestion) :=
  gets (fun w => filter (fun q => eq_examId q =? examId) (examQuestions w)).

Definition createParticipant (row : ExamParticipant) : M ExamParticipant :=
  modify (fun w =>
    with_examParticipants (examParticipants w ++ [row]) w) ;;;
  ret row.

Definition findParticipant (examId studentId : Id)
  : M (option ExamParticipant) :=
  gets (fun w =>
    find (fun p => (participant_examId p =? examId)
                   && (participant_studentId p =? studentId))
         (examParticipants w)).

Record ParticipantPatch := {
  set_submitTime : option Timestamp;
  set_score : option float;
  set_participantStatus : option string
}.

Definition applyParticipantPatch (data : ParticipantPatch)
  (p : ExamParticipant) : ExamParticipant :=
  {| participant_id := participant_id p;
     participant_examId := participant_examId p;
     participant_studentId := participant_studentId p;
     participant_proctoringSessionId := participant_proctoringSessionId p;
     participant_startTime := participant_startTime p;
     participant_submitTime :=
       match set_submitTime data with
       | Some t => Some t | None => participant_submitTime p end;
     participant_score :=
       match set_score data with
       | Some s => Some s | None => participant_score p end;
     participant_status :=
       match set_participantStatus data with
       | Some s => Some s | None => participant_status p end;
     participant_createdAt := participant_createdAt p |}.

Definition updateParticipant (id : Id) (data : ParticipantPatch)
  : M (option ExamParticipant) :=
  modify (fun w =>
    with_examParticipants
      (map (fun p => if participant_id p =? id
                     then applyParticipantPatch data p else p)
           (examParticipants w))
      w) ;;;
  gets (fun w => find (fun p => participant_id p =? id)
                      (examParticipants w)).

Definition listParticipants (examId : Id) : M (list ExamParticipant) :=
  gets (fun w =>
    filter (fun p => participant_examId p =? examId)
           (examParticipants w)).

(** [Partial<NewAnswer>] as the submit operations fill it. *)
Record AnswerData := {
  data_answerText : option string;
  data_answerFileUrl : option string;
  data_status : AnswerStatus
}.

Definition applyAnswerData (data : AnswerData) (now : Timestamp)
  (a : Answer) : Answer :=
  {| answer_id := answer_id a;
     answer_participantId := answer_participantId a;
     answer_questionId := answer_questionId a;
     answer_answerText :=
       match data_answerText data with
       | Some t => Some t | None => answer_answerText a end;
     answer_answerFileUrl :=
       match data_answerFileUrl data with
       | Some u => Some u | None => answer_answerFileUrl a end;
     answer_aiScore := answer_aiScore a;
     answer_finalScore := answer_finalScore a;
     answer_feedback := answer_feedback a;
     answer_status := data_status data;
     answer_updatedAt := now |}.

Definition newAnswer (newId participantId questionId : Id)
  (data : AnswerData) (now : Timestamp) : Answer :=
  {| answer_id := newId;
     answer_participantId := participantId;
     answer_questionId := questionId;
     answer_answerText := data_answerText data;
     answer_answerFileUrl := data_answerFileUrl data;
     answer_aiScore := None;
     answer_finalScore := None;
     answer_feedback := None;
     answer_status := data_status data;
     answer_updatedAt := now |}.

Definition upsertAnswer (participantId questionId : Id) (data : AnswerData)
  (newId : Id) (now : Timestamp) : M (option Answer) :=
  existing <- gets (fun w =>
    find (fun a => (answer_participantId a =? participantId)
                   && (answer_questionId a =? questionId))
         (answers w)) ;;
  match existing with
  | Some existing =>
      modify (fun w =>
        with_answers
          (map (fun a => if answer_id a =? answer_id existing
                         then applyAnswerData data now a else a)
               (answers w))
          w) ;;;
      gets (fun w => find (fun a => answer_id a =? answer_id existing)
                          (answers w))
  | None =>
      let created := newAnswer newId participantId questionId data now in
      modify (fun w => with_answers (answers w ++ [created]) w) ;;;
      ret (Some created)
  end.

(** [findMany ... with: { question: true }]: each answer with the row its
    [questionId] refers to. *)
Definition getParticipantAnswers (participantId : Id)
  : M (list (Answer * option Question)) :=
  gets (fun w =>
    map (fun a =>
           (a, find (fun q => question_id q =? answer_questionId a)
                    (questions w)))
        (filter (fun a => answer_participantId a =? participantId)
                (answers w))).

Definition updateAnswerScore (answerId : Id)
  (aiScore finalScore : option float)
  (now : Timestamp) : M unit :=
  modify (fun w =>
    with_answers
      (map (fun a =>
              if answer_id a =? answerId
              then {| answer_id := answer_id a;
                      answer_participantId := answer_participantId a;
                      answer_questionId := answer_questionId a;
                      answer_answerText := answer_answerText a;
                      answer_answerFileUrl := answer_answerFileUrl a;
                      answer_aiScore := aiScore;
                      answer_finalScore := finalScore;
                      answer_feedback := answer_feedback a;
                      answer_status := SCORED;
                      answer_updatedAt := now |}
              else a)
           (answers w))
      w).

(** [Partial<ExamStatistic>]: the columns a caller passes are [Some]. *)
Record StatisticsPatch := {
  set_avgScore : option float;
  set_maxScore : option float;
  set_minScore : option float;
  set_totalParticipants : option Z;
  set_submittedCount : option Z;
  set_scoredCount : option Z;
  set_suspiciousCount : option Z
}.

Definition orElse {A} (new old : option A) : option A :=
  match new with Some v => Some v | None => old end.

Definition applyStatisticsPatch (data : StatisticsPatch) (now : Timestamp)
  (s : ExamStatistic) : ExamStatistic :=
  {| stat_examId := stat_examId s;
     avgScore := orElse (set_avgScore data) (avgScore s);
     maxScore := orElse (set_maxScore data) (maxScore s);
     minScore := orElse (set_minScore data) (minScore s);
     totalParticipants :=
       orElse (set_totalParticipants data) (totalParticipants s);
     submittedCount := orElse (set_submittedCount data) (submittedCount s);
     scoredCount := orElse (set_scoredCount data) (scoredCount s);
     suspiciousCount :=
       orElse (set_suspiciousCount data) (suspiciousCount s);
     stat_updatedAt := now |}.

(** A fresh row takes the column defaults of the schema: the three
    scores are null, the four counters default to 0. *)
Definition newStatistics (examId : Id) (data : StatisticsPatch)
  (now : Timestamp) : ExamStatistic :=
  {| stat_examId := examId;
     avgScore := set_avgScore data;
     maxScore := set_maxScore data;
     minScore := set_minScore data;
     totalParticipants := orElse (set_totalParticipants data) (Some 0%Z);
     submittedCount := orElse (set_submittedCount data) (Some 0%Z);
     scoredCount := orElse (set_scoredCount data) (Some 0%Z);
     suspiciousCount := orElse (set_suspiciousCount data) (Some 0%Z);
     stat_updatedAt := now |}.

Definition getStatistics (examId : Id) : M (option ExamStatistic) :=
  gets (fun w => find (fun s => stat_examId s =? examId)
                      (examStatistics w)).

Definition upsertStatistics (examId : Id) (data : StatisticsPatch)
  (now : Timestamp) : M (option ExamStatistic) :=
  existing <- getStatistics examId ;;
  match existing with
  | Some _ =>
      modify (fun w =>
        with_examStatistics
          (map (fun s => if stat_examId s =? examId
                         then applyStatisticsPatch data now s else s)
               (examStatistics w))
          w) ;;;
      getStatistics examId
  | None =>
      let created := newStatistics examId data now in
      modify (fun w =>
        with_examStatistics (examStatistics w ++ [created]) w) ;;;
      ret (Some created)
  end.

End examsRepository.

(** ** libs/websocket, services/proctoring-ai.service *)

Definition broadcastExamStart (examId : Id) : M unit :=
  modify (fun w => with_broadcasts (broadcasts w ++ [ExamStart examId]) w).

Definition broadcastExamEnd (examId : Id) : M unit :=
  modify (fun w => with_broadcasts (broadcasts w ++ [ExamEnd examId]) w).

Record StartSessionRequest := {
  req_student_id : Id;
  req_exam_id : Id;
  req_student_name : string;
  req_exam_name : string
}.

(** [proctoringAIService.startSession]: a session id, or a thrown error. *)
Definition StartSession := StartSessionRequest -> Outcome string.

(** ** exams.service.ts *)

Module examsService.
Import examsRepository.

Definition includes (s : ExamStatus) (l : list ExamStatus) : bool :=
  existsb (ExamStatus_eqb s) l.

Definition validTransitions (from : ExamStatus) : list ExamStatus :=
  match from with
  | DRAFT => [ONGOING]
  | ONGOING => [FINISHED]
  | FINISHED => [PUBLISHED; ONGOING]
  | PUBLISHED => []
  end.

Definition zeroStatistics : StatisticsPatch :=
  {| set_avgScore := Some 0%float;
     set_maxScore := Some 0%float;
     set_minScore := Some 0%float;
     set_totalParticipants := Some 0%Z;
     set_submittedCount := Some 0%Z;
     set_scoredCount := Some 0%Z;
     set_suspiciousCount := Some 0%Z |}.

Definition updateExamStatus (examId teacherId : Id)
  (newStatus : ExamStatus) (now : Timestamp) : M (option Exam) :=
  exam <- findExamByIdAndTeacher examId teacherId ;;
  match exam with
  | None => throw (NotFoundError "Exam")
  | Some exam =>
      if negb (includes newStatus (validTransitions (exam_status exam)))
      then throw (BadRequestError
                    ("Cannot transition from "
                     ++ ExamStatus_toString (exam_status exam)
                     ++ " to " ++ ExamStatus_toString newStatus))
      else
        (if ExamStatus_eqb (exam_status exam) DRAFT
            && ExamStatus_eqb newStatus ONGOING
         then
           questions <- getExamQuestions examId ;;
           if (List.length questions =? 0)%nat
           then throw (BadRequestError
                         "Cannot start exam without questions")
           else
             upsertStatistics examId zeroStatistics now ;;;
             broadcastExamStart examId
         else ret tt) ;;;
        (if ExamStatus_eqb (exam_status exam) ONGOING
            && ExamStatus_eqb newStatus FINISHED
         then broadcastExamEnd examId
         else ret tt) ;;;
        updateExam examId
          {| set_status := Some newStatus;
             set_startTime :=
               if ExamStatus_eqb newStatus ONGOING
                  && negb (isSome (exam_startTime exam))
               then Some now else None;
             set_endTime :=
               if ExamStatus_eqb newStatus FINISHED
               then Some now else None |}
          now
  end.

Definition publishExam (examId teacherId : Id) (now : Timestamp)
  : M (option Exam) :=
  exam <- findExamByIdAndTeacher examId teacherId ;;
  match exam with
  | None => throw (NotFoundError "Exam")
  | Some exam =>
      if negb (ExamStatus_eqb (exam_status exam) DRAFT)
      then throw (BadRequestError "Exam is already published")
      else
        questions <- getExamQuestions examId ;;
        if (List.length questions =? 0)%nat
        then throw (BadRequestError
                      "Cannot publish exam without questions")
        else
          updated <- updateExam examId
            {| set_status := Some ONGOING;
               set_startTime :=
                 Some (match exam_startTime exam with
                       | Some t => t | None => now end);
               set_endTime := None |}
            now ;;
          upsertStatistics examId zeroStatistics now ;;;
          broadcastExamStart examId ;;;
          ret updated
  end.

Record JoinResult := {
  join_participant : ExamParticipant;
  alreadyJoined : bool;
  join_proctoringSessionId : option string
}.

Definition settingsEnableProctoring (e : Exam) : bool :=
  match exam_settings e with
  | Some s => match enableProctoring s with Some b => b | None => false end
  | None => false
  end.

Definition joinExam (startSession : StartSession)
  (examId studentId : Id) (studentName : string)
  (newId : Id) (now : Timestamp) : M JoinResult :=
  exam <- findExamById examId ;;
  match exam with
  | None => throw (NotFoundError "Exam")
  | Some exam =>
      if negb (ExamStatus_eqb (exam_status exam) ONGOING)
      then throw (BadRequestError
                    "This exam is not available for joining")
      else
        participant <- findParticipant examId studentId ;;
        match participant with
        | Some participant =>
            ret {| join_participant := participant;
                   alreadyJoined := true;
                   join_proctoringSessionId := None |}
        | None =>
            let proctoringSessionId :=
              if settingsEnableProctoring exam
              then match startSession
                           {| req_student_id := studentId;
                              req_exam_id := examId;
                              req_student_name := studentName;
                              req_exam_name := exam_title exam |} with
                   | Returned sid => Some sid
                   | Thrown _ => None
                   end
              else None in
            participant <- createParticipant
              {| participant_id := newId;
                 participant_examId := examId;
                 participant_studentId := studentId;
                 participant_proctoringSessionId := proctoringSessionId;
                 participant_startTime := Some now;
                 participant_submitTime := None;
                 participant_score := None;
                 participant_status := Some "IN_PROGRESS";
                 participant_createdAt := now |} ;;
            stats <- getStatistics examId ;;
            upsertStatistics examId
              {| set_avgScore := None; set_maxScore := None;
                 set_minScore := None;
                 set_totalParticipants :=
                   Some (orZeroZ (match stats with
                                  | Some s => totalParticipants s
                                  | None => None end) + 1)%Z;
                 set_submittedCount := None; set_scoredCount := None;
                 set_suspiciousCount := None |}
              now ;;;
            ret {| join_participant := participant;
                   alreadyJoined := false;
                   join_proctoringSessionId := proctoringSessionId |}
        end
  end.

Record SubmitAnswerInput := {
  input_questionId : Id;
  input_answerText : option string;
  input_answerFileUrl : option string
}.

Definition answerDataOf (input : SubmitAnswerInput) : AnswerData :=
  {| data_answerText := input_answerText input;
     data_answerFileUrl := input_answerFileUrl input;
     data_status := PENDING |}.

Definition submitAnswer (examId studentId : Id) (input : SubmitAnswerInput)
  (newId : Id) (now : Timestamp) : M (option Answer) :=
  participant <- findParticipant examId studentId ;;
  match participant with
  | None => throw (ForbiddenError "You have not joined this exam")
  | Some participant =>
      if isSome (participant_submitTime participant)
      then throw (BadRequestError "You have already submitted the exam")
      else
        examQuestions <- getExamQuestions examId ;;
        let questionExists :=
          existsb (fun q => eq_questionId q =? input_questionId input)
                  examQuestions in
        if negb questionExists
        then throw (NotFoundError "Question not found in this exam")
        else upsertAnswer (participant_id participant)
                          (input_questionId input)
                          (answerDataOf input) newId now
  end.

(** The loop of [batchSubmitAnswers]; every input comes with the id that
    [defaultRandom()] would give a row inserted for it. *)
Fixpoint batchLoop (participantId : Id)
  (inputs : list (SubmitAnswerInput * Id)) (now : Timestamp)
  : M (list (option Answer)) :=
  match inputs with
  | [] => ret []
  | (answerInput, newId) :: rest =>
      answer <- upsertAnswer participantId (input_questionId answerInput)
                             (answerDataOf answerInput) newId now ;;
      results <- batchLoop participantId rest now ;;
      ret (answer :: results)
  end.

Definition batchSubmitAnswers (examId studentId : Id)
  (inputs : list (SubmitAnswerInput * Id)) (now : Timestamp)
  : M (list (option Answer)) :=
  participant <- findParticipant examId studentId ;;
  match participant with
  | None => throw (ForbiddenError "You have not joined this exam")
  | Some participant =>
      if isSome (participant_submitTime participant)
      then throw (BadRequestError "You have already submitted the exam")
      else batchLoop (participant_id participant) inputs now
  end.

End examsService.

(** ** The string builtins of the engine *)

(** [String.prototype.toLowerCase], [toUpperCase] and [trim] are functions
    of the JavaScript engine, defined by ECMA-262 over the whole of
    Unicode.  They are not code of the repository: the services take them
    as given, and every statement about the services holds for every
    implementation. *)
Class StringBuiltins := {
  toLowerCase : string -> string;
  toUpperCase : string -> string;
  trim : string -> string
}.

(** *** What the builtins do on ASCII strings *)

(** On a string whose characters are all ASCII the builtins are these:
    the letters A-Z and a-z are mapped to each other and nothing else
    changes; [trim] removes tab, line feed, vertical tab, form feed,
    carriage return and space from both ends. *)
Definition isUpper (c : ascii) : bool :=
  (65 <=? nat_of_ascii c)%nat && (nat_of_ascii c <=? 90)%nat.

Definition isLower (c : ascii) : bool :=
  (97 <=? nat_of_ascii c)%nat && (nat_of_ascii c <=? 122)%nat.

Definition toLowerChar (c : ascii) : ascii :=
  if isUpper c then ascii_of_nat (nat_of_ascii c + 32) else c.

Definition toUpperChar (c : ascii) : ascii :=
  if isLower c then ascii_of_nat (nat_of_ascii c - 32) else c.

Fixpoint mapString (f : ascii -> ascii) (s : string) : string :=
  match s with
  | EmptyString => EmptyString
  | String c rest => String (f c) (mapString f rest)
  end.

Definition lowerAscii : string -> string := mapString toLowerChar.
Definition upperAscii : string -> string := mapString toUpperChar.

Definition isWhiteSpace (c : ascii) : bool :=
  let n := nat_of_ascii c in
  ((9 <=? n)%nat && (n <=? 13)%nat) || (n =? 32)%nat.

Fixpoint trimStart (s : string) : string :=
  match s with
  | EmptyString => EmptyString
  | String c rest => if isWhiteSpace c then trimStart rest else s
  end.

Fixpoint trimEnd (s : string) : string :=
  match s with
  | EmptyString => EmptyString
  | String c rest =>
      match trimEnd rest with
      | EmptyString => if isWhiteSpace c then EmptyString
                       else String c EmptyString
      | t => String c t
      end
  end.

Definition trimAscii (s : string) : string := trimEnd (trimStart s).

Definition asciiBuiltins : StringBuiltins :=
  {| toLowerCase := lowerAscii;
     toUpperCase := upperAscii;
     trim := trimAscii |}.

Fixpoint asciiOnly (s : string) : bool :=
  match s with
  | EmptyString => true
  | String c rest => (nat_of_ascii c <? 128)%nat && asciiOnly rest
  end.

(** An implementation that treats ASCII strings as the engine does. *)
Definition agreesOnAscii (builtins : StringBuiltins) : Prop :=
  forall s, asciiOnly s = true ->
            toLowerCase s = lowerAscii s
            /\ toUpperCase s = upperAscii s
            /\ trim s = trimAscii s.

(** The words of the specification for ASCII strings, stated by character
    codes and without the functions above: [t] is [s] with its surrounding
    white space removed, and two strings are the same up to the case of
    their letters. *)
Definition blank (c : ascii) : Prop :=
  (9 <= nat_of_ascii c /\ nat_of_ascii c <= 13)%nat
  \/ nat_of_ascii c = 32%nat.

Fixpoint allBlank (s : string) : Prop :=
  match s with
  | EmptyString => True
  | String c rest => blank c /\ allBlank rest
  end.

Definition outerClean (t : string) : Prop :=
  (forall c rest, t = String c rest -> ~ blank c) /\
  (forall init c, t = (init ++ String c EmptyString)%string -> ~ blank c).

Definition Stripped (s t : string) : Prop :=
  exists l r, s = (l ++ t ++ r)%string
              /\ allBlank l /\ allBlank r /\ outerClean t.

Definition sameLetter (c d : ascii) : Prop :=
  c = d
  \/ (65 <= nat_of_ascii c /\ nat_of_ascii c <= 90
      /\ nat_of_ascii d = nat_of_ascii c + 32)%nat
  \/ (65 <= nat_of_ascii d /\ nat_of_ascii d <= 90
      /\ nat_of_ascii c = nat_of_ascii d + 32)%nat.

Fixpoint sameUpToCase (a b : string) : Prop :=
  match a, b with
  | EmptyString, EmptyString => True
  | String c a', String d b' => sameLetter c d /\ sameUpToCase a' b'
  | _, _ => False
  end.

Definition equalAfterFoldAndTrim (a k : string) : Prop :=
  exists ta tk, Stripped a ta /\ Stripped k tk /\ sameUpToCase ta tk.

(** ** services/aes-scorer.service.ts *)

Record ScoringFeedback := {
  fb_overall : string;
  fb_strengths : list string;
  fb_improvements : list string
}.

Record ScoringResult := {
  result_score : float;
  result_total_points : float;
  result_max_points : float;
  result_rubric_breakdown : list (string * float);
  result_feedback : ScoringFeedback
}.

Record ScoreImageResponse := {
  scoring_result : option ScoringResult;
  response_extracted_text : string
}.

(** The two calls of [aesScorerService] that the pipeline makes, each given
    (answer or image url, answer key, rubric, question text): a response,
    or a thrown error. *)
Record AesScorer := {
  scoreText : string -> string -> option (list (string * float)) ->
              string ->
              Outcome ScoringResult;
  scoreImage : string -> string -> option (list (string * float)) ->
               string ->
               Outcome ScoreImageResponse
}.

(** ** scoring.service.ts *)

Module scoringService.
Import examsRepository.

(** *** The in-memory job map *)

Fixpoint queueGet (participantId : Id) (q : list (Id * ScoringJob))
  : option ScoringJob :=
  match q with
  | [] => None
  | (k, j) :: rest =>
      if k =? participantId then Some j else queueGet participantId rest
  end.

Fixpoint queueSet (participantId : Id) (job : ScoringJob)
  (q : list (Id * ScoringJob)) : list (Id * ScoringJob) :=
  match q with
  | [] => [(participantId, job)]
  | (k, j) :: rest =>
      if k =? participantId then (k, job) :: rest
      else (k, j) :: queueSet participantId job rest
  end.

(** A field assignment on the job object stored under a key. *)
Definition updateJob (participantId : Id) (f : ScoringJob -> ScoringJob)
  : M unit :=
  modify (fun w =>
    with_scoringQueue
      (map (fun kj => if fst kj =? participantId
                      then (fst kj, f (snd kj)) else kj)
           (scoringQueue w))
      w).

Definition setJobStatus (s : JobStatus) (j : ScoringJob) : ScoringJob :=
  {| job_examId := job_examId j; job_participantId := job_participantId j;
     job_status := s; job_createdAt := job_createdAt j;
     job_completedAt := job_completedAt j; job_error := job_error j |}.

Definition setJobDone (now : Timestamp) (j : ScoringJob) : ScoringJob :=
  {| job_examId := job_examId j; job_participantId := job_participantId j;
     job_status := done; job_createdAt := job_createdAt j;
     job_completedAt := Some now; job_error := job_error j |}.

Definition setJobFailed (message : string) (j : ScoringJob) : ScoringJob :=
  {| job_examId := job_examId j; job_participantId := job_participantId j;
     job_status := failed; job_createdAt := job_createdAt j;
     job_completedAt := job_completedAt j; job_error := Some message |}.

(** *** Aggregates (the same text in both scoring services) *)

Definition sumFinalScores (scoredAnswers : list Answer) : float :=
  fold_left (fun sum a => (sum + orZero (answer_finalScore a))%float)
            scoredAnswers 0%float.

(** [array.length] as a number (an array holds fewer than 2^32
    elements, which the conversion takes exactly). *)
Definition lengthOf {A} (l : list A) : float :=
  PrimFloat.of_uint63 (Uint63.of_Z (Z.of_nat (List.length l))).

Definition recalculateParticipantScore (participantId : Id) : M unit :=
  participantAnswers <- getParticipantAnswers participantId ;;
  let scoredAnswers :=
    filter (fun a => isSome (answer_finalScore a))
           (map fst participantAnswers) in
  if (List.length scoredAnswers =? 0)%nat
  then ret tt
  else
    let totalScore := sumFinalScores scoredAnswers in
    let averageScore := (totalScore / lengthOf scoredAnswers)%float in
    updateParticipant participantId
      {| set_submitTime := None;
         set_score := Some averageScore;
         set_participantStatus := Some "SCORED" |} ;;;
    ret tt.

(** [Math.max] and [Math.min] of two numbers: NaN if either is NaN, and
    +0 is larger than -0. *)
Definition maxOfTwo (a b : float) : float :=
  if PrimFloat.is_nan a then a
  else if PrimFloat.is_nan b then b
  else if PrimFloat.ltb a b then b
  else if PrimFloat.ltb b a then a
  else if PrimFloat.get_sign a then b else a.

Definition minOfTwo (a b : float) : float :=
  if PrimFloat.is_nan a then a
  else if PrimFloat.is_nan b then b
  else if PrimFloat.ltb a b then a
  else if PrimFloat.ltb b a then b
  else if PrimFloat.get_sign a then a else b.

(** [Math.max(...scores)] and [Math.min(...scores)]: the infinities for an
    empty array. *)
Definition Math_max (scores : list float) : float :=
  fold_left maxOfTwo scores PrimFloat.neg_infinity.

Definition Math_min (scores : list float) : float :=
  fold_left minOfTwo scores PrimFloat.infinity.

Definition nonNullScores (participants : list ExamParticipant)
  : list float :=
  flat_map (fun p => match participant_score p with
                     | Some s => [s] | None => [] end)
           participants.

Definition statisticsOf (participants : list ExamParticipant)
  : StatisticsPatch :=
  let scores := nonNullScores participants in
  {| set_avgScore :=
       Some (fold_left PrimFloat.add scores 0 / lengthOf scores)%float;
     set_maxScore := Some (Math_max scores);
     set_minScore := Some (Math_min scores);
     set_totalParticipants := Some (Z.of_nat (List.length participants));
     set_submittedCount :=
       Some (Z.of_nat
               (List.length
                  (filter (fun p => isSome (participant_submitTime p))
                          participants)));
     set_scoredCount := Some (Z.of_nat (List.length scores));
     set_suspiciousCount := None |}.

Definition updateExamStatistics (examId : Id) (now : Timestamp) : M unit :=
  participants <- listParticipants examId ;;
  if (List.length (nonNullScores participants) =? 0)%nat
  then ret tt
  else upsertStatistics examId (statisticsOf participants) now ;;; ret tt.

(** *** Operations guarded by ownership *)

Record OverrideScoreInput := {
  input_finalScore : float;
  input_feedback : option string
}.

Definition applyOverride (input : OverrideScoreInput) (now : Timestamp)
  (a : Answer) : Answer :=
  {| answer_id := answer_id a;
     answer_participantId := answer_participantId a;
     answer_questionId := answer_questionId a;
     answer_answerText := answer_answerText a;
     answer_answerFileUrl := answer_answerFileUrl a;
     answer_aiScore := answer_aiScore a;
     answer_finalScore := Some (input_finalScore input);
     answer_feedback :=
       match input_feedback input with
       | Some f => Some (FeedbackText f)
       | None => answer_feedback a
       end;
     answer_status := SCORED;
     answer_updatedAt := now |}.

(** [answer.participant.exam] of the relational query. *)
Definition examOfAnswer (w : World) (a : Answer) : option Exam :=
  match find (fun p => participant_id p =? answer_participantId a)
             (examParticipants w) with
  | Some p => find (fun e => exam_id e =? participant_examId p) (exams w)
  | None => None
  end.

Definition overrideScore (answerId teacherId : Id)
  (input : OverrideScoreInput) (now : Timestamp) : M (option Answer) :=
  answer <- gets (fun w => find (fun a => answer_id a =? answerId)
                                (answers w)) ;;
  match answer with
  | None => throw (NotFoundError "Answer")
  | Some answer =>
      exam <- gets (fun w => examOfAnswer w answer) ;;
      match exam with
      | None =>
          throw (TypeError "Cannot read properties of null")
      | Some exam =>
          if negb (exam_teacherId exam =? teacherId)
          then throw (ForbiddenError
                        "You do not have access to this answer")
          else
            modify (fun w =>
              with_answers
                (map (fun a => if answer_id a =? answerId
                               then applyOverride input now a else a)
                     (answers w))
                w) ;;;
            updated <- gets (fun w =>
              find (fun a => answer_id a =? answerId) (answers w)) ;;
            recalculateParticipantScore (answer_participantId answer) ;;;
            ret updated
      end
  end.

Record ScoringStatus := {
  count_pending : nat;
  count_processing : nat;
  count_done : nat;
  count_failed : nat
}.

Definition JobStatus_eqb (a b : JobStatus) : bool :=
  match a, b with
  | pending, pending | processing, processing
  | done, done | failed, failed => true
  | _, _ => false
  end.

Definition getScoringStatus (examId teacherId : Id) : M ScoringStatus :=
  exam <- findExamByIdAndTeacher examId teacherId ;;
  match exam with
  | None => throw (NotFoundError "Exam")
  | Some _ =>
      jobs <- gets (fun w =>
        filter (fun j => job_examId j =? examId)
               (map snd (scoringQueue w))) ;;
      let count s :=
        List.length (filter (fun j => JobStatus_eqb (job_status j) s)
                            jobs) in
      ret {| count_pending := count pending;
             count_processing := count processing;
             count_done := count done;
             count_failed := count failed |}
  end.

(** *** The pipeline, over the body of its loop on answers *)

Section Pipeline.
(** What one iteration of [for (const answer of participantAnswers)]
    does; the two scoring services differ here and only here. *)
Variable scoreAnswer : Answer * option Question -> Timestamp -> M unit.

Definition processParticipant (participantId : Id) (now : Timestamp)
  : M unit :=
  job <- gets (fun w => queueGet participantId (scoringQueue w)) ;;
  match job with
  | None => ret tt
  | Some _ =>
      tryCatch
        (updateJob participantId (setJobStatus processing) ;;;
         participantAnswers <- getParticipantAnswers participantId ;;
         forEach participantAnswers
                 (fun answer => scoreAnswer answer now) ;;;
         recalculateParticipantScore participantId ;;;
         updateJob participantId (setJobDone now))
        (fun error =>
           updateJob participantId (setJobFailed (errorMessage error)))
  end.

Definition processScoring (examId : Id) (participantIds : list Id)
  (now : Timestamp) : M unit :=
  forEach participantIds
          (fun participantId => processParticipant participantId now) ;;;
  updateExamStatistics examId now.

Record TriggerResult := {
  triggered : nat;
  jobs : list Id
}.

Definition enqueue (examId : Id) (now : Timestamp)
  (p : ExamParticipant) : M unit :=
  modify (fun w =>
    with_scoringQueue
      (queueSet (participant_id p)
                {| job_examId := examId;
                   job_participantId := participant_id p;
                   job_status := pending;
                   job_createdAt := now;
                   job_completedAt := None;
                   job_error := None |}
                (scoringQueue w))
      w).

(** The detached [processScoring] runs here to its end before the
    method returns; [jobs] lists the participants of the returned job
    snapshots (their status depends on how far the detached task got). *)
Definition triggerScoring (examId teacherId : Id)
  (participantIds : option (list Id)) (now : Timestamp)
  : M TriggerResult :=
  exam <- findExamByIdAndTeacher examId teacherId ;;
  match exam with
  | None => throw (NotFoundError "Exam")
  | Some _ =>
      participants <- listParticipants examId ;;
      let submitted :=
        filter (fun p => isSome (participant_submitTime p))
               participants in
      let toScore :=
        match participantIds with
        | Some (id :: ids) =>
            filter (fun p => existsb (String.eqb (participant_id p))
                                     (id :: ids))
                   submitted
        | _ => submitted
        end in
      forEach toScore (enqueue examId now) ;;;
      processScoring examId (map participant_id toScore) now ;;;
      ret {| triggered := List.length toScore;
             jobs := map participant_id toScore |}
  end.
End Pipeline.

Section Builtins.
Context {builtins : StringBuiltins}.

Definition isPG (q : Question) : bool :=
  match question_type q with PG => true | ESSAY => false end.

Definition isESSAY (q : Question) : bool :=
  match question_type q with ESSAY => true | PG => false end.

Definition hundredIf (isCorrect : bool) : float :=
  if isCorrect then 100%float else 0%float.

(** *** The loop body of src/modules/scoring/scoring.service.ts *)

(** [answer.answerText?.toUpperCase().trim() ===
     answer.question.answerKey.toUpperCase().trim()] *)
Definition isCorrectPlain (answerText : option string) (answerKey : string)
  : bool :=
  match answerText with
  | Some t => trim (toUpperCase t) =? trim (toUpperCase answerKey)
  | None => false
  end.

Definition computeScorePlain (answer : Answer) (q : Question)
  : option float :=
  if isPG q && truthy (question_answerKey q)
  then Some (hundredIf (isCorrectPlain (answer_answerText answer)
                                        (valueOf (question_answerKey q))))
  else if isESSAY q then Some 50%float
  else None.

Definition missingQuestion : AppError :=
  TypeError "Cannot read properties of null (reading 'type')".

Definition scoreAnswerPlain (aq : Answer * option Question)
  (now : Timestamp) : M unit :=
  let (answer, question) := aq in
  match answer_status answer with
  | SCORED => ret tt
  | PENDING =>
      match question with
      | None => throw missingQuestion
      | Some q =>
          let aiScore := computeScorePlain answer q in
          updateAnswerScore (answer_id answer) aiScore aiScore now
      end
  end.

Definition processScoringPlain := processScoring scoreAnswerPlain.
Definition triggerScoringPlain := triggerScoring scoreAnswerPlain.

(** *** The loop body of the scoring service that imports
    [aesScorerService] *)

Definition plainFeedback (message : string) : FeedbackObject :=
  {| overall := message; strengths := []; improvements := [];
     detail := None |}.

Definition resultFeedback (r : ScoringResult) (extracted : option string)
  : FeedbackObject :=
  {| overall := fb_overall (result_feedback r);
     strengths := fb_strengths (result_feedback r);
     improvements := fb_improvements (result_feedback r);
     detail := Some {| rubric_breakdown := result_rubric_breakdown r;
                       total_points := result_total_points r;
                       max_points := result_max_points r;
                       extracted_text := extracted |} |}.

(** [answer.answerText?.toLowerCase().trim() || ""] against
    [answer.question.answerKey.toLowerCase().trim()] *)
Definition isCorrectAes (answerText : option string) (answerKey : string)
  : bool :=
  let studentAnswer :=
    match answerText with
    | Some t => trim (toLowerCase t)
    | None => ""
    end in
  studentAnswer =? trim (toLowerCase answerKey).

Definition scorePG (answer : Answer) (key : string)
  : option float * option FeedbackObject :=
  let isCorrect := isCorrectAes (answer_answerText answer) key in
  (Some (hundredIf isCorrect),
   Some (plainFeedback (if isCorrect then "Jawaban benar"
                        else "Jawaban salah"))).

Definition aiFallback : option float * option FeedbackObject :=
  (Some 50%float, Some (plainFeedback "Penilaian AI gagal, perlu review manual")).

Definition noAnswerOrKey : option float * option FeedbackObject :=
  (Some 0%float,
   Some (plainFeedback
           "Tidak ada jawaban atau kunci jawaban tidak tersedia")).

Definition ocrFailed : option float * option FeedbackObject :=
  (Some 0%float, Some (plainFeedback "OCR gagal mengekstrak teks dari gambar")).

(** The [try] block of the essay branch, with its [catch]. *)
Definition scoreEssay (scorer : AesScorer) (answer : Answer) (q : Question)
  : option float * option FeedbackObject :=
  let rubric := question_rubric q in
  if truthy (answer_answerFileUrl answer) && truthy (question_answerKey q)
  then
    match scoreImage scorer (valueOf (answer_answerFileUrl answer))
                     (valueOf (question_answerKey q)) rubric
                     (question_question q) with
    | Returned imageResult =>
        match scoring_result imageResult with
        | Some r =>
            (Some (result_score r),
             Some (resultFeedback r
                     (Some (response_extracted_text imageResult))))
        | None => ocrFailed
        end
    | Thrown _ => aiFallback
    end
  else if truthy (answer_answerText answer)
          && truthy (question_answerKey q)
  then
    match scoreText scorer (valueOf (answer_answerText answer))
                    (valueOf (question_answerKey q)) rubric
                    (question_question q) with
    | Returned r => (Some (result_score r), Some (resultFeedback r None))
    | Thrown _ => aiFallback
    end
  else noAnswerOrKey.

Definition computeScoreAes (scorer : AesScorer) (answer : Answer)
  (q : Question) : option float * option FeedbackObject :=
  if isPG q && truthy (question_answerKey q)
  then scorePG answer (valueOf (question_answerKey q))
  else if isESSAY q then scoreEssay scorer answer q
  else (None, None).

Definition applyScore (aiScore : option float)
  (feedback : option FeedbackObject)
  (now : Timestamp) (a : Answer) : Answer :=
  {| answer_id := answer_id a;
     answer_participantId := answer_participantId a;
     answer_questionId := answer_questionId a;
     answer_answerText := answer_answerText a;
     answer_answerFileUrl := answer_answerFileUrl a;
     answer_aiScore := aiScore;
     answer_finalScore := aiScore;
     answer_feedback := option_map FeedbackJson feedback;
     answer_status := SCORED;
     answer_updatedAt := now |}.

Definition scoreAnswerAes (scorer : AesScorer)
  (aq : Answer * option Question) (now : Timestamp) : M unit :=
  let (answer, question) := aq in
  match answer_status answer with
  | SCORED => ret tt
  | PENDING =>
      match question with
      | None => throw missingQuestion
      | Some q =>
          let (aiScore, feedbackJson) := computeScoreAes scorer answer q in
          modify (fun w =>
            with_answers
              (map (fun a => if answer_id a =? answer_id answer
                             then applyScore aiScore feedbackJson now a
                             else a)
                   (answers w))
              w)
      end
  end.

Definition processScoringAes (scorer : AesScorer) :=
  processScoring (scoreAnswerAes scorer).
Definition triggerScoringAes (scorer : AesScorer) :=
  triggerScoring (scoreAnswerAes scorer).

End Builtins.

End scoringService.

(** The examples of this development run the services on ASCII strings,
    where the builtins are [asciiBuiltins]; the general statements are
    made in sections that take any [StringBuiltins]. *)
#[global] Existing Instance asciiBuiltins.

(** * Properties *)

(** ** Tables *)

Section Tables.
Context {A : Type}.

Lemma find_map_preserve (q : A -> bool) (g : A -> A) (l : list A) :
  (forall a, q (g a) = q a) ->
  find q (map g l) = option_map g (find q l).
Proof.
  intros Hq. induction l as [|a l IH]; simpl; [reflexivity|].
  rewrite Hq. destruct (q a); [reflexivity | exact IH].
Qed.

Lemma find_app_new (q : A -> bool) (l : list A) (x : A) :
  find q l = None -> q x = true -> find q (l ++ [x]) = Some x.
Proof.
  intros Hn Hx. induction l as [|a l IH]; simpl in *.
  - now rewrite Hx.
  - destruct (q a); [discriminate | auto].
Qed.

Lemma find_app_other (q : A -> bool) (l : list A) (x : A) :
  q x = false -> find q (l ++ [x]) = find q l.
Proof.
  intros Hx. induction l as [|b l IH]; simpl.
  - now rewrite Hx.
  - destruct (q b); auto.
Qed.

End Tables.

Ltac run := unfold bind, gets, modify, ret, throw, tryCatch; simpl.

(** ** Reading the world *)

Module Views.

Definition linkedQuestions (w : World) (examId : Id) : list ExamQuestion :=
  filter (fun q => eq_examId q =? examId) (examQuestions w).

Definition statisticsRow (w : World) (examId : Id) : option ExamStatistic :=
  find (fun s => stat_examId s =? examId) (examStatistics w).

Definition participantsOf (w : World) (examId : Id)
  : list ExamParticipant :=
  filter (fun p => participant_examId p =? examId) (examParticipants w).

Definition participantById (w : World) (participantId : Id)
  : option ExamParticipant :=
  find (fun p => participant_id p =? participantId) (examParticipants w).

Definition answerById (w : World) (answerId : Id) : option Answer :=
  find (fun a => answer_id a =? answerId) (answers w).

Definition answersOf (w : World) (participantId : Id) : list Answer :=
  filter (fun a => answer_participantId a =? participantId) (answers w).

Definition questionOf (w : World) (a : Answer) : option Question :=
  find (fun q => question_id q =? answer_questionId a) (questions w).

Definition jobOf (w : World) (participantId : Id) : option ScoringJob :=
  scoringService.queueGet participantId (scoringQueue w).

End Views.

(** ** Exam lifecycle *)

Module LifecycleFacts.
Import examsRepository examsService Views.

Definition owns (w : World) (examId teacherId : Id) (exam : Exam) : Prop :=
  find (fun e => (exam_id e =? examId) && (exam_teacherId e =? teacherId))
       (exams w)
  = Some exam.

Definition isBadRequest {A} (o : Outcome A) : Prop :=
  exists message, o = Thrown (BadRequestError message).

Definition isNotFound {A} (o : Outcome A) : Prop :=
  exists resource, o = Thrown (NotFoundError resource).

Definition allowed (from target : ExamStatus) : Prop :=
  In target (validTransitions from).

Lemma includes_allowed from target :
  includes target (validTransitions from) = true <-> allowed from target.
Proof.
  unfold allowed; destruct from, target; simpl; intuition congruence.
Qed.

Lemma owner_row_after_update w examId teacherId exam data now :
  owns w examId teacherId exam ->
  find (fun e => (exam_id e =? examId) && (exam_teacherId e =? teacherId))
       (map (fun e => if exam_id e =? examId
                      then applyExamPatch data now e else e) (exams w))
  = Some (applyExamPatch data now exam).
Proof.
  intros Ho. rewrite find_map_preserve.
  - unfold owns in Ho. rewrite Ho. simpl.
    apply find_some in Ho. destruct Ho as [_ Ho].
    apply andb_prop in Ho. destruct Ho as [Hid _].
    now rewrite Hid.
  - intros a. destruct (exam_id a =? examId) eqn:E; simpl;
      rewrite ?E; reflexivity.
Qed.

Lemma id_row_after_update w examId teacherId exam data now :
  owns w examId teacherId exam ->
  exists e0,
    find (fun e => exam_id e =? examId)
         (map (fun e => if exam_id e =? examId
                        then applyExamPatch data now e else e) (exams w))
    = Some (applyExamPatch data now e0).
Proof.
  intros Ho. rewrite find_map_preserve.
  - destruct (find (fun e => exam_id e =? examId) (exams w))
      as [e0|] eqn:E.
    + exists e0. simpl. apply find_some in E. destruct E as [_ E].
      now rewrite E.
    + exfalso. apply find_some in Ho. destruct Ho as [Hin Hp].
      apply andb_prop in Hp. destruct Hp as [Hid _].
      pose proof (find_none _ _ E _ Hin) as Hc. simpl in Hc. congruence.
  - intros a. destruct (exam_id a =? examId) eqn:E; simpl;
      rewrite ?E; reflexivity.
Qed.

Lemma upsertStatistics_run examId data now w :
  exists row stats',
    upsertStatistics examId data now w
    = (Returned (Some row), with_examStatistics stats' w)
    /\ find (fun s => stat_examId s =? examId) stats' = Some row
    /\ row = match statisticsRow w examId with
             | Some old => applyStatisticsPatch data now old
             | None => newStatistics examId data now
             end.
Proof.
  unfold upsertStatistics, getStatistics, statisticsRow. run.
  destruct (find (fun s => stat_examId s =? examId) (examStatistics w))
    as [old|] eqn:E; simpl.
  - assert (Hf : find (fun s => stat_examId s =? examId)
              (map (fun s => if stat_examId s =? examId
                             then applyStatisticsPatch data now s else s)
                   (examStatistics w))
            = Some (applyStatisticsPatch data now old)).
    { rewrite find_map_preserve.
      - rewrite E. simpl. apply find_some in E. destruct E as [_ E].
        now rewrite E.
      - intros a. destruct (stat_examId a =? examId) eqn:Ea; simpl;
          rewrite ?Ea; reflexivity. }
    rewrite Hf. eexists. eexists. split; [reflexivity|]. split; auto.
  - eexists. eexists. split; [reflexivity|]. split; [|reflexivity].
    apply find_app_new; [exact E|]. simpl. apply String.eqb_refl.
Qed.

Definition allZero (row : ExamStatistic) : Prop :=
  avgScore row = Some 0%float /\ maxScore row = Some 0%float
  /\ minScore row = Some 0%float /\ totalParticipants row = Some 0%Z
  /\ submittedCount row = Some 0%Z /\ scoredCount row = Some 0%Z
  /\ suspiciousCount row = Some 0%Z.

Lemma zeroStatistics_allZero examId now w row :
  row = match statisticsRow w examId with
        | Some old => applyStatisticsPatch zeroStatistics now old
        | None => newStatistics examId zeroStatistics now
        end ->
  allZero row.
Proof.
  intros ->. destruct (statisticsRow w examId); repeat split.
Qed.

(** What [updateExamStatus] does once the ownership lookup has found
    the exam and the transition table admits a target that the column can
    hold. *)
Lemma updateExamStatus_admitted w examId teacherId exam target now :
  owns w examId teacherId exam ->
  allowed (exam_status exam) target ->
  target <> PUBLISHED ->
  (exam_status exam = DRAFT -> linkedQuestions w examId <> []) ->
  exists updated w',
    updateExamStatus examId teacherId target now w
    = (Returned (Some updated), w')
    /\ exam_status updated = target
    /\ (exists owned, owns w' examId teacherId owned
                      /\ exam_status owned = target)
    /\ (exam_status exam = DRAFT ->
        exists row, statisticsRow w' examId = Some row /\ allZero row).
Proof.
  intros Ho Hal Hstored Hq.
  unfold updateExamStatus, findExamByIdAndTeacher. run.
  unfold owns in Ho. rewrite Ho.
  apply includes_allowed in Hal. rewrite Hal. simpl.
  destruct (exam_status exam) eqn:Es; destruct target;
    try discriminate Hal; try (now destruct Hstored); simpl.
  - (* DRAFT -> ONGOING *)
    unfold getExamQuestions. run.
    specialize (Hq eq_refl). unfold linkedQuestions in Hq.
    destruct (filter (fun q => eq_examId q =? examId) (examQuestions w))
      as [|q0 qs] eqn:Eq; [congruence|]. simpl.
    destruct (upsertStatistics_run examId zeroStatistics now w)
      as (row & stats' & Hrun & Hfind & Hrow).
    rewrite Hrun. unfold broadcastExamStart, updateExam. run.
    destruct (id_row_after_update w examId teacherId exam
                {| set_status := Some ONGOING;
                   set_startTime :=
                     if negb (isSome (exam_startTime exam))
                     then Some now else None;
                   set_endTime := None |} now Ho) as [e0 He0].
    rewrite He0. eexists. eexists. split; [reflexivity|].
    split; [reflexivity|]. split.
    + eexists. split.
      * unfold owns. simpl. apply owner_row_after_update. exact Ho.
      * reflexivity.
    + intros _. exists row. split; [exact Hfind|].
      eapply zeroStatistics_allZero; eauto.
  - (* ONGOING -> FINISHED *)
    unfold broadcastExamEnd, updateExam. run.
    destruct (id_row_after_update w examId teacherId exam
                {| set_status := Some FINISHED; set_startTime := None;
                   set_endTime := Some now |} now Ho) as [e0 He0].
    rewrite He0. eexists. eexists. split; [reflexivity|].
    split; [reflexivity|]. split; [|discriminate].
    eexists. split.
    + unfold owns. simpl. apply owner_row_after_update. exact Ho.
    + reflexivity.
  - (* FINISHED -> ONGOING *)
    unfold updateExam. run.
    destruct (id_row_after_update w examId teacherId exam
                {| set_status := Some ONGOING;
                   set_startTime :=
                     if negb (isSome (exam_startTime exam))
                     then Some now else None;
                   set_endTime := None |} now Ho) as [e0 He0].
    rewrite He0. eexists. eexists. split; [reflexivity|].
    split; [reflexivity|]. split; [|discriminate].
    eexists. split.
    + unfold owns. simpl. apply owner_row_after_update. exact Ho.
    + reflexivity.
Qed.



Lemma updateExamStatus_no_questions w examId teacherId exam now :
  owns w examId teacherId exam ->
  exam_status exam = DRAFT ->
  linkedQuestions w examId = [] ->
  updateExamStatus examId teacherId ONGOING now w
  = (Thrown (BadRequestError "Cannot start exam without questions"), w).
Proof.
  intros Ho Es Hq. unfold updateExamStatus, findExamByIdAndTeacher. run.
  unfold owns in Ho. rewrite Ho, Es. simpl.
  unfold getExamQuestions. run. unfold linkedQuestions in Hq.
  rewrite Hq. reflexivity.
Qed.

End LifecycleFacts.

(** ** A small school, used to run the services on concrete data *)

Module Sample.

Definition exam (id : Id) (status : ExamStatus) (proctored : bool) : Exam :=
  {| exam_id := id; exam_teacherId := "guru-1"; exam_title := "Ulangan";
     exam_startTime := None; exam_endTime := None; exam_status := status;
     exam_settings := Some {| enableProctoring := Some proctored |};
     exam_updatedAt := 0%Z |}.

Definition question (id : Id) (type : QuestionType) (key : option string)
  : Question :=
  {| question_id := id; question_teacherId := "guru-1";
     question_type := type; question_question := "Soal";
     question_answerKey := key; question_rubric := None |}.

Definition link (examId questionId : Id) : ExamQuestion :=
  {| eq_examId := examId; eq_questionId := questionId;
     eq_order := Some 0%Z; eq_points := Some 1%float |}.

Definition participant (id examId studentId : Id)
  (submitTime : option Timestamp) (score : option float) : ExamParticipant :=
  {| participant_id := id; participant_examId := examId;
     participant_studentId := studentId;
     participant_proctoringSessionId := None;
     participant_startTime := Some 10%Z;
     participant_submitTime := submitTime;
     participant_score := score;
     participant_status := Some "IN_PROGRESS";
     participant_createdAt := 10%Z |}.

Definition answer (id participantId questionId : Id)
  (text url : option string) (final : option float) (status : AnswerStatus)
  : Answer :=
  {| answer_id := id; answer_participantId := participantId;
     answer_questionId := questionId; answer_answerText := text;
     answer_answerFileUrl := url; answer_aiScore := None;
     answer_finalScore := final; answer_feedback := None;
     answer_status := status; answer_updatedAt := 20%Z |}.

Definition statistic (examId : Id) (suspicious : Z) : ExamStatistic :=
  {| stat_examId := examId; avgScore := Some 0%float; maxScore := Some 0%float;
     minScore := Some 0%float; totalParticipants := Some 2%Z;
     submittedCount := Some 1%Z; scoredCount := Some 0%Z;
     suspiciousCount := Some suspicious; stat_updatedAt := 5%Z |}.

(** [exam-empty] is a draft without questions, [exam-draft] a draft with
    one, [exam-live] is running with two students, [exam-over] is
    finished and waits for scoring. *)
Definition school : World :=
  {| exams := [exam "exam-empty" DRAFT false; exam "exam-draft" DRAFT false;
               exam "exam-live" ONGOING true;
               exam "exam-over" FINISHED false];
     questions := [question "q-pg" PG (Some "B");
                   question "q-essay" ESSAY (Some "Fotosintesis");
                   question "q-nokey" ESSAY None;
                   question "q-other" PG (Some "A")];
     examQuestions := [link "exam-draft" "q-pg"; link "exam-live" "q-pg";
                       link "exam-over" "q-pg"; link "exam-over" "q-essay";
                       link "exam-over" "q-nokey"];
     examParticipants :=
       [participant "p-ani" "exam-live" "ani" None None;
        participant "p-budi" "exam-over" "budi" (Some 30%Z) None;
        participant "p-citra" "exam-over" "citra" (Some 31%Z) (Some 70%float);
        participant "p-dedi" "exam-over" "dedi" None None];
     answers :=
       [answer "a-1" "p-budi" "q-pg" (Some " b ") None None PENDING;
        answer "a-2" "p-budi" "q-essay" (Some "Proses") None None PENDING;
        answer "a-3" "p-budi" "q-nokey" (Some "Jawab") None None PENDING;
        answer "a-4" "p-citra" "q-pg" (Some "C") None (Some 70%float) SCORED];
     examStatistics := [statistic "exam-live" 0; statistic "exam-over" 3];
     scoringQueue := [];
     broadcasts := [] |}.

End Sample.

(** ** Status transitions *)

Module Lifecycle.
Import examsRepository examsService Views LifecycleFacts.







(** C2: for a DRAFT exam the caller owns, DRAFT -> ONGOING is a
    BadRequest that changes nothing when the exam has no linked question;
    with at least one it succeeds: the call returns the exam as ONGOING,
    the exam that is stored is ONGOING, and the statistics row of the exam
    has avgScore, maxScore, minScore, totalParticipants, submittedCount,
    scoredCount and suspiciousCount all 0.  [publishExam] does the
    same. *)
Theorem start_requires_questions_and_zeroes_statistics
  (w : World) (examId teacherId : Id) (exam : Exam) (now : Timestamp) :
  owns w examId teacherId exam ->
  exam_status exam = DRAFT ->
  let refused (r : Outcome (option Exam) * World) :=
    isBadRequest (fst r) /\ snd r = w in
  let started (r : Outcome (option Exam) * World) :=
    exists updated stored row,
      fst r = Returned (Some updated)
      /\ exam_status updated = ONGOING
      /\ owns (snd r) examId teacherId stored
      /\ exam_status stored = ONGOING
      /\ statisticsRow (snd r) examId = Some row
      /\ allZero row in
  (linkedQuestions w examId = [] ->
   refused (updateExamStatus examId teacherId ONGOING now w)
   /\ refused (publishExam examId teacherId now w))
  /\ (linkedQuestions w examId <> [] ->
      started (updateExamStatus examId teacherId ONGOING now w)
      /\ started (publishExam examId teacherId now w)).
Proof.
  intros Ho Es refused started. subst refused started. split.
  - intros Hq. split.
    + rewrite (updateExamStatus_no_questions w examId teacherId exam now);
        auto. split; [eexists; reflexivity | reflexivity].
    + unfold publishExam, findExamByIdAndTeacher. run.
      unfold owns in Ho. rewrite Ho, Es. simpl.
      unfold getExamQuestions. run.
      unfold linkedQuestions in Hq. rewrite Hq. simpl.
      split; [eexists; reflexivity | reflexivity].
  - intros Hq. split.
    + assert (Hal : allowed (exam_status exam) ONGOING)
        by (unfold allowed; rewrite Es; simpl; auto).
      destruct (updateExamStatus_admitted w examId teacherId exam ONGOING
                  now Ho Hal ltac:(discriminate) (fun _ => Hq))
        as (updated & w' & Hrun & Hs & (stored & Hown & Hst) & Hz).
      destruct (Hz Es) as (row & Hrow & Hzero).
      rewrite Hrun. simpl. exists updated, stored, row. auto 10.
    + unfold publishExam, findExamByIdAndTeacher. run.
      pose proof Ho as Ho'. unfold owns in Ho'. rewrite Ho', Es. simpl.
      unfold getExamQuestions. run. unfold linkedQuestions in Hq.
      destruct (filter (fun q => eq_examId q =? examId) (examQuestions w))
        as [|q0 qs]; [congruence|]. simpl.
      unfold updateExam. run.
      destruct (id_row_after_update w examId teacherId exam
                  {| set_status := Some ONGOING;
                     set_startTime :=
                       Some match exam_startTime exam with
                            | Some t => t | None => now end;
                     set_endTime := None |} now Ho) as [e0 He0].
      rewrite He0.
      match goal with
      | |- context [upsertStatistics examId zeroStatistics now ?w1] =>
          destruct (upsertStatistics_run examId zeroStatistics now w1)
            as (row & stats' & Hrun & Hfind & Hrow)
      end.
      rewrite Hrun. unfold broadcastExamStart. run.
      eexists. eexists. exists row. split; [reflexivity|].
      split; [reflexivity|]. split.
      { unfold owns. simpl. apply owner_row_after_update. exact Ho. }
      split; [reflexivity|].
      split; [exact Hfind|]. eapply zeroStatistics_allZero; eauto.
Qed.

Lemma start_requires_questions_and_zeroes_statistics_witness :
  let refused (r : Outcome (option Exam) * World) :=
    isBadRequest (fst r) /\ snd r = Sample.school in
  let started (r : Outcome (option Exam) * World) :=
    exists updated stored row,
      fst r = Returned (Some updated)
      /\ exam_status updated = ONGOING
      /\ owns (snd r) "exam-draft" "guru-1" stored
      /\ exam_status stored = ONGOING
      /\ statisticsRow (snd r) "exam-draft" = Some row
      /\ allZero row in
  (linkedQuestions Sample.school "exam-draft" = [] ->
   refused (updateExamStatus "exam-draft" "guru-1" ONGOING 100%Z
                             Sample.school)
   /\ refused (publishExam "exam-draft" "guru-1" 100%Z Sample.school))
  /\ (linkedQuestions Sample.school "exam-draft" <> [] ->
      started (updateExamStatus "exam-draft" "guru-1" ONGOING 100%Z
                                Sample.school)
      /\ started (publishExam "exam-draft" "guru-1" 100%Z Sample.school)).
Proof.
  apply (start_requires_questions_and_zeroes_statistics Sample.school
           "exam-draft" "guru-1" (Sample.exam "exam-draft" DRAFT false)
           100%Z); reflexivity.
Defined.




End Lifecycle.

(** ** Participation *)

Module Participation.
Import examsRepository examsService Views LifecycleFacts.

Definition joined (w : World) (examId studentId : Id)
  : option ExamParticipant :=
  find (fun p => (participant_examId p =? examId)
                 && (participant_studentId p =? studentId))
       (examParticipants w).

Definition participantCounter (w : World) (examId : Id) : option Z :=
  match statisticsRow w examId with
  | Some s => totalParticipants s
  | None => None
  end.

(** The first [joinExam] of a student on a running exam. *)
Lemma joinExam_first startSession w examId studentId name newId now exam :
  find (fun e => exam_id e =? examId) (exams w) = Some exam ->
  exam_status exam = ONGOING ->
  joined w examId studentId = None ->
  exists first w',
    joinExam startSession examId studentId name newId now w
    = (Returned first, w')
    /\ alreadyJoined first = false
    /\ participant_id (join_participant first) = newId
    /\ joined w' examId studentId = Some (join_participant first)
    /\ exams w' = exams w
    /\ participantCounter w' examId
       = Some (orZeroZ (participantCounter w examId) + 1)%Z.
Proof.
  intros He Es Hj. unfold joinExam, findExamById, findParticipant. run.
  rewrite He, Es. simpl. unfold joined in Hj. rewrite Hj.
  unfold createParticipant. run.
  match goal with
  | |- context [upsertStatistics examId ?d now ?w1] =>
      destruct (upsertStatistics_run examId d now w1)
        as (row & stats' & Hrun & Hfind & Hrow)
  end.
  rewrite Hrun. eexists. eexists. split; [reflexivity|].
  split; [reflexivity|]. split; [reflexivity|].
  split; [|split; [reflexivity|]].
  - unfold joined. simpl. apply find_app_new; [exact Hj|].
    simpl. now rewrite !String.eqb_refl.
  - unfold participantCounter, statisticsRow in *. simpl in *.
    rewrite Hfind. rewrite Hrow.
    destruct (find (fun s => stat_examId s =? examId) (examStatistics w));
      reflexivity.
Qed.

(** [joinExam] of a student who has a participant row. *)
Lemma joinExam_again startSession w examId studentId name newId now exam
  existing :
  find (fun e => exam_id e =? examId) (exams w) = Some exam ->
  exam_status exam = ONGOING ->
  joined w examId studentId = Some existing ->
  joinExam startSession examId studentId name newId now w
  = (Returned {| join_participant := existing;
                 alreadyJoined := true;
                 join_proctoringSessionId := None |}, w).
Proof.
  intros He Es Hj. unfold joinExam, findExamById, findParticipant. run.
  rewrite He, Es. simpl. unfold joined in Hj. now rewrite Hj.
Qed.

(** C7: on an ONGOING exam, two [joinExam] calls of one student (with
    whatever proctoring service, fresh row id and clock either call
    sees) both return, the second returns the participant row of the
    first with [alreadyJoined = true] and leaves the world as the first
    call left it; a first call that had to create the row reports
    [alreadyJoined = false] and raises [totalParticipants] by one, so
    after both calls the counter has grown by exactly one. *)
Theorem joinExam_twice_same_participant
  (w : World) (examId studentId : Id) (exam : Exam)
  (startSession1 startSession2 : StartSession) (name1 name2 : string)
  (newId1 newId2 : Id) (now1 now2 : Timestamp) :
  find (fun e => exam_id e =? examId) (exams w) = Some exam ->
  exam_status exam = ONGOING ->
  exists first second w1,
    joinExam startSession1 examId studentId name1 newId1 now1 w
    = (Returned first, w1)
    /\ joinExam startSession2 examId studentId name2 newId2 now2 w1
       = (Returned second, w1)
    /\ join_participant second = join_participant first
    /\ participant_id (join_participant second)
       = participant_id (join_participant first)
    /\ alreadyJoined second = true
    /\ (joined w examId studentId = None ->
        alreadyJoined first = false
        /\ participantCounter w1 examId
           = Some (orZeroZ (participantCounter w examId) + 1)%Z)
    /\ (joined w examId studentId <> None ->
        alreadyJoined first = true /\ w1 = w).
Proof.
  intros He Es.
  destruct (joined w examId studentId) as [existing|] eqn:Hj.
  - pose proof (joinExam_again startSession1 w examId studentId name1
                  newId1 now1 exam existing He Es Hj) as H1.
    pose proof (joinExam_again startSession2 w examId studentId name2
                  newId2 now2 exam existing He Es Hj) as H2.
    eexists. eexists. exists w. split; [exact H1|]. split; [exact H2|].
    simpl. split; [reflexivity|]. split; [reflexivity|].
    split; [reflexivity|]. split; [discriminate|]. auto.
  - destruct (joinExam_first startSession1 w examId studentId name1 newId1
                now1 exam He Es Hj)
      as (first & w1 & H1 & Hfirst & Hid & Hj1 & Hex & Hc).
    assert (He1 : find (fun e => exam_id e =? examId) (exams w1)
                  = Some exam) by (rewrite Hex; exact He).
    pose proof (joinExam_again startSession2 w1 examId studentId name2
                  newId2 now2 exam (join_participant first) He1 Es Hj1)
      as H2.
    eexists. eexists. exists w1. split; [exact H1|]. split; [exact H2|].
    simpl. split; [reflexivity|]. split; [reflexivity|].
    split; [reflexivity|]. split; [auto|]. intros Hc'. congruence.
Qed.

Lemma joinExam_twice_same_participant_witness :
  exists first second w1,
    joinExam (fun _ => Returned "session-7") "exam-live" "eka" "Eka"
             "p-eka" 40%Z Sample.school
    = (Returned first, w1)
    /\ joinExam (fun _ => Thrown (ExternalError "down")) "exam-live" "eka"
                "Eka" "p-other" 41%Z w1
       = (Returned second, w1)
    /\ join_participant second = join_participant first
    /\ participant_id (join_participant second)
       = participant_id (join_participant first)
    /\ alreadyJoined second = true
    /\ (joined Sample.school "exam-live" "eka" = None ->
        alreadyJoined first = false
        /\ participantCounter w1 "exam-live"
           = Some (orZeroZ (participantCounter Sample.school "exam-live")
                   + 1)%Z)
    /\ (joined Sample.school "exam-live" "eka" <> None ->
        alreadyJoined first = true /\ w1 = Sample.school).
Proof.
  apply (joinExam_twice_same_participant Sample.school "exam-live" "eka"
           (Sample.exam "exam-live" ONGOING true));
    reflexivity.
Defined.

(** *** Submitting answers *)

Definition answerRows (w : World) (participantId questionId : Id)
  : list Answer :=
  filter (fun a => (answer_participantId a =? participantId)
                   && (answer_questionId a =? questionId))
         (answers w).

(** The guards that [submitAnswer] and [batchSubmitAnswers] share. *)
Lemma submit_guards w examId studentId input inputs newId now :
  (joined w examId studentId = None ->
   submitAnswer examId studentId input newId now w
   = (Thrown (ForbiddenError "You have not joined this exam"), w)
   /\ batchSubmitAnswers examId studentId inputs now w
      = (Thrown (ForbiddenError "You have not joined this exam"), w))
  /\ (forall p t,
        joined w examId studentId = Some p ->
        participant_submitTime p = Some t ->
        submitAnswer examId studentId input newId now w
        = (Thrown (BadRequestError "You have already submitted the exam"),
           w)
        /\ batchSubmitAnswers examId studentId inputs now w
           = (Thrown (BadRequestError
                        "You have already submitted the exam"), w)).
Proof.
  unfold joined, submitAnswer, batchSubmitAnswers, findParticipant. run.
  split.
  - intros ->. auto.
  - intros p t -> Ht. rewrite Ht. simpl. auto.
Qed.

(** [submitAnswer] checks the question against the links of the exam. *)
Lemma submitAnswer_unlinked w examId studentId input newId now p :
  joined w examId studentId = Some p ->
  participant_submitTime p = None ->
  existsb (fun q => eq_questionId q =? input_questionId input)
          (linkedQuestions w examId) = false ->
  submitAnswer examId studentId input newId now w
  = (Thrown (NotFoundError "Question not found in this exam"), w).
Proof.
  unfold joined, submitAnswer, findParticipant, getExamQuestions,
    linkedQuestions. run.
  intros -> Ht Hq. rewrite Ht. simpl. now rewrite Hq.
Qed.

(** A second [upsertAnswer] under the same key rewrites the row in
    place: the table keeps its length. *)
Lemma upsertAnswer_overwrites w participantId questionId data newId now
  existing :
  find (fun a => (answer_participantId a =? participantId)
                 && (answer_questionId a =? questionId)) (answers w)
  = Some existing ->
  exists w',
    snd (upsertAnswer participantId questionId data newId now w) = w'
    /\ List.length (answers w') = List.length (answers w).
Proof.
  intros He. unfold upsertAnswer. run. rewrite He. simpl.
  eexists. split; [reflexivity|]. simpl. apply length_map.
Qed.

Definition unlinkedInput : SubmitAnswerInput :=
  {| input_questionId := "q-other";
     input_answerText := Some "A";
     input_answerFileUrl := None |}.

(** C5, the code at the failing input: [ani] has joined [exam-live] and
    has not submitted; [q-other] is not linked to that exam.
    [submitAnswer] refuses the answer with NotFound, while
    [batchSubmitAnswers] returns normally and inserts an answer row for
    the unlinked question. *)
Theorem batchSubmitAnswers_skips_question_check :
  joined Sample.school "exam-live" "ani"
  = Some (Sample.participant "p-ani" "exam-live" "ani" None None)
  /\ existsb (fun q => eq_questionId q =? "q-other")
             (linkedQuestions Sample.school "exam-live") = false
  /\ submitAnswer "exam-live" "ani" unlinkedInput "a-new" 50%Z
                  Sample.school
     = (Thrown (NotFoundError "Question not found in this exam"),
        Sample.school)
  /\ exists row w',
       batchSubmitAnswers "exam-live" "ani" [(unlinkedInput, "a-new")]
                          50%Z Sample.school
       = (Returned [Some row], w')
       /\ answer_questionId row = "q-other"
       /\ answer_participantId row = "p-ani"
       /\ answerRows Sample.school "p-ani" "q-other" = []
       /\ answerRows w' "p-ani" "q-other" = [row].
Proof.
  split; [reflexivity|]. split; [reflexivity|]. split; [reflexivity|].
  eexists. eexists. split; [vm_compute; reflexivity|].
  repeat split; reflexivity.
Qed.

End Participation.

(** ** Ownership *)

Module Ownership.
Import examsRepository examsService scoringService Views LifecycleFacts.

(** No exam row with this id belongs to the teacher. *)
Definition notOwner (w : World) (examId teacherId : Id) : Prop :=
  forall e, In e (exams w) -> exam_id e = examId ->
            exam_teacherId e <> teacherId.

Lemma notOwner_lookup w examId teacherId :
  notOwner w examId teacherId ->
  find (fun e => (exam_id e =? examId) && (exam_teacherId e =? teacherId))
       (exams w) = None.
Proof.
  intros Hn.
  destruct (find _ (exams w)) as [e|] eqn:E; [|reflexivity].
  apply find_some in E. destruct E as [Hin Hp].
  apply andb_prop in Hp. destruct Hp as [Hid Ht].
  apply String.eqb_eq in Hid. apply String.eqb_eq in Ht.
  exfalso. exact (Hn e Hin Hid Ht).
Qed.

(** The sentence of the specification: whatever a non-owner calls, the
    outcome is NotFound. *)
Definition hiddenFromNonOwner (w : World) (examId teacherId : Id) : Prop :=
  forall answerId answer exam input now,
    answerById w answerId = Some answer ->
    examOfAnswer w answer = Some exam ->
    exam_id exam = examId ->
    isNotFound (fst (overrideScore answerId teacherId input now w)).

(** C6, counterexample: [guru-2] does not own [exam-over]; answer [a-1]
    was given in that exam.  [overrideScore] by [guru-2] is refused with
    Forbidden, which is not NotFound (an unknown answer id gives
    NotFound, so the two outcomes tell a non-owner that [a-1] exists). *)
Lemma overrideScore_by_non_owner_is_forbidden :
  notOwner Sample.school "exam-over" "guru-2"
  /\ overrideScore "a-1" "guru-2"
       {| input_finalScore := 85; input_feedback := None |} 100%Z
       Sample.school
     = (Thrown (ForbiddenError "You do not have access to this answer"),
        Sample.school)
  /\ overrideScore "a-404" "guru-2"
       {| input_finalScore := 85; input_feedback := None |} 100%Z
       Sample.school
     = (Thrown (NotFoundError "Answer"), Sample.school)
  /\ ~ hiddenFromNonOwner Sample.school "exam-over" "guru-2".
Proof.
  split; [|split; [reflexivity|split; [reflexivity|]]].
  - intros e Hin Hid. simpl in Hin.
    repeat (destruct Hin as [<-|Hin]; [simpl; discriminate|]).
    destruct Hin.
  - intros H.
    destruct (H "a-1"
                (Sample.answer "a-1" "p-budi" "q-pg" (Some " b ") None
                               None PENDING)
                (Sample.exam "exam-over" FINISHED false)
                {| input_finalScore := 85; input_feedback := None |}
                100%Z eq_refl eq_refl eq_refl) as [resource Hr].
    vm_compute in Hr. discriminate Hr.
Qed.

(** C6, as amended: when the teacher is not the owner of the exam, a
    status transition (also through [publishExam]), a scoring trigger
    (with either scoring loop) and a scoring status query fail with
    NotFound "Exam"; a score override on
    an answer of that exam fails with Forbidden, and with NotFound only
    when no answer has the id; none of the four changes the world. *)
Theorem non_owner_is_refused
  (w : World) (examId teacherId : Id) (target : ExamStatus)
  (scoreAnswer : Answer * option Question -> Timestamp -> M unit)
  (participantIds : option (list Id)) (now : Timestamp) :
  notOwner w examId teacherId ->
  updateExamStatus examId teacherId target now w
  = (Thrown (NotFoundError "Exam"), w)
  /\ publishExam examId teacherId now w
     = (Thrown (NotFoundError "Exam"), w)
  /\ triggerScoring scoreAnswer examId teacherId participantIds now w
     = (Thrown (NotFoundError "Exam"), w)
  /\ getScoringStatus examId teacherId w
     = (Thrown (NotFoundError "Exam"), w)
  /\ (forall answerId answer exam input,
        answerById w answerId = Some answer ->
        examOfAnswer w answer = Some exam ->
        exam_id exam = examId ->
        overrideScore answerId teacherId input now w
        = (Thrown (ForbiddenError
                     "You do not have access to this answer"), w))
  /\ (forall answerId input,
        answerById w answerId = None ->
        overrideScore answerId teacherId input now w
        = (Thrown (NotFoundError "Answer"), w)).
Proof.
  intros Hn. pose proof (notOwner_lookup w examId teacherId Hn) as Hl.
  repeat split.
  - unfold updateExamStatus, findExamByIdAndTeacher. run. now rewrite Hl.
  - unfold publishExam, findExamByIdAndTeacher. run. now rewrite Hl.
  - unfold triggerScoring, findExamByIdAndTeacher. run. now rewrite Hl.
  - unfold getScoringStatus, findExamByIdAndTeacher. run. now rewrite Hl.
  - intros answerId answer exam input Ha He Hid.
    unfold overrideScore, answerById in *. run. rewrite Ha, He.
    assert (Hin : In exam (exams w)).
    { unfold examOfAnswer in He.
      destruct (find _ (examParticipants w)); [|discriminate].
      apply find_some in He. tauto. }
    destruct (exam_teacherId exam =? teacherId) eqn:Et; [|reflexivity].
    apply String.eqb_eq in Et. exfalso. exact (Hn exam Hin Hid Et).
  - intros answerId input Ha.
    unfold overrideScore, answerById in *. run. now rewrite Ha.
Qed.

Lemma non_owner_is_refused_witness :
  updateExamStatus "exam-over" "guru-2" PUBLISHED 100%Z Sample.school
  = (Thrown (NotFoundError "Exam"), Sample.school)
  /\ publishExam "exam-over" "guru-2" 100%Z Sample.school
     = (Thrown (NotFoundError "Exam"), Sample.school)
  /\ triggerScoring scoreAnswerPlain "exam-over" "guru-2" None 100%Z
                    Sample.school
     = (Thrown (NotFoundError "Exam"), Sample.school)
  /\ getScoringStatus "exam-over" "guru-2" Sample.school
     = (Thrown (NotFoundError "Exam"), Sample.school)
  /\ (forall answerId answer exam input,
        answerById Sample.school answerId = Some answer ->
        examOfAnswer Sample.school answer = Some exam ->
        exam_id exam = "exam-over" ->
        overrideScore answerId "guru-2" input 100%Z Sample.school
        = (Thrown (ForbiddenError
                     "You do not have access to this answer"),
           Sample.school))
  /\ (forall answerId input,
        answerById Sample.school answerId = None ->
        overrideScore answerId "guru-2" input 100%Z Sample.school
        = (Thrown (NotFoundError "Answer"), Sample.school)).
Proof.
  apply (non_owner_is_refused Sample.school "exam-over" "guru-2" PUBLISHED
           scoreAnswerPlain None 100%Z).
  intros e Hin Hid. simpl in Hin.
  repeat (destruct Hin as [<-|Hin]; [simpl; discriminate|]).
  destruct Hin.
Defined.

End Ownership.

(** ** Aggregates *)

Module Aggregates.
Import examsRepository scoringService Views.

(** The words of the specification, read in the arithmetic of the code:
    the mean of the non-null [finalScore] values of a participant's
    answers is their sum, taken from left to right in IEEE doubles in
    the order in which the query returns the answers, divided by their
    number. *)
Definition total (xs : list float) : float :=
  fold_left PrimFloat.add xs 0%float.

Definition arithmeticMean (xs : list float) : float :=
  (total xs / lengthOf xs)%float.

(** What a final score adds to the sum: itself, except that the [|| 0] of
    the code turns NaN (and -0) into 0. *)
Definition counted (v : float) : float := orZero (Some v).

Definition valuesOf (l : list Answer) : list float :=
  flat_map (fun a => match answer_finalScore a with
                     | Some v => [v] | None => [] end) l.

Definition finalScoreValues (w : World) (participantId : Id) : list float :=
  valuesOf (answersOf w participantId).


Lemma scored_length (l : list Answer) :
  List.length (filter (fun a => isSome (answer_finalScore a)) l)
  = List.length (valuesOf l).
Proof.
  induction l as [|a l IH]; simpl; [reflexivity|].
  destruct (answer_finalScore a); simpl; auto.
Qed.

Lemma scored_sum (l : list Answer) (acc : float) :
  fold_left (fun sum a => (sum + orZero (answer_finalScore a))%float)
            (filter (fun a => isSome (answer_finalScore a)) l) acc
  = fold_left PrimFloat.add (map counted (valuesOf l)) acc.
Proof.
  revert acc. induction l as [|a l IH]; intros acc; simpl; [reflexivity|].
  destruct (answer_finalScore a) as [v|] eqn:E; simpl.
  - rewrite IH, E. reflexivity.
  - apply IH.
Qed.

Lemma average_is_mean (l : list Answer) :
  (sumFinalScores (filter (fun a => isSome (answer_finalScore a)) l)
   / lengthOf (filter (fun a => isSome (answer_finalScore a)) l))%float
  = arithmeticMean (map counted (valuesOf l)).
Proof.
  unfold arithmeticMean, total, sumFinalScores, lengthOf.
  now rewrite scored_sum, scored_length, length_map.
Qed.


Lemma answers_with_question (w : World) (participantId : Id) :
  map fst
    (map (fun a => (a, find (fun q => question_id q =? answer_questionId a)
                            (questions w)))
         (filter (fun a => answer_participantId a =? participantId)
                 (answers w)))
  = answersOf w participantId.
Proof. rewrite map_map. simpl. apply map_id. Qed.

Definition scoredPatch (average : float) : ParticipantPatch :=
  {| set_submitTime := None;
     set_score := Some average;
     set_participantStatus := Some "SCORED" |}.

(** The run of [recalculateParticipantScore], in full. *)
Lemma recalculate_run (w : World) (participantId : Id) :
  (finalScoreValues w participantId = [] /\
   recalculateParticipantScore participantId w = (Returned tt, w))
  \/ (finalScoreValues w participantId <> [] /\
      exists average,
        average
        = arithmeticMean (map counted (finalScoreValues w participantId))
        /\ recalculateParticipantScore participantId w
           = (Returned tt,
              with_examParticipants
                (map (fun p =>
                        if participant_id p =? participantId
                        then applyParticipantPatch (scoredPatch average) p
                        else p)
                     (examParticipants w))
                w)).
Proof.
  unfold recalculateParticipantScore, getParticipantAnswers,
    updateParticipant. run.
  rewrite answers_with_question.
  unfold finalScoreValues.
  destruct (List.length (filter (fun a => isSome (answer_finalScore a))
                                (answersOf w participantId)) =? 0)%nat
    eqn:E.
  - left. split; [|reflexivity].
    apply Nat.eqb_eq in E. rewrite scored_length in E.
    now apply length_zero_iff_nil.
  - right. split.
    + apply Nat.eqb_neq in E. rewrite scored_length in E.
      intros Hnil. rewrite Hnil in E. now apply E.
    + eexists. split; [apply average_is_mean | reflexivity].
Qed.

Lemma find_by_id_after_patch (l : list ExamParticipant)
  (participantId other : Id) (g : ExamParticipant -> ExamParticipant) :
  (forall p, participant_id (g p) = participant_id p) ->
  find (fun p => participant_id p =? other)
       (map (fun p => if participant_id p =? participantId
                      then g p else p) l)
  = option_map (fun p => if participant_id p =? participantId
                         then g p else p)
               (find (fun p => participant_id p =? other) l).
Proof.
  intros Hg. apply find_map_preserve.
  intros a. destruct (participant_id a =? participantId);
    [now rewrite Hg | reflexivity].
Qed.

Lemma queueGet_updated participantId f q :
  queueGet participantId
    (map (fun kj : Id * ScoringJob =>
            if fst kj =? participantId then (fst kj, f (snd kj)) else kj)
         q)
  = option_map f (queueGet participantId q).
Proof.
  induction q as [|[k j] q IH]; simpl; [reflexivity|].
  destruct (k =? participantId) eqn:E; simpl; rewrite E;
    [reflexivity | exact IH].
Qed.

(** The participant's row holds the mean of the final scores that the
    world holds for the participant. *)
Definition scoreIsMean (w : World) (participantId : Id) : Prop :=
  finalScoreValues w participantId <> [] ->
  forall p,
    participantById w participantId = Some p ->
    exists s,
      participant_score p = Some s
      /\ s = arithmeticMean (map counted (finalScoreValues w participantId)).

Lemma recalculate_establishes (w : World) (participantId : Id) :
  exists w',
    recalculateParticipantScore participantId w = (Returned tt, w')
    /\ answers w' = answers w
    /\ scoringQueue w' = scoringQueue w
    /\ scoreIsMean w' participantId.
Proof.
  destruct (recalculate_run w participantId)
    as [[Hnil Hrun] | [Hne (average & Hmean & Hrun)]].
  - exists w. split; [exact Hrun|]. split; [reflexivity|].
    split; [reflexivity|]. intros Hc. contradiction.
  - eexists. split; [exact Hrun|]. split; [reflexivity|].
    split; [reflexivity|]. intros _ p Hp.
    unfold participantById in Hp. cbn [examParticipants with_examParticipants]
      in Hp.
    rewrite find_by_id_after_patch in Hp by reflexivity.
    destruct (find (fun p0 => participant_id p0 =? participantId)
                   (examParticipants w)) as [p0|] eqn:E; [|discriminate].
    cbn [option_map] in Hp. apply find_some in E. destruct E as [_ E].
    rewrite E in Hp. inversion Hp; subst p.
    exists average. split; [reflexivity|]. exact Hmean.
Qed.







(** *** Exam statistics *)

(** C10: [updateExamStatistics] passes avgScore, maxScore, minScore,
    totalParticipants, submittedCount and scoredCount to the upsert and
    no suspiciousCount; the statistics row of the exam keeps the
    suspiciousCount it had, takes the six computed values, and the rows
    of other exams and all other tables stay as they were.  When no
    participant of the exam has a non-null score the call returns with
    the world unchanged. *)
Theorem updateExamStatistics_keeps_suspiciousCount
  (w : World) (examId : Id) (now : Timestamp) :
  let participants := participantsOf w examId in
  let data := statisticsOf participants in
  (nonNullScores participants = [] ->
   updateExamStatistics examId now w = (Returned tt, w))
  /\ (nonNullScores participants <> [] ->
      exists stats',
        updateExamStatistics examId now w
        = (Returned tt, with_examStatistics stats' w)
        /\ set_suspiciousCount data = None
        /\ (forall old,
              statisticsRow w examId = Some old ->
              exists row,
                find (fun s => stat_examId s =? examId) stats' = Some row
                /\ suspiciousCount row = suspiciousCount old
                /\ stat_examId row = stat_examId old
                /\ avgScore row = set_avgScore data
                /\ maxScore row = set_maxScore data
                /\ minScore row = set_minScore data
                /\ totalParticipants row = set_totalParticipants data
                /\ submittedCount row = set_submittedCount data
                /\ scoredCount row = set_scoredCount data)
        /\ (forall other,
              other <> examId ->
              find (fun s => stat_examId s =? other) stats'
              = statisticsRow w other)).
Proof.
  intros participants data. subst participants data.
  unfold updateExamStatistics, listParticipants, participantsOf. run.
  set (participants :=
         filter (fun p => participant_examId p =? examId)
                (examParticipants w)).
  split.
  - intros Hnil. now rewrite Hnil.
  - intros Hne.
    assert (Hlen : (List.length (nonNullScores participants) =? 0)%nat
                   = false)
      by (destruct (nonNullScores participants);
          [contradiction | reflexivity]).
    rewrite Hlen.
    unfold upsertStatistics, getStatistics, statisticsRow. run.
    destruct (find (fun s => stat_examId s =? examId) (examStatistics w))
      as [old|] eqn:E; simpl.
    + eexists. split; [reflexivity|]. split; [reflexivity|]. split.
      * intros old' Hold. inversion Hold; subst old'.
        rewrite find_map_preserve.
        -- rewrite E. simpl. apply find_some in E. destruct E as [_ E].
           rewrite E. eexists. split; [reflexivity|].
           repeat split.
        -- intros a. destruct (stat_examId a =? examId) eqn:Ea; simpl;
             rewrite ?Ea; reflexivity.
      * intros other Hother. rewrite find_map_preserve.
        -- destruct (find (fun s => stat_examId s =? other)
                          (examStatistics w)) as [q|] eqn:Eq;
             [|reflexivity].
           simpl. apply find_some in Eq. destruct Eq as [_ Eq].
           apply String.eqb_eq in Eq.
           destruct (stat_examId q =? examId) eqn:E';
             [|reflexivity].
           apply String.eqb_eq in E'. congruence.
        -- intros a. destruct (stat_examId a =? examId); reflexivity.
    + eexists. split; [reflexivity|]. split; [reflexivity|]. split.
      * intros old Hold. discriminate Hold.
      * intros other Hother. apply find_app_other. simpl.
        apply String.eqb_neq. congruence.
Qed.

End Aggregates.

(** ** Strings *)

Module StringFacts.

Ltac each_char c := destruct c as [[] [] [] [] [] [] [] []]; reflexivity.

Lemma lower_of_upper c : toLowerChar (toUpperChar c) = toLowerChar c.
Proof. each_char c. Qed.

Lemma upper_of_lower c : toUpperChar (toLowerChar c) = toUpperChar c.
Proof. each_char c. Qed.

Lemma space_lower c : isWhiteSpace (toLowerChar c) = isWhiteSpace c.
Proof. each_char c. Qed.

Lemma space_upper c : isWhiteSpace (toUpperChar c) = isWhiteSpace c.
Proof. each_char c. Qed.

Lemma nat_of_ascii_inj c d : nat_of_ascii c = nat_of_ascii d -> c = d.
Proof.
  intros H. rewrite <- (ascii_nat_embedding c), <- (ascii_nat_embedding d).
  now rewrite H.
Qed.

Lemma isUpper_range c :
  isUpper c = true <-> (65 <= nat_of_ascii c <= 90)%nat.
Proof.
  unfold isUpper. rewrite andb_true_iff, !Nat.leb_le. tauto.
Qed.

Lemma lower_code c :
  nat_of_ascii (toLowerChar c)
  = if isUpper c then (nat_of_ascii c + 32)%nat else nat_of_ascii c.
Proof.
  unfold toLowerChar. destruct (isUpper c) eqn:E; [|reflexivity].
  apply isUpper_range in E. apply nat_ascii_embedding. lia.
Qed.

Lemma sameLetter_lower c d :
  sameLetter c d <-> toLowerChar c = toLowerChar d.
Proof.
  split.
  - intros [-> | [(H1 & H2 & Hc) | (H1 & H2 & Hc)]]; [reflexivity| |];
      apply nat_of_ascii_inj; rewrite !lower_code.
    + assert (Hu : isUpper c = true) by (apply isUpper_range; lia).
      rewrite Hu.
      destruct (isUpper d) eqn:Ed; [apply isUpper_range in Ed|]; lia.
    + assert (Hu : isUpper d = true) by (apply isUpper_range; lia).
      rewrite Hu.
      destruct (isUpper c) eqn:Ec; [apply isUpper_range in Ec|]; lia.
  - intros H. apply (f_equal nat_of_ascii) in H.
    rewrite !lower_code in H. unfold sameLetter.
    destruct (isUpper c) eqn:Ec; destruct (isUpper d) eqn:Ed.
    + left. apply nat_of_ascii_inj. lia.
    + right. left. apply isUpper_range in Ec. lia.
    + right. right. apply isUpper_range in Ed. lia.
    + left. now apply nat_of_ascii_inj.
Qed.

Lemma sameUpToCase_lower a b :
  sameUpToCase a b <-> lowerAscii a = lowerAscii b.
Proof.
  unfold lowerAscii. revert b.
  induction a as [|c a IH]; intros [|d b]; cbn [mapString sameUpToCase];
    try (split; [tauto | discriminate]).
  - tauto.
  - split.
    + intros [Hc Ha]. apply sameLetter_lower in Hc. apply IH in Ha.
      now rewrite Hc, Ha.
    + intros H. inversion H as [[Hc Ha]]. split.
      * now apply sameLetter_lower.
      * now apply IH.
Qed.

Lemma toLowerCase_toUpperCase s : lowerAscii (upperAscii s) = lowerAscii s.
Proof.
  unfold lowerAscii, upperAscii.
  induction s as [|c s IH]; cbn [mapString]; [reflexivity|].
  now rewrite lower_of_upper, IH.
Qed.

Lemma toUpperCase_toLowerCase s : upperAscii (lowerAscii s) = upperAscii s.
Proof.
  unfold lowerAscii, upperAscii.
  induction s as [|c s IH]; cbn [mapString]; [reflexivity|].
  now rewrite upper_of_lower, IH.
Qed.

(** Comparing in upper case or in lower case is the same test. *)
Lemma upper_equal_iff_lower_equal a b :
  upperAscii a = upperAscii b <-> lowerAscii a = lowerAscii b.
Proof.
  split; intros H.
  - rewrite <- (toLowerCase_toUpperCase a), <- (toLowerCase_toUpperCase b).
    now rewrite H.
  - rewrite <- (toUpperCase_toLowerCase a), <- (toUpperCase_toLowerCase b).
    now rewrite H.
Qed.

Section Mapped.
Variable f : ascii -> ascii.
Hypothesis f_space : forall c, isWhiteSpace (f c) = isWhiteSpace c.

Lemma trimStart_map s : trimStart (mapString f s) = mapString f (trimStart s).
Proof.
  induction s as [|c s IH]; simpl; [reflexivity|].
  rewrite f_space. destruct (isWhiteSpace c); [exact IH | reflexivity].
Qed.

Lemma trimEnd_map s : trimEnd (mapString f s) = mapString f (trimEnd s).
Proof.
  induction s as [|c s IH]; simpl; [reflexivity|].
  rewrite IH, f_space.
  destruct (trimEnd s); simpl; [|reflexivity].
  destruct (isWhiteSpace c); reflexivity.
Qed.

Lemma trim_map s : trimAscii (mapString f s) = mapString f (trimAscii s).
Proof. unfold trimAscii. now rewrite trimStart_map, trimEnd_map. Qed.
End Mapped.

Lemma blank_spec c : isWhiteSpace c = true <-> blank c.
Proof.
  unfold isWhiteSpace, blank. cbv zeta.
  rewrite orb_true_iff, andb_true_iff, !Nat.leb_le, Nat.eqb_eq. tauto.
Qed.

Lemma not_blank_spec c : isWhiteSpace c = false <-> ~ blank c.
Proof.
  rewrite <- blank_spec. destruct (isWhiteSpace c); split; intros H;
    try reflexivity; try discriminate; try (intros K; discriminate K).
  exfalso. now apply H.
Qed.

(** *** [trimAscii] removes the surrounding white space, and nothing else *)

Lemma trimStart_allWhiteSpace r : allBlank r -> trimStart r = "".
Proof.
  induction r as [|c r IH]; simpl; [reflexivity|].
  intros [Hc Hr]. apply blank_spec in Hc. rewrite Hc. auto.
Qed.

Lemma trimEnd_allWhiteSpace r : allBlank r -> trimEnd r = "".
Proof.
  induction r as [|c r IH]; simpl; [reflexivity|].
  intros [Hc Hr]. apply blank_spec in Hc.
  rewrite (IH Hr), Hc. reflexivity.
Qed.

Lemma trimStart_pad l s :
  allBlank l -> trimStart (l ++ s) = trimStart s.
Proof.
  induction l as [|c l IH]; simpl; [reflexivity|].
  intros [Hc Hl]. apply blank_spec in Hc. rewrite Hc. auto.
Qed.

Lemma trimEnd_pad s r :
  allBlank r -> trimEnd (s ++ r) = trimEnd s.
Proof.
  intros Hr. induction s as [|c s IH]; simpl.
  - now apply trimEnd_allWhiteSpace.
  - now rewrite IH.
Qed.

Lemma trim_pad_right t r :
  allBlank r -> trimAscii (t ++ r) = trimAscii t.
Proof.
  intros Hr. unfold trimAscii. induction t as [|c t IH]; simpl.
  - now rewrite (trimStart_allWhiteSpace r Hr).
  - destruct (isWhiteSpace c); [exact IH|].
    change (String c (t ++ r)) with (String c t ++ r)%string.
    now apply trimEnd_pad.
Qed.

Lemma trim_pad l t r :
  allBlank l -> allBlank r ->
  trimAscii (l ++ t ++ r) = trimAscii t.
Proof.
  intros Hl Hr. unfold trimAscii at 1. rewrite trimStart_pad by exact Hl.
  now apply trim_pad_right.
Qed.

Lemma trimStart_clean t :
  (forall c rest, t = String c rest -> ~ blank c) ->
  trimStart t = t.
Proof.
  destruct t as [|c t]; simpl; [reflexivity|].
  intros H. now rewrite (proj2 (not_blank_spec c) (H c t eq_refl)).
Qed.

Lemma trimEnd_clean t :
  (forall init c, t = (init ++ String c "")%string -> ~ blank c) ->
  trimEnd t = t.
Proof.
  induction t as [|a t IH]; simpl; [reflexivity|]. intros H.
  destruct t as [|b t'].
  - simpl. now rewrite (proj2 (not_blank_spec a) (H "" a eq_refl)).
  - rewrite IH; [reflexivity|].
    intros init c E. apply (H (String a init) c). simpl. now rewrite E.
Qed.

Lemma trimStart_decomp s :
  exists l, s = (l ++ trimStart s)%string /\ allBlank l.
Proof.
  induction s as [|c s [l [Hs Hl]]]; simpl.
  - exists "". simpl. auto.
  - destruct (isWhiteSpace c) eqn:Ec.
    + exists (String c l). simpl. split; [now rewrite <- Hs|].
      split; [now apply blank_spec | exact Hl].
    + exists "". simpl. auto.
Qed.

Lemma trimEnd_decomp s :
  exists r, s = (trimEnd s ++ r)%string /\ allBlank r.
Proof.
  induction s as [|c s [r [Hs Hr]]]; simpl.
  - exists "". simpl. auto.
  - destruct (trimEnd s) as [|b t] eqn:Et.
    + simpl in Hs. subst r.
      destruct (isWhiteSpace c) eqn:Ec.
      * exists (String c s). simpl. split; [reflexivity|].
        split; [now apply blank_spec | exact Hr].
      * exists s. simpl. auto.
    + exists r. split; [|exact Hr]. simpl. now rewrite Hs at 1.
Qed.

Lemma trimStart_head s c rest :
  trimStart s = String c rest -> isWhiteSpace c = false.
Proof.
  induction s as [|a s IH]; simpl; [discriminate|].
  destruct (isWhiteSpace a) eqn:Ea; [exact IH|].
  intros H. inversion H. now subst.
Qed.

Lemma trimEnd_head s c rest :
  trimEnd s = String c rest -> exists rest', s = String c rest'.
Proof.
  destruct s as [|a s]; simpl; [discriminate|].
  destruct (trimEnd s).
  - destruct (isWhiteSpace a); [discriminate|].
    intros H. inversion H. eauto.
  - intros H. inversion H. eauto.
Qed.

Lemma trimEnd_last s init c :
  trimEnd s = (init ++ String c "")%string -> isWhiteSpace c = false.
Proof.
  revert init. induction s as [|a s IH]; intros init; simpl.
  - destruct init; discriminate.
  - destruct (trimEnd s) as [|b t] eqn:Et.
    + destruct (isWhiteSpace a) eqn:Ea.
      * destruct init; discriminate.
      * destruct init as [|i init]; simpl; intros H; inversion H.
        -- now subst.
        -- destruct init; discriminate.
    + destruct init as [|i init]; simpl; intros H; inversion H.
      eapply IH. eassumption.
Qed.

Lemma trim_outerClean s : outerClean (trimAscii s).
Proof.
  unfold outerClean, trimAscii. split.
  - intros c rest H. destruct (trimEnd_head _ _ _ H) as [rest' H'].
    apply not_blank_spec. exact (trimStart_head _ _ _ H').
  - intros init c H. apply not_blank_spec. exact (trimEnd_last _ _ _ H).
Qed.

Lemma trim_Stripped s : Stripped s (trimAscii s).
Proof.
  destruct (trimStart_decomp s) as [l [Hs Hl]].
  destruct (trimEnd_decomp (trimStart s)) as [r [Ht Hr]].
  exists l, r. split; [|split; [exact Hl|split; [exact Hr|]]].
  - unfold trimAscii. now rewrite <- Ht.
  - apply trim_outerClean.
Qed.

Lemma Stripped_unique s t : Stripped s t -> t = trimAscii s.
Proof.
  intros (l & r & -> & Hl & Hr & Hfirst & Hlast).
  rewrite trim_pad by assumption. unfold trimAscii.
  rewrite trimStart_clean by exact Hfirst.
  now rewrite trimEnd_clean by exact Hlast.
Qed.

(** The comparison of the code, in lower case, is the relation of the
    specification. *)
Lemma folded_trimmed_equal a k :
  trimAscii (lowerAscii a) = trimAscii (lowerAscii k) <-> equalAfterFoldAndTrim a k.
Proof.
  unfold lowerAscii. rewrite !trim_map by exact space_lower.
  fold lowerAscii. rewrite <- sameUpToCase_lower. split.
  - intros H. exists (trimAscii a), (trimAscii k).
    split; [apply trim_Stripped|]. split; [apply trim_Stripped | exact H].
  - intros (ta & tk & Ha & Hk & H).
    now rewrite <- (Stripped_unique a ta Ha), <- (Stripped_unique k tk Hk).
Qed.

Lemma upper_trimmed_equal a k :
  trimAscii (upperAscii a) = trimAscii (upperAscii k) <-> equalAfterFoldAndTrim a k.
Proof.
  rewrite <- folded_trimmed_equal.
  unfold upperAscii, lowerAscii.
  rewrite !trim_map by first [exact space_upper | exact space_lower].
  apply upper_equal_iff_lower_equal.
Qed.

(** The relation does not see padding or the case of letters. *)
Lemma equalAfterFoldAndTrim_padded l r a k :
  allBlank l -> allBlank r ->
  (equalAfterFoldAndTrim (l ++ a ++ r) k <-> equalAfterFoldAndTrim a k).
Proof.
  intros Hl Hr. rewrite <- !folded_trimmed_equal. unfold lowerAscii.
  rewrite !trim_map by exact space_lower.
  now rewrite (trim_pad l a r Hl Hr).
Qed.

Lemma equalAfterFoldAndTrim_recased a a' k :
  sameUpToCase a a' ->
  (equalAfterFoldAndTrim a k <-> equalAfterFoldAndTrim a' k).
Proof.
  intros H. apply sameUpToCase_lower in H.
  rewrite <- !folded_trimmed_equal. now rewrite H.
Qed.

(** *** ASCII strings stay ASCII *)

Lemma asciiOnly_lower s : asciiOnly s = true -> asciiOnly (lowerAscii s) = true.
Proof.
  unfold lowerAscii. induction s as [|c s IH]; cbn [mapString asciiOnly];
    [reflexivity|].
  intros H. apply andb_prop in H. destruct H as [Hc Hs].
  rewrite (IH Hs), andb_true_r. apply Nat.ltb_lt in Hc. apply Nat.ltb_lt.
  rewrite lower_code. destruct (isUpper c) eqn:E; [|exact Hc].
  apply isUpper_range in E. lia.
Qed.

Lemma upper_code c :
  nat_of_ascii (toUpperChar c)
  = if isLower c then (nat_of_ascii c - 32)%nat else nat_of_ascii c.
Proof.
  unfold toUpperChar. destruct (isLower c) eqn:E; [|reflexivity].
  unfold isLower in E. apply andb_prop in E. destruct E as [E1 E2].
  apply Nat.leb_le in E1. apply Nat.leb_le in E2.
  apply nat_ascii_embedding. lia.
Qed.

Lemma asciiOnly_upper s : asciiOnly s = true -> asciiOnly (upperAscii s) = true.
Proof.
  unfold upperAscii. induction s as [|c s IH]; cbn [mapString asciiOnly];
    [reflexivity|].
  intros H. apply andb_prop in H. destruct H as [Hc Hs].
  rewrite (IH Hs), andb_true_r. apply Nat.ltb_lt in Hc. apply Nat.ltb_lt.
  rewrite upper_code. destruct (isLower c); lia.
Qed.

(** For builtins that treat ASCII strings as the engine does, the
    comparison of either service on ASCII strings is the relation of the
    specification. *)
Lemma lower_comparison_on_ascii (builtins : StringBuiltins) a k :
  agreesOnAscii builtins -> asciiOnly a = true -> asciiOnly k = true ->
  (trim (toLowerCase a) = trim (toLowerCase k)
   <-> equalAfterFoldAndTrim a k).
Proof.
  intros Hb Ha Hk.
  destruct (Hb a Ha) as (La & _ & _). destruct (Hb k Hk) as (Lk & _ & _).
  destruct (Hb _ (asciiOnly_lower a Ha)) as (_ & _ & Ta).
  destruct (Hb _ (asciiOnly_lower k Hk)) as (_ & _ & Tk).
  rewrite La, Lk, Ta, Tk. apply folded_trimmed_equal.
Qed.

Lemma upper_comparison_on_ascii (builtins : StringBuiltins) a k :
  agreesOnAscii builtins -> asciiOnly a = true -> asciiOnly k = true ->
  (trim (toUpperCase a) = trim (toUpperCase k)
   <-> equalAfterFoldAndTrim a k).
Proof.
  intros Hb Ha Hk.
  destruct (Hb a Ha) as (_ & Ua & _). destruct (Hb k Hk) as (_ & Uk & _).
  destruct (Hb _ (asciiOnly_upper a Ha)) as (_ & _ & Ta).
  destruct (Hb _ (asciiOnly_upper k Hk)) as (_ & _ & Tk).
  rewrite Ua, Uk, Ta, Tk. apply upper_trimmed_equal.
Qed.

End StringFacts.

(** ** Scoring of one answer *)

Module Scoring.
Import examsRepository scoringService Views StringFacts.

Lemma truthy_nonempty key : key <> "" -> truthy (Some key) = true.
Proof. destruct key; [congruence | reflexivity]. Qed.

(** The rule that the specification states for a multiple-choice answer,
    over whatever "equal after normalising" is taken to mean. *)
Definition pgRule (equalAfterNormalising : Prop) (score : option float)
  : Prop :=
  (equalAfterNormalising -> score = Some 100%float)
  /\ (~ equalAfterNormalising -> score = Some 0%float).

Section AnyBuiltins.
Context {builtins : StringBuiltins}.

(** *** The loop bodies on one stored answer *)

(** What one iteration of the loop does to one row of the table. *)
Definition stepRow (scorer : AesScorer) (now : Timestamp)
  (aq : Answer * option Question) (a : Answer) : Answer :=
  match answer_status (fst aq), snd aq with
  | PENDING, Some q =>
      if answer_id a =? answer_id (fst aq)
      then applyScore (fst (computeScoreAes scorer (fst aq) q))
                      (snd (computeScoreAes scorer (fst aq) q)) now a
      else a
  | _, _ => a
  end.

Fixpoint scoredRow (scorer : AesScorer) (now : Timestamp)
  (l : list (Answer * option Question)) (a : Answer) : Answer :=
  match l with
  | [] => a
  | aq :: rest => scoredRow scorer now rest (stepRow scorer now aq a)
  end.

(** The row of the question is there whenever the loop dereferences it. *)
Definition answerable (aq : Answer * option Question) : Prop :=
  answer_status (fst aq) = PENDING -> snd aq <> None.

Lemma with_answers_same w : with_answers (answers w) w = w.
Proof. destruct w; reflexivity. Qed.

Lemma scoreAnswerAes_run scorer now aq w :
  answerable aq ->
  scoreAnswerAes scorer aq now w
  = (Returned tt, with_answers (map (stepRow scorer now aq) (answers w)) w).
Proof.
  destruct aq as [answer question]. unfold answerable, scoreAnswerAes,
    stepRow. simpl. intros Hq.
  destruct (answer_status answer) eqn:Es.
  - destruct question as [q|]; [|now destruct (Hq eq_refl)].
    destruct (computeScoreAes scorer answer q) as [aiScore feedbackJson].
    reflexivity.
  - run. now rewrite map_id, with_answers_same.
Qed.

Lemma forEach_scoreAnswerAes scorer now l w :
  Forall answerable l ->
  forEach l (fun aq => scoreAnswerAes scorer aq now) w
  = (Returned tt,
     with_answers (map (scoredRow scorer now l) (answers w)) w).
Proof.
  intros Hl. revert w. induction Hl as [|aq l Haq Hl IH]; intros w.
  - simpl. run. now rewrite map_id, with_answers_same.
  - simpl. unfold bind at 1. rewrite (scoreAnswerAes_run _ _ _ _ Haq).
    rewrite IH. simpl. now rewrite map_map.
Qed.

Lemma stepRow_keeps scorer now aq a :
  answer_id (stepRow scorer now aq a) = answer_id a
  /\ answer_participantId (stepRow scorer now aq a)
     = answer_participantId a
  /\ (answer_status a = SCORED ->
      answer_status (stepRow scorer now aq a) = SCORED).
Proof.
  unfold stepRow. destruct (answer_status (fst aq)); [|auto].
  destruct (snd aq); [|auto].
  destruct (answer_id a =? answer_id (fst aq)); auto.
Qed.

Lemma scoredRow_keeps scorer now l a :
  answer_id (scoredRow scorer now l a) = answer_id a
  /\ answer_participantId (scoredRow scorer now l a)
     = answer_participantId a
  /\ (answer_status a = SCORED ->
      answer_status (scoredRow scorer now l a) = SCORED).
Proof.
  revert a. induction l as [|aq l IH]; intros a; simpl; [auto|].
  destruct (IH (stepRow scorer now aq a)) as (H1 & H2 & H3).
  destruct (stepRow_keeps scorer now aq a) as (K1 & K2 & K3).
  rewrite H1, H2, K1, K2. auto.
Qed.

Lemma scoredRow_scores scorer now l a aq q :
  In aq l -> answer_status (fst aq) = PENDING -> snd aq = Some q ->
  answer_id a = answer_id (fst aq) ->
  answer_status (scoredRow scorer now l a) = SCORED.
Proof.
  revert a. induction l as [|x l IH]; intros a Hin Hp Hq Hid;
    [destruct Hin|]. simpl. destruct Hin as [->|Hin].
  - apply scoredRow_keeps. unfold stepRow.
    rewrite Hp, Hq, Hid, String.eqb_refl. reflexivity.
  - apply (IH _ Hin Hp Hq).
    destruct (stepRow_keeps scorer now x a) as (K1 & _). congruence.
Qed.

(** A participant whose pending answers all have their question row is
    processed to the end, whatever the AI scorer does. *)
Lemma processParticipant_done scorer w participantId now job :
  jobOf w participantId = Some job ->
  (forall a, In a (answersOf w participantId) ->
             answer_status a = PENDING -> questionOf w a <> None) ->
  exists w' job',
    processParticipant (scoreAnswerAes scorer) participantId now w
    = (Returned tt, w')
    /\ jobOf w' participantId = Some job'
    /\ job_status job' = done
    /\ job_error job' = job_error job
    /\ (forall a, In a (answersOf w' participantId) ->
                  answer_status a = SCORED).
Proof.
  intros Hjob Hq. unfold processParticipant, jobOf in *.
  unfold bind at 1. unfold gets at 1. rewrite Hjob.
  unfold tryCatch, updateJob, getParticipantAnswers.
  unfold bind at 1. unfold modify at 1.
  unfold bind at 1. unfold gets at 1. cbn [answers questions].
  set (w0 := with_scoringQueue _ w).
  set (snapshot := map _ (filter _ (answers w0))).
  assert (Hsnap : Forall answerable snapshot).
  { apply Forall_forall. intros aq Hin. subst snapshot.
    apply in_map_iff in Hin. destruct Hin as (a & <- & Ha).
    intros Hp. exact (Hq a Ha Hp). }
  unfold bind at 1. rewrite (forEach_scoreAnswerAes _ _ _ _ Hsnap).
  set (wA := with_answers _ w0).
  destruct (Aggregates.recalculate_establishes wA participantId)
    as (wB & Hrun & Hans & Hqueue & _).
  unfold bind at 1. rewrite Hrun. unfold modify.
  eexists. eexists. split; [reflexivity|].
  cbn [scoringQueue with_scoringQueue]. rewrite Hqueue.
  subst wA w0. cbn [scoringQueue with_answers with_scoringQueue].
  rewrite !Aggregates.queueGet_updated, Hjob. cbn [option_map].
  split; [reflexivity|]. split; [reflexivity|]. split; [reflexivity|].
  intros a Ha. unfold answersOf in Ha.
  cbn [answers with_scoringQueue] in Ha. rewrite Hans in Ha.
  cbn [answers with_answers with_scoringQueue] in Ha.
  apply filter_In in Ha. destruct Ha as [Hin Hpid].
  apply in_map_iff in Hin. destruct Hin as (a0 & <- & Hin0).
  destruct (scoredRow_keeps scorer now snapshot a0) as (K1 & K2 & K3).
  rewrite K2 in Hpid.
  destruct (answer_status a0) eqn:Es; [|now apply K3].
  assert (Hmine : In a0 (answersOf w participantId))
    by (apply filter_In; auto).
  destruct (questionOf w a0) as [q|] eqn:Eq;
    [|now destruct (Hq a0 Hmine Es)].
  apply (scoredRow_scores scorer now snapshot a0 (a0, Some q) q);
    auto.
  subst snapshot. apply in_map_iff. exists a0. split; [|exact Hmine].
  f_equal. exact Eq.
Qed.

Definition manualReview : FeedbackObject :=
  plainFeedback "Penilaian AI gagal, perlu review manual".

(** The row that [scoreAnswerAes] writes for a pending answer. *)
Lemma scoreAnswerAes_row scorer now w answer q :
  find (fun a => answer_id a =? answer_id answer) (answers w)
  = Some answer ->
  answer_status answer = PENDING ->
  exists w',
    scoreAnswerAes scorer (answer, Some q) now w = (Returned tt, w')
    /\ find (fun a => answer_id a =? answer_id answer) (answers w')
       = Some (applyScore (fst (computeScoreAes scorer answer q))
                          (snd (computeScoreAes scorer answer q))
                          now answer).
Proof.
  intros Hf Hp. eexists. split.
  - apply scoreAnswerAes_run. intros _. discriminate.
  - cbn [answers with_answers]. rewrite find_map_preserve.
    + rewrite Hf. unfold stepRow. cbn [fst snd option_map].
      now rewrite Hp, String.eqb_refl.
    + intros a. apply f_equal2; [|reflexivity].
      apply (stepRow_keeps scorer now (answer, Some q) a).
Qed.

(** The row that [scoreAnswerPlain] writes for a pending answer. *)
Lemma scoreAnswerPlain_row now w answer q :
  find (fun a => answer_id a =? answer_id answer) (answers w)
  = Some answer ->
  answer_status answer = PENDING ->
  exists w' row,
    scoreAnswerPlain (answer, Some q) now w = (Returned tt, w')
    /\ find (fun a => answer_id a =? answer_id answer) (answers w')
       = Some row
    /\ answer_aiScore row = computeScorePlain answer q
    /\ answer_finalScore row = computeScorePlain answer q
    /\ answer_status row = SCORED.
Proof.
  intros Hf Hp. unfold scoreAnswerPlain. rewrite Hp.
  unfold updateAnswerScore, modify. eexists. eexists.
  split; [reflexivity|]. cbn [answers with_answers].
  rewrite find_map_preserve.
  - rewrite Hf. cbn [option_map]. apply find_some in Hf.
    destruct Hf as [_ Hf]. rewrite Hf. repeat split.
  - intros a. destruct (answer_id a =? answer_id answer) eqn:E; cbn;
      rewrite ?E; reflexivity.
Qed.

(** *** Multiple choice *)

Lemma hundredIf_100 b : Some (hundredIf b) = Some 100%float <-> b = true.
Proof. destruct b; cbn; split; intros H; (reflexivity || discriminate H). Qed.

(** C3, as amended: a PENDING multiple-choice answer whose question has a
    non-empty key goes through the loop body of either scoring service.
    The call returns, the stored answer is SCORED and its aiScore and
    finalScore are exactly 100 or exactly 0; the world that the service
    with the AI client leaves is the same for every scorer, so no
    external call decides anything.  With an answer text the score is 100
    exactly when text and key are equal after the service's own
    normalisation: [toUpperCase] then [trim] in scoring.service.ts,
    [toLowerCase] then [trim] in the service with the AI client.  Without
    an answer text scoring.service.ts gives 0, and the service with the
    AI client compares the empty string: 100 exactly when the key is
    empty after normalisation.  On builtins that treat ASCII strings as
    the engine does, and for an ASCII text and key, both services give
    100 exactly when text and key are the same after removing the
    surrounding white space and ignoring the case of the letters. *)
Theorem pg_score_is_100_or_0
  (w : World) (answer : Answer) (q : Question) (key : string)
  (now : Timestamp) :
  find (fun a => answer_id a =? answer_id answer) (answers w)
  = Some answer ->
  answer_status answer = PENDING ->
  question_type q = PG ->
  question_answerKey q = Some key ->
  key <> "" ->
  exists afterPlain afterAes rowPlain rowAes,
    scoreAnswerPlain (answer, Some q) now w = (Returned tt, afterPlain)
    /\ (forall scorer,
          scoreAnswerAes scorer (answer, Some q) now w
          = (Returned tt, afterAes))
    /\ answerById afterPlain (answer_id answer) = Some rowPlain
    /\ answerById afterAes (answer_id answer) = Some rowAes
    /\ answer_status rowPlain = SCORED
    /\ answer_status rowAes = SCORED
    /\ answer_aiScore rowPlain = answer_finalScore rowPlain
    /\ answer_aiScore rowAes = answer_finalScore rowAes
    /\ (answer_finalScore rowPlain = Some 100%float
        \/ answer_finalScore rowPlain = Some 0%float)
    /\ (answer_finalScore rowAes = Some 100%float
        \/ answer_finalScore rowAes = Some 0%float)
    /\ (forall text,
          answer_answerText answer = Some text ->
          (answer_finalScore rowPlain = Some 100%float
           <-> trim (toUpperCase text) = trim (toUpperCase key))
          /\ (answer_finalScore rowAes = Some 100%float
              <-> trim (toLowerCase text) = trim (toLowerCase key)))
    /\ (answer_answerText answer = None ->
        answer_finalScore rowPlain = Some 0%float
        /\ (answer_finalScore rowAes = Some 100%float
            <-> trim (toLowerCase key) = ""))
    /\ (agreesOnAscii builtins ->
        forall text,
          answer_answerText answer = Some text ->
          asciiOnly text = true -> asciiOnly key = true ->
          pgRule (equalAfterFoldAndTrim text key)
                 (answer_finalScore rowPlain)
          /\ pgRule (equalAfterFoldAndTrim text key)
                    (answer_finalScore rowAes)).
Proof.
  intros Hf Hp Ht Hk Hne.
  destruct (scoreAnswerPlain_row now w answer q Hf Hp)
    as (afterPlain & rowPlain & HrunP & HrowP & HaiP & HfinP & HstP).
  assert (HscoreP : computeScorePlain answer q
                    = Some (hundredIf (isCorrectPlain
                                         (answer_answerText answer) key))).
  { unfold computeScorePlain, isPG.
    now rewrite Ht, Hk, (truthy_nonempty key Hne). }
  assert (HscoreA : forall scorer,
            computeScoreAes scorer answer q
            = scorePG answer key).
  { intros scorer. unfold computeScoreAes, isPG.
    now rewrite Ht, Hk, (truthy_nonempty key Hne). }
  set (rowAes := applyScore (fst (scorePG answer key))
                            (snd (scorePG answer key)) now answer).
  assert (HrunA : exists afterAes,
            (forall scorer,
               scoreAnswerAes scorer (answer, Some q) now w
               = (Returned tt, afterAes))
            /\ answerById afterAes (answer_id answer) = Some rowAes).
  { eexists. split.
    - intros scorer. unfold scoreAnswerAes. rewrite Hp, (HscoreA scorer).
      unfold scorePG, modify. reflexivity.
    - unfold answerById. cbn [answers with_answers].
      rewrite find_map_preserve.
      + rewrite Hf. cbn [option_map]. apply find_some in Hf.
        destruct Hf as [_ Hf]. now rewrite Hf.
      + intros a. destruct (answer_id a =? answer_id answer) eqn:E; cbn;
          rewrite ?E; reflexivity. }
  destruct HrunA as (afterAes & HrunA & HrowA).
  exists afterPlain, afterAes, rowPlain, rowAes.
  assert (HfinA : answer_finalScore rowAes
                  = Some (hundredIf (isCorrectAes (answer_answerText answer)
                                                  key))) by reflexivity.
  rewrite HfinP, HscoreP in *. rewrite HfinA.
  split; [exact HrunP|]. split; [exact HrunA|]. split; [exact HrowP|].
  split; [exact HrowA|]. split; [exact HstP|]. split; [reflexivity|].
  split; [exact HaiP|]. split; [reflexivity|].
  split; [destruct (isCorrectPlain _ _); cbn; auto|].
  split; [destruct (isCorrectAes _ _); cbn; auto|].
  split; [|split].
  - intros text Ha. rewrite Ha, !hundredIf_100.
    unfold isCorrectPlain, isCorrectAes. now rewrite !String.eqb_eq.
  - intros Ha. rewrite Ha, hundredIf_100. split; [reflexivity|].
    unfold isCorrectAes. rewrite String.eqb_eq.
    split; intros H; now rewrite H.
  - intros Hb text Ha Hat Hak. rewrite Ha. unfold pgRule.
    pose proof (upper_comparison_on_ascii builtins text key Hb Hat Hak)
      as HU.
    pose proof (lower_comparison_on_ascii builtins text key Hb Hat Hak)
      as HL.
    unfold isCorrectPlain, isCorrectAes.
    destruct (trim (toUpperCase text) =? trim (toUpperCase key)) eqn:EU;
      destruct (trim (toLowerCase text) =? trim (toLowerCase key)) eqn:EL;
      rewrite ?String.eqb_eq, ?String.eqb_neq in *; cbn [hundredIf];
      repeat split; intros H; try reflexivity;
      solve [ exfalso; tauto ].
Qed.

(** *** Essays *)

(** The score depends on what the AI scorer answers. *)
Definition consultsScorer (answer : Answer) (q : Question) : Prop :=
  exists scorer1 scorer2,
    computeScoreAes scorer1 answer q <> computeScoreAes scorer2 answer q.

(** C8, as amended.  For an ESSAY question the service with the AI
    client delegates when there is something to score: with a file url
    and an answer key it calls the image scorer (OCR, then score), else
    with an answer text and a key it calls the text scorer, and it takes
    the score the scorer returns; an essay without key, or with neither
    url nor text, gets 0 and no call.  When the call throws, the answer
    gets the placeholder 50 with the note that a manual review is
    needed, its status becomes SCORED and the loop goes on.  The job of
    a participant ends [done], with every answer of the participant
    SCORED, whatever the scorer returns or throws, as long as every
    pending answer has its question row (the one exception of the
    surrounding code that this embedding has).  The service without the
    AI client gives every essay the placeholder 50. *)
Theorem essay_delegation_and_fallback (scorer : AesScorer) :
  (forall answer q,
     question_type q = ESSAY ->
     let url := answer_answerFileUrl answer in
     let text := answer_answerText answer in
     let key := question_answerKey q in
     (truthy url && truthy key = true ->
      computeScoreAes scorer answer q
      = match scoreImage scorer (valueOf url) (valueOf key)
                         (question_rubric q) (question_question q) with
        | Returned response =>
            match scoring_result response with
            | Some r =>
                (Some (result_score r),
                 Some (resultFeedback r
                         (Some (response_extracted_text response))))
            | None => ocrFailed
            end
        | Thrown _ => aiFallback
        end)
     /\ (truthy url && truthy key = false ->
         truthy text && truthy key = true ->
         computeScoreAes scorer answer q
         = match scoreText scorer (valueOf text) (valueOf key)
                           (question_rubric q) (question_question q) with
           | Returned r =>
               (Some (result_score r), Some (resultFeedback r None))
           | Thrown _ => aiFallback
           end)
     /\ (truthy url && truthy key = false ->
         truthy text && truthy key = false ->
         computeScoreAes scorer answer q = noAnswerOrKey)
     /\ computeScorePlain answer q = Some 50%float)
  /\ aiFallback = (Some 50%float, Some manualReview)
  /\ (forall w answer q now,
        find (fun a => answer_id a =? answer_id answer) (answers w)
        = Some answer ->
        answer_status answer = PENDING ->
        computeScoreAes scorer answer q = aiFallback ->
        exists w' row,
          scoreAnswerAes scorer (answer, Some q) now w = (Returned tt, w')
          /\ find (fun a => answer_id a =? answer_id answer) (answers w')
             = Some row
          /\ answer_aiScore row = Some 50%float
          /\ answer_finalScore row = Some 50%float
          /\ answer_feedback row = Some (FeedbackJson manualReview)
          /\ answer_status row = SCORED)
  /\ (forall w participantId now job,
        jobOf w participantId = Some job ->
        (forall a, In a (answersOf w participantId) ->
                   answer_status a = PENDING -> questionOf w a <> None) ->
        exists w' job',
          processParticipant (scoreAnswerAes scorer) participantId now w
          = (Returned tt, w')
          /\ jobOf w' participantId = Some job'
          /\ job_status job' = done
          /\ job_error job' = job_error job
          /\ (forall a, In a (answersOf w' participantId) ->
                        answer_status a = SCORED)).
Proof.
  split; [|split; [reflexivity|split]].
  - intros answer q Ht url text key. subst url text key.
    unfold computeScoreAes, computeScorePlain, scoreEssay, isPG, isESSAY.
    rewrite Ht. cbn [andb]. repeat split.
    + intros ->. reflexivity.
    + intros -> ->. reflexivity.
    + intros -> ->. reflexivity.
  - intros w answer q now Hf Hp Hc.
    destruct (scoreAnswerAes_row scorer now w answer q Hf Hp)
      as (w' & Hrun & Hrow).
    rewrite Hc in Hrow. exists w'. eexists. split; [exact Hrun|].
    split; [exact Hrow|]. repeat split.
  - intros w participantId now job Hjob Hq.
    exact (processParticipant_done scorer w participantId now job Hjob Hq).
Qed.

End AnyBuiltins.

(** C3 on an answer of the sample: [a-1] answers " b " to the key "B". *)
Lemma pg_score_is_100_or_0_witness :
  exists afterPlain afterAes rowPlain rowAes,
    scoreAnswerPlain
      (Sample.answer "a-1" "p-budi" "q-pg" (Some " b ") None None PENDING,
       Some (Sample.question "q-pg" PG (Some "B"))) 100%Z Sample.school
    = (Returned tt, afterPlain)
    /\ (forall scorer,
          scoreAnswerAes scorer
            (Sample.answer "a-1" "p-budi" "q-pg" (Some " b ") None None
                           PENDING,
             Some (Sample.question "q-pg" PG (Some "B"))) 100%Z
            Sample.school
          = (Returned tt, afterAes))
    /\ answerById afterPlain "a-1" = Some rowPlain
    /\ answerById afterAes "a-1" = Some rowAes
    /\ answer_status rowPlain = SCORED
    /\ answer_status rowAes = SCORED
    /\ answer_aiScore rowPlain = answer_finalScore rowPlain
    /\ answer_aiScore rowAes = answer_finalScore rowAes
    /\ (answer_finalScore rowPlain = Some 100%float
        \/ answer_finalScore rowPlain = Some 0%float)
    /\ (answer_finalScore rowAes = Some 100%float
        \/ answer_finalScore rowAes = Some 0%float)
    /\ (forall text,
          Some " b " = Some text ->
          (answer_finalScore rowPlain = Some 100%float
           <-> trim (toUpperCase text) = trim (toUpperCase "B"))
          /\ (answer_finalScore rowAes = Some 100%float
              <-> trim (toLowerCase text) = trim (toLowerCase "B")))
    /\ (Some " b " = None ->
        answer_finalScore rowPlain = Some 0%float
        /\ (answer_finalScore rowAes = Some 100%float
            <-> trim (toLowerCase "B") = ""))
    /\ (agreesOnAscii asciiBuiltins ->
        forall text,
          Some " b " = Some text ->
          asciiOnly text = true -> asciiOnly "B" = true ->
          pgRule (equalAfterFoldAndTrim text "B")
                 (answer_finalScore rowPlain)
          /\ pgRule (equalAfterFoldAndTrim text "B")
                    (answer_finalScore rowAes)).
Proof.
  apply (pg_score_is_100_or_0 Sample.school
           (Sample.answer "a-1" "p-budi" "q-pg" (Some " b ") None None
                          PENDING)
           (Sample.question "q-pg" PG (Some "B")) "B" 100%Z);
    [reflexivity | reflexivity | reflexivity | reflexivity | discriminate].
Defined.

(** A multiple-choice question whose key is one space, and an answer to
    it that carries a file and no text. *)
Definition blankKey : Question := Sample.question "q-blank" PG (Some " ").

Definition unanswered : Answer :=
  Sample.answer "a-9" "p-budi" "q-blank" None (Some "lembar.jpg") None
                PENDING.

Definition finalScoreAfter (r : Outcome unit * World) (answerId : Id)
  : option (option float) :=
  option_map answer_finalScore (answerById (snd r) answerId).

(** C3, counterexample: the key " " is not empty, so the answer is scored
    as multiple choice.  scoring.service.ts stores 0 for it, the service
    with the AI client stores 100, whatever the scorer: whether or not an
    absent text counts as equal to this key after normalising, one of the
    two services breaks the rule of the specification. *)
Lemma pg_without_text_splits_the_services :
  question_type blankKey = PG
  /\ truthy (question_answerKey blankKey) = true
  /\ answer_answerText unanswered = None
  /\ finalScoreAfter
       (scoreAnswerPlain (unanswered, Some blankKey) 100%Z
          (with_answers [unanswered] Sample.school)) "a-9"
     = Some (Some 0%float)
  /\ (forall scorer,
        finalScoreAfter
          (scoreAnswerAes scorer (unanswered, Some blankKey) 100%Z
             (with_answers [unanswered] Sample.school)) "a-9"
        = Some (Some 100%float))
  /\ forall equalAfterNormalising : Prop,
       ~ (pgRule equalAfterNormalising (Some 0%float)
          /\ pgRule equalAfterNormalising (Some 100%float)).
Proof.
  split; [reflexivity|]. split; [reflexivity|]. split; [reflexivity|].
  split; [reflexivity|]. split; [intros scorer; reflexivity|].
  intros E [[P1 _] [_ A2]].
  assert (HnE : ~ E) by (intros He; specialize (P1 He); discriminate P1).
  specialize (A2 HnE). discriminate A2.
Qed.

(** Both services on ASCII samples. *)
Example pg_scores_on_samples :
  isCorrectAes (Some "  b ") "B" = true
  /\ isCorrectPlain (Some "jawaban A") " JAWABAN a" = true
  /\ isCorrectAes (Some "A") "B" = false
  /\ isCorrectPlain (Some "b b") "bb" = false
  /\ isCorrectPlain None "B" = false.
Proof. repeat split. Qed.

(** C8, counterexample: [a-3] answers the essay question [q-nokey], which
    has no answer key.  Whatever the AI scorer would return, the
    pipeline gives the answer the score 0 with the note that answer or
    key is missing: such an essay is not delegated.  (In the scoring
    service without the AI client no essay is: each gets the placeholder
    50.) *)
Lemma essay_without_key_is_not_delegated :
  question_type (Sample.question "q-nokey" ESSAY None) = ESSAY
  /\ (forall scorer,
        computeScoreAes scorer
          (Sample.answer "a-3" "p-budi" "q-nokey" (Some "Jawab") None None
                         PENDING)
          (Sample.question "q-nokey" ESSAY None)
        = noAnswerOrKey)
  /\ ~ consultsScorer
         (Sample.answer "a-3" "p-budi" "q-nokey" (Some "Jawab") None None
                        PENDING)
         (Sample.question "q-nokey" ESSAY None)
  /\ computeScorePlain
       (Sample.answer "a-2" "p-budi" "q-essay" (Some "Proses") None None
                      PENDING)
       (Sample.question "q-essay" ESSAY (Some "Fotosintesis"))
     = Some 50%float.
Proof.
  split; [reflexivity|]. split; [reflexivity|]. split; [|reflexivity].
  intros (scorer1 & scorer2 & H). apply H. reflexivity.
Qed.

(** A scorer that is down, run on the finished exam of the sample: the
    job of [p-budi] ends [done]; the keyed essay [a-2] holds the
    placeholder, the multiple-choice answer [a-1] holds 100. *)
Example scorer_down_job_done :
  let down := {| scoreText := fun _ _ _ _ => Thrown (ExternalError "down");
                 scoreImage := fun _ _ _ _ => Thrown (ExternalError "down")
              |} in
  let w' := snd (triggerScoringAes down "exam-over" "guru-1" None 100%Z
                                   Sample.school) in
  option_map job_status (jobOf w' "p-budi") = Some done
  /\ option_map answer_finalScore
       (find (fun a => answer_id a =? "a-2") (answers w')) = Some (Some 50%float)
  /\ option_map answer_finalScore
       (find (fun a => answer_id a =? "a-1") (answers w')) = Some (Some 100%float)
  /\ option_map answer_finalScore
       (find (fun a => answer_id a =? "a-3") (answers w')) = Some (Some 0%float).
Proof. vm_compute. repeat split. Qed.

End Scoring.

(** ** Scenarios on the sample school *)

Module Scenarios.
Import examsRepository scoringService Views.

Definition steady : AesScorer :=
  {| scoreText := fun _ _ _ _ =>
       Returned {| result_score := 80; result_total_points := 8;
                   result_max_points := 10; result_rubric_breakdown := [];
                   result_feedback := {| fb_overall := "Baik";
                                         fb_strengths := [];
                                         fb_improvements := [] |} |};
     scoreImage := fun _ _ _ _ => Thrown (ExternalError "no image service")
  |}.

Definition afterScoring : World :=
  snd (triggerScoringAes steady "exam-over" "guru-1" None 100%Z
                         Sample.school).

Definition scoreOf (w : World) (participantId : Id) : option float :=
  match participantById w participantId with
  | Some p => participant_score p
  | None => None
  end.

(** A scoring pass: [p-budi] answered " b " to key "B" (100), an essay
    with key (80 from the scorer) and an essay without key (0); the mean
    is 60.  The statistics of the exam are recomputed over [p-budi] and
    [p-citra]; the suspicious count of the row stays 3. *)
Example scoring_pass :
  scoreOf afterScoring "p-budi" = Some 60%float
  /\ option_map job_status (jobOf afterScoring "p-budi") = Some done
  /\ match statisticsRow afterScoring "exam-over" with
     | Some row =>
         avgScore row = Some 65%float
         /\ maxScore row = Some 70%float
         /\ minScore row = Some 60%float
         /\ totalParticipants row = Some 3%Z
         /\ submittedCount row = Some 2%Z
         /\ scoredCount row = Some 2%Z
         /\ suspiciousCount row = Some 3%Z
     | None => False
     end.
Proof. vm_compute. repeat split. Qed.

(** The teacher corrects the essay to 85: the mean becomes the double
    nearest to 185 / 3 and the answer stays SCORED. *)
Example override_after_scoring :
  let r := overrideScore "a-2" "guru-1"
             {| input_finalScore := 85; input_feedback := None |} 200%Z
             afterScoring in
  option_map (option_map answer_status) (match fst r with
                                         | Returned a => Some a
                                         | Thrown _ => None
                                         end) = Some (Some SCORED)
  /\ scoreOf (snd r) "p-budi" = Some (185 / 3)%float.
Proof. vm_compute. repeat split. Qed.

(** An exception of the surrounding code: the question row of a pending
    answer is gone, the loop dereferences null, the job ends [failed] and
    keeps the message; the answer scored before the exception keeps its
    score. *)
Example missing_question_fails_job :
  let broken :=
    {| exams := exams Sample.school;
       questions := [Sample.question "q-pg" PG (Some "B")];
       examQuestions := examQuestions Sample.school;
       examParticipants := examParticipants Sample.school;
       answers := answers Sample.school;
       examStatistics := examStatistics Sample.school;
       scoringQueue := [];
       broadcasts := [] |} in
  let w' := snd (triggerScoringAes steady "exam-over" "guru-1"
                                   (Some ["p-budi"]) 100%Z broken) in
  option_map job_status (jobOf w' "p-budi") = Some failed
  /\ option_map job_error (jobOf w' "p-budi")
     = Some (Some "Cannot read properties of null (reading 'type')")
  /\ option_map answer_finalScore (answerById w' "a-1") = Some (Some 100%float)
  /\ option_map answer_status (answerById w' "a-2") = Some PENDING.
Proof. vm_compute. repeat split. Qed.

End Scenarios.

(** * The rest of the exam, participation and scoring services *)

Definition with_examQuestions (v : list ExamQuestion) (w : World) : World :=
  {| exams := exams w; questions := questions w; examQuestions := v;
     examParticipants := examParticipants w; answers := answers w;
     examStatistics := examStatistics w; scoringQueue := scoringQueue w;
     broadcasts := broadcasts w |}.

(** ** exams.repository.ts, the link table and the relational reads *)

Module examsRepositoryRest.
Import examsRepository.

Definition findQuestionByIdAndTeacher (id teacherId : Id)
  : M (option Question) :=
  gets (fun w =>
    find (fun q => (question_id q =? id)
                   && (question_teacherId q =? teacherId))
         (questions w)).

(** One element of [input.questions]. *)
Record QuestionRef := {
  ref_questionId : Id;
  ref_order : option Z;
  ref_points : option float
}.

(** [questionData.map((q, index) => ({ examId, questionId: q.questionId,
    order: q.order ?? index, points: q.points ?? 1 }))] *)
Fixpoint linkValues (examId : Id) (questionData : list QuestionRef)
  (index : Z) : list ExamQuestion :=
  match questionData with
  | [] => []
  | q :: rest =>
      {| eq_examId := examId;
         eq_questionId := ref_questionId q;
         eq_order := Some (match ref_order q with
                           | Some o => o | None => index end);
         eq_points := Some (match ref_points q with
                            | Some p => p | None => 1%float end) |}
      :: linkValues examId rest (index + 1)%Z
  end.

(** The primary key of the link table is (exam_id, question_id). *)
Definition sameLink (a b : ExamQuestion) : bool :=
  (eq_examId a =? eq_examId b) && (eq_questionId a =? eq_questionId b).

(** [insert(...).values(values).onConflictDoNothing()]: a row whose key is
    in the table, or was inserted earlier by the same statement, is
    skipped. *)
Fixpoint insertOnConflictDoNothing (values table : list ExamQuestion)
  : list ExamQuestion :=
  match values with
  | [] => table
  | v :: rest =>
      insertOnConflictDoNothing rest
        (if existsb (sameLink v) table then table else table ++ [v])
  end.

(** The query builder refuses an empty [values] array. *)
Definition addQuestionsToExam (examId : Id) (questionData : list QuestionRef)
  : M unit :=
  match questionData with
  | [] => throw (ExternalError
                   "values() must be called with at least one value")
  | _ =>
      modify (fun w =>
        with_examQuestions
          (insertOnConflictDoNothing (linkValues examId questionData 0%Z)
                                     (examQuestions w))
          w)
  end.

Definition removeQuestionFromExam (examId questionId : Id) : M unit :=
  modify (fun w =>
    with_examQuestions
      (filter (fun l => negb ((eq_examId l =? examId)
                              && (eq_questionId l =? questionId)))
              (examQuestions w))
      w).

(** [findFirst ... with: { examQuestions: { with: { question: true } } }];
    as for [getExamQuestions] the [orderBy] of the links is left out. *)
Definition findExamWithQuestions (id : Id)
  : M (option (Exam * list (ExamQuestion * option Question))) :=
  gets (fun w =>
    match find (fun e => exam_id e =? id) (exams w) with
    | Some e =>
        Some (e,
              map (fun l => (l, find (fun q => question_id q
                                               =? eq_questionId l)
                                     (questions w)))
                  (filter (fun l => eq_examId l =? id) (examQuestions w)))
    | None => None
    end).

End examsRepositoryRest.

(** ** exams.service.ts, the remaining operations on exams *)

Module examsServiceRest.
Import examsRepository examsRepositoryRest examsService.

(** The loop that verifies that every question is the teacher's. *)
Fixpoint verifyQuestions (teacherId : Id) (refs : list QuestionRef)
  : M unit :=
  match refs with
  | [] => ret tt
  | q :: rest =>
      question <- findQuestionByIdAndTeacher (ref_questionId q) teacherId ;;
      match question with
      | None => throw (NotFoundError ("Question " ++ ref_questionId q))
      | Some _ => verifyQuestions teacherId rest
      end
  end.

Definition addQuestionsToExam (examId teacherId : Id)
  (input : list QuestionRef)
  : M (option (Exam * list (ExamQuestion * option Question))) :=
  exam <- findExamByIdAndTeacher examId teacherId ;;
  match exam with
  | None => throw (NotFoundError "Exam")
  | Some exam =>
      if negb (ExamStatus_eqb (exam_status exam) DRAFT)
      then throw (BadRequestError
             "Cannot add questions to exam that is not in DRAFT status")
      else
        verifyQuestions teacherId input ;;;
        examsRepositoryRest.addQuestionsToExam examId input ;;;
        findExamWithQuestions examId
  end.

Definition removeQuestionFromExam (examId teacherId questionId : Id)
  : M bool :=
  exam <- findExamByIdAndTeacher examId teacherId ;;
  match exam with
  | None => throw (NotFoundError "Exam")
  | Some exam =>
      if negb (ExamStatus_eqb (exam_status exam) DRAFT)
      then throw (BadRequestError
        "Cannot remove questions from exam that is not in DRAFT status")
      else
        examsRepositoryRest.removeQuestionFromExam examId questionId ;;;
        ret true
  end.

Definition endExam (examId teacherId : Id) (now : Timestamp)
  : M (option Exam) :=
  exam <- findExamByIdAndTeacher examId teacherId ;;
  match exam with
  | None => throw (NotFoundError "Exam")
  | Some exam =>
      if negb (ExamStatus_eqb (exam_status exam) ONGOING)
      then throw (BadRequestError "Exam is not ongoing")
      else
        updated <- updateExam examId
          {| set_status := Some FINISHED; set_startTime := None;
             set_endTime := Some now |} now ;;
        broadcastExamEnd examId ;;;
        ret updated
  end.

(** [proctoringAIService.endSession]: returns, or throws. *)
Definition EndSession := string -> Outcome unit.

(** The best-effort call that ends the proctoring session: made when the
    participant has a session id, its error is logged and dropped. *)
Definition endProctoring (endSession : EndSession)
  (participant : ExamParticipant) : M unit :=
  if truthy (participant_proctoringSessionId participant)
  then tryCatch
         (fun w =>
            (endSession (valueOf (participant_proctoringSessionId
                                    participant)), w))
         (fun _ => ret tt)
  else ret tt.

Definition finishExam (endSession : EndSession) (examId studentId : Id)
  (now : Timestamp) : M (option ExamParticipant) :=
  exam <- findExamById examId ;;
  match exam with
  | None => throw (NotFoundError "Exam")
  | Some _ =>
      participant <- findParticipant examId studentId ;;
      match participant with
      | None => throw (ForbiddenError "You have not joined this exam")
      | Some participant =>
          if isSome (participant_submitTime participant)
          then throw (BadRequestError
                        "You have already submitted the exam")
          else
            endProctoring endSession participant ;;;
            updated <- updateParticipant (participant_id participant)
              {| set_submitTime := Some now;
                 set_score := None;
                 set_participantStatus := Some "SUBMITTED" |} ;;
            stats <- getStatistics examId ;;
            upsertStatistics examId
              {| set_avgScore := None; set_maxScore := None;
                 set_minScore := None; set_totalParticipants := None;
                 set_submittedCount :=
                   Some (orZeroZ (match stats with
                                  | Some s => submittedCount s
                                  | None => None end) + 1)%Z;
                 set_scoredCount := None; set_suspiciousCount := None |}
              now ;;;
            ret updated
      end
  end.

(** The object that [getStudentExamStatus] returns. *)
Inductive StudentExamStatus :=
| NotJoined
| Joined (participant : ExamParticipant) (answeredCount : nat)
         (submitted : bool)
         (answers : option (list (Answer * option Question))).

Definition getStudentExamStatus (examId studentId : Id)
  : M StudentExamStatus :=
  participant <- findParticipant examId studentId ;;
  match participant with
  | None => ret NotJoined
  | Some participant =>
      answers <- getParticipantAnswers (participant_id participant) ;;
      exam <- findExamById examId ;;
      let showResults :=
        match exam with
        | Some e => ExamStatus_eqb (exam_status e) PUBLISHED
                    || ExamStatus_eqb (exam_status e) FINISHED
        | None => false
        end in
      ret (Joined participant (List.length answers)
                  (isSome (participant_submitTime participant))
                  (if showResults then Some answers else None))
  end.

End examsServiceRest.

(** ** Keys of tables *)

Section Keys.
Context {A K : Type}.
Variable key : A -> K.

Lemma NoDup_snoc (l : list K) (x : K) :
  NoDup l -> ~ In x l -> NoDup (l ++ [x]).
Proof.
  induction l as [|y l IH]; simpl; intros Hn Hx.
  - constructor; [intros [] | constructor].
  - inversion Hn as [|y' l' Hy Hl]; subst. constructor.
    + rewrite in_app_iff. simpl. intros [H | [H | []]]; [auto|].
      apply Hx. now left.
    + apply IH; [exact Hl|]. intros H. apply Hx. now right.
Qed.

Lemma map_key_preserved (g : A -> A) (l : list A) :
  (forall a, key (g a) = key a) -> map key (map g l) = map key l.
Proof.
  intros Hg. rewrite map_map. apply map_ext. exact Hg.
Qed.

(** Two rows of a table with unique keys that share their key are one. *)
Lemma unique_key_row (l : list A) (a b : A) :
  NoDup (map key l) -> In a l -> In b l -> key a = key b -> a = b.
Proof.
  induction l as [|x l IH]; simpl; intros Hn Ha Hb Hk; [destruct Ha|].
  inversion Hn as [|k ks Hx Hl]; subst.
  destruct Ha as [->|Ha]; destruct Hb as [->|Hb]; auto.
  - exfalso. apply Hx. rewrite Hk. now apply in_map.
  - exfalso. apply Hx. rewrite <- Hk. now apply in_map.
Qed.

Lemma filter_length_preserved (p : A -> bool) (g : A -> A) (l : list A) :
  (forall a, p (g a) = p a) ->
  List.length (filter p (map g l)) = List.length (filter p l).
Proof.
  intros Hg. induction l as [|a l IH]; simpl; [reflexivity|].
  rewrite Hg. destruct (p a); simpl; now rewrite IH.
Qed.
End Keys.

(** ** Participation: final submit, resubmission, uniqueness *)

Module MoreParticipation.
Import examsRepository examsService examsRepositoryRest examsServiceRest.
Import Views LifecycleFacts Participation.

Definition submittedPatch (now : Timestamp) : ParticipantPatch :=
  {| set_submitTime := Some now;
     set_score := None;
     set_participantStatus := Some "SUBMITTED" |}.

Definition submittedCounter (w : World) (examId : Id) : option Z :=
  match statisticsRow w examId with
  | Some s => submittedCount s
  | None => None
  end.

Lemma endProctoring_run endSession p w :
  endProctoring endSession p w = (Returned tt, w).
Proof.
  unfold endProctoring, tryCatch, ret.
  destruct (truthy (participant_proctoringSessionId p)); [|reflexivity].
  destruct (endSession _) as [[]|e]; reflexivity.
Qed.

(** The run of a final submit that passes the guards. *)
Lemma finishExam_run endSession w examId studentId now exam p :
  find (fun e => exam_id e =? examId) (exams w) = Some exam ->
  joined w examId studentId = Some p ->
  participant_submitTime p = None ->
  exists updated w',
    finishExam endSession examId studentId now w
    = (Returned (Some updated), w')
    /\ participant_submitTime updated = Some now
    /\ participant_status updated = Some "SUBMITTED"
    /\ joined w' examId studentId
       = Some (applyParticipantPatch (submittedPatch now) p)
    /\ exams w' = exams w
    /\ examQuestions w' = examQuestions w
    /\ answers w' = answers w
    /\ submittedCounter w' examId
       = Some (orZeroZ (submittedCounter w examId) + 1)%Z.
Proof.
  intros He Hj Hs. unfold finishExam, findExamById, findParticipant.
  unfold bind at 1. unfold gets at 1. rewrite He.
  unfold bind at 1. unfold gets at 1. unfold joined in Hj. rewrite Hj, Hs.
  cbn [isSome]. unfold bind at 1. rewrite endProctoring_run.
  unfold updateParticipant. run.
  assert (Hin : In p (examParticipants w))
    by (apply find_some in Hj; tauto).
  fold (submittedPatch now).
  set (g := fun q : ExamParticipant =>
              if participant_id q =? participant_id p
              then applyParticipantPatch (submittedPatch now) q else q).
  assert (Hkeys : forall a,
             (participant_examId (g a) =? examId)
             && (participant_studentId (g a) =? studentId)
             = (participant_examId a =? examId)
               && (participant_studentId a =? studentId)).
  { intros a. unfold g. destruct (participant_id a =? participant_id p);
      reflexivity. }
  assert (Hjoined : find (fun q => (participant_examId q =? examId)
                                   && (participant_studentId q =? studentId))
                         (map g (examParticipants w))
                    = Some (applyParticipantPatch (submittedPatch now) p)).
  { rewrite (find_map_preserve _ g _ Hkeys), Hj. cbn [option_map].
    unfold g. now rewrite String.eqb_refl. }
  destruct (find (fun q => participant_id q =? participant_id p)
                 (map g (examParticipants w))) as [updated|] eqn:Eu.
  2: { exfalso.
       pose proof (find_none _ _ Eu (g p) (in_map g _ p Hin)) as Hc.
       unfold g in Hc. rewrite String.eqb_refl in Hc.
       cbn in Hc. rewrite String.eqb_refl in Hc. discriminate. }
  assert (Hupd : participant_submitTime updated = Some now
                 /\ participant_status updated = Some "SUBMITTED").
  { apply find_some in Eu. destruct Eu as [Hi Hid].
    apply in_map_iff in Hi. destruct Hi as (q & <- & _).
    unfold g in *. destruct (participant_id q =? participant_id p) eqn:E;
      [split; reflexivity | congruence]. }
  match goal with
  | |- context [upsertStatistics examId ?d now ?w1] =>
      destruct (upsertStatistics_run examId d now w1)
        as (row & stats' & Hrun & Hfind & Hrow)
  end.
  rewrite Hrun. exists updated. eexists. split; [reflexivity|].
  destruct Hupd as [Hu1 Hu2].
  split; [exact Hu1|]. split; [exact Hu2|]. split; [exact Hjoined|].
  split; [reflexivity|]. split; [reflexivity|]. split; [reflexivity|].
  unfold submittedCounter, statisticsRow in *. cbn in *.
  rewrite Hfind, Hrow.
  destruct (find (fun s => stat_examId s =? examId) (examStatistics w));
    reflexivity.
Qed.

(** X1: once [finishExam] has succeeded for a student, every later
    [submitAnswer], [batchSubmitAnswers] and [finishExam] of that student
    on that exam is a BadRequest that changes nothing, whatever it is
    given; the final submit itself leaves the answers as they were. *)
Theorem finishExam_closes_participation
  (endSession : EndSession) (w : World) (examId studentId : Id)
  (now : Timestamp) (exam : Exam) (p : ExamParticipant) :
  find (fun e => exam_id e =? examId) (exams w) = Some exam ->
  joined w examId studentId = Some p ->
  participant_submitTime p = None ->
  exists updated w',
    finishExam endSession examId studentId now w
    = (Returned (Some updated), w')
    /\ participant_submitTime updated = Some now
    /\ answers w' = answers w
    /\ (forall input newId later,
          submitAnswer examId studentId input newId later w'
          = (Thrown (BadRequestError "You have already submitted the exam"),
             w'))
    /\ (forall inputs later,
          batchSubmitAnswers examId studentId inputs later w'
          = (Thrown (BadRequestError "You have already submitted the exam"),
             w'))
    /\ (forall endSession' later,
          finishExam endSession' examId studentId later w'
          = (Thrown (BadRequestError "You have already submitted the exam"),
             w')).
Proof.
  intros He Hj Hs.
  destruct (finishExam_run endSession w examId studentId now exam p He Hj Hs)
    as (updated & w' & Hrun & Ht & _ & Hj' & Hex & _ & Hans & _).
  exists updated, w'. split; [exact Hrun|]. split; [exact Ht|].
  split; [exact Hans|].
  assert (Hsub : participant_submitTime
                   (applyParticipantPatch (submittedPatch now) p)
                 = Some now) by reflexivity.
  split; [|split].
  - intros input newId later.
    exact (proj1 (proj2 (submit_guards w' examId studentId input [] newId
                           later) _ now Hj' Hsub)).
  - intros inputs later.
    exact (proj2 (proj2 (submit_guards w' examId studentId
                           {| input_questionId := "";
                              input_answerText := None;
                              input_answerFileUrl := None |}
                           inputs "" later) _ now Hj' Hsub)).
  - intros endSession' later.
    unfold finishExam, findExamById, findParticipant.
    unfold bind at 1. unfold gets at 1. rewrite Hex, He.
    unfold bind at 1. unfold gets at 1. unfold joined in Hj'.
    now rewrite Hj'.
Qed.

Lemma finishExam_closes_participation_witness :
  exists updated w',
    finishExam (fun _ => Thrown (ExternalError "down")) "exam-live" "ani"
               60%Z Sample.school
    = (Returned (Some updated), w')
    /\ participant_submitTime updated = Some 60%Z
    /\ answers w' = answers Sample.school
    /\ (forall input newId later,
          submitAnswer "exam-live" "ani" input newId later w'
          = (Thrown (BadRequestError "You have already submitted the exam"),
             w'))
    /\ (forall inputs later,
          batchSubmitAnswers "exam-live" "ani" inputs later w'
          = (Thrown (BadRequestError "You have already submitted the exam"),
             w'))
    /\ (forall endSession' later,
          finishExam endSession' "exam-live" "ani" later w'
          = (Thrown (BadRequestError "You have already submitted the exam"),
             w')).
Proof.
  apply (finishExam_closes_participation
           (fun _ => Thrown (ExternalError "down")) Sample.school
           "exam-live" "ani" 60%Z (Sample.exam "exam-live" ONGOING true)
           (Sample.participant "p-ani" "exam-live" "ani" None None));
    reflexivity.
Defined.

(** *** Submitting and resubmitting *)

Definition answerUnder (w : World) (participantId questionId : Id)
  : option Answer :=
  find (fun a => (answer_participantId a =? participantId)
                 && (answer_questionId a =? questionId))
       (answers w).

Definition linked (w : World) (examId questionId : Id) : bool :=
  existsb (fun q => eq_questionId q =? questionId)
          (linkedQuestions w examId).

(** The run of [upsertAnswer]: the table grows by one row when the key is
    new and is rewritten in place when it is not. *)
Lemma upsertAnswer_run w participantId questionId data newId now :
  exists row,
    fst (upsertAnswer participantId questionId data newId now w)
    = Returned (Some row)
    /\ match answerUnder w participantId questionId with
       | None =>
           snd (upsertAnswer participantId questionId data newId now w)
           = with_answers
               (answers w
                ++ [newAnswer newId participantId questionId data now]) w
       | Some existing =>
           snd (upsertAnswer participantId questionId data newId now w)
           = with_answers
               (map (fun a => if answer_id a =? answer_id existing
                              then applyAnswerData data now a else a)
                    (answers w)) w
       end.
Proof.
  unfold upsertAnswer, answerUnder. run.
  destruct (find _ (answers w)) as [existing|] eqn:E; cbn.
  - destruct (find (fun a => answer_id a =? answer_id existing)
                   (map (fun a => if answer_id a =? answer_id existing
                                  then applyAnswerData data now a else a)
                        (answers w))) as [row|] eqn:Er.
    + exists row. auto.
    + exfalso. apply find_some in E. destruct E as [Hin _].
      pose proof (find_none _ _ Er _
                    (in_map (fun a => if answer_id a =? answer_id existing
                                      then applyAnswerData data now a
                                      else a) _ existing Hin)) as Hc.
      cbn in Hc. rewrite String.eqb_refl in Hc. cbn in Hc.
      rewrite String.eqb_refl in Hc. discriminate.
  - eexists. split; reflexivity.
Qed.

Definition answeredCountOf (s : StudentExamStatus) : option nat :=
  match s with
  | NotJoined => None
  | Joined _ n _ _ => Some n
  end.

Lemma getStudentExamStatus_count w examId studentId p :
  joined w examId studentId = Some p ->
  option_map answeredCountOf
    (match fst (getStudentExamStatus examId studentId w) with
     | Returned s => Some s
     | Thrown _ => None
     end)
  = Some (Some (List.length (answersOf w (participant_id p)))).
Proof.
  intros Hj. unfold getStudentExamStatus, findParticipant,
    getParticipantAnswers, findExamById. run.
  unfold joined in Hj. rewrite Hj. cbn.
  now rewrite length_map.
Qed.

(** X3: a joined student who has not made the final submit sends an answer
    for a linked question.  The call returns a row; afterwards the row
    stored under (participant, question) is PENDING and carries the text
    and the file url that were sent; the number of answers that
    [getStudentExamStatus] reports grows by one when the question had no
    answer yet and stays the same when the answer replaces an earlier
    one. *)
Theorem submitAnswer_stores_and_counts
  (w : World) (examId studentId : Id) (input : SubmitAnswerInput)
  (newId : Id) (now : Timestamp) (p : ExamParticipant) :
  joined w examId studentId = Some p ->
  participant_submitTime p = None ->
  linked w examId (input_questionId input) = true ->
  let r := submitAnswer examId studentId input newId now w in
  let before := List.length (answersOf w (participant_id p)) in
  let after := List.length (answersOf (snd r) (participant_id p)) in
  (exists row, fst r = Returned (Some row))
  /\ (exists stored,
        answerUnder (snd r) (participant_id p) (input_questionId input)
        = Some stored
        /\ answer_status stored = PENDING
        /\ (forall t, input_answerText input = Some t ->
                      answer_answerText stored = Some t)
        /\ (forall u, input_answerFileUrl input = Some u ->
                      answer_answerFileUrl stored = Some u))
  /\ option_map answeredCountOf
       (match fst (getStudentExamStatus examId studentId (snd r)) with
        | Returned s => Some s
        | Thrown _ => None
        end) = Some (Some after)
  /\ after
     = match answerUnder w (participant_id p) (input_questionId input) with
       | Some _ => before
       | None => S before
       end.
Proof.
  intros Hj Hs Hl r before after. subst r before after.
  assert (Hrun : submitAnswer examId studentId input newId now w
                 = upsertAnswer (participant_id p) (input_questionId input)
                                (answerDataOf input) newId now w).
  { unfold submitAnswer, findParticipant, getExamQuestions. run.
    unfold joined in Hj. rewrite Hj, Hs. cbn.
    unfold linked, linkedQuestions in Hl. now rewrite Hl. }
  rewrite Hrun.
  destruct (upsertAnswer_run w (participant_id p) (input_questionId input)
              (answerDataOf input) newId now) as (row & Hrow & Hw).
  split; [exists row; exact Hrow|].
  assert (Hj' : joined (snd (upsertAnswer (participant_id p)
                               (input_questionId input) (answerDataOf input)
                               newId now w)) examId studentId = Some p).
  { destruct (answerUnder w (participant_id p) (input_questionId input));
      rewrite Hw; exact Hj. }
  rewrite (getStudentExamStatus_count _ examId studentId p Hj').
  unfold answerUnder in *.
  destruct (find _ (answers w)) as [existing|] eqn:E; rewrite Hw;
    cbn [answers with_answers].
  - split; [|split; [reflexivity|]].
    + rewrite find_map_preserve.
      * rewrite E. cbn [option_map]. rewrite String.eqb_refl.
        eexists. split; [reflexivity|]. split; [reflexivity|].
        split; cbn; intros x ->; reflexivity.
      * intros a. destruct (answer_id a =? answer_id existing); reflexivity.
    + unfold answersOf. cbn [answers with_answers].
      apply filter_length_preserved.
      intros a. destruct (answer_id a =? answer_id existing); reflexivity.
  - split; [|split; [reflexivity|]].
    + rewrite (find_app_new _ _ _ E)
        by (cbn; now rewrite !String.eqb_refl).
      eexists. split; [reflexivity|]. split; [reflexivity|].
      split; cbn; intros x ->; reflexivity.
    + unfold answersOf. cbn [answers with_answers].
      rewrite filter_app, length_app. cbn.
      rewrite String.eqb_refl. cbn. lia.
Qed.

Lemma submitAnswer_stores_and_counts_witness :
  let input := {| input_questionId := "q-pg";
                  input_answerText := Some "B";
                  input_answerFileUrl := None |} in
  let r := submitAnswer "exam-live" "ani" input "a-9" 50%Z Sample.school in
  let before := List.length (answersOf Sample.school "p-ani") in
  let after := List.length (answersOf (snd r) "p-ani") in
  (exists row, fst r = Returned (Some row))
  /\ (exists stored,
        answerUnder (snd r) "p-ani" "q-pg" = Some stored
        /\ answer_status stored = PENDING
        /\ (forall t, input_answerText input = Some t ->
                      answer_answerText stored = Some t)
        /\ (forall u, input_answerFileUrl input = Some u ->
                      answer_answerFileUrl stored = Some u))
  /\ option_map answeredCountOf
       (match fst (getStudentExamStatus "exam-live" "ani" (snd r)) with
        | Returned s => Some s
        | Thrown _ => None
        end) = Some (Some after)
  /\ after
     = match answerUnder Sample.school "p-ani" "q-pg" with
       | Some _ => before
       | None => S before
       end.
Proof.
  apply (submitAnswer_stores_and_counts Sample.school "exam-live" "ani"
           {| input_questionId := "q-pg"; input_answerText := Some "B";
              input_answerFileUrl := None |} "a-9" 50%Z
           (Sample.participant "p-ani" "exam-live" "ani" None None));
    reflexivity.
Defined.




(** *** Uniqueness that only the services keep *)

Definition participantKeys (w : World) : list (Id * Id) :=
  map (fun p => (participant_examId p, participant_studentId p))
      (examParticipants w).

Definition answerKeys (w : World) : list (Id * Id) :=
  map (fun a => (answer_participantId a, answer_questionId a)) (answers w).

Lemma find_none_key {A} (l : list A) (k1 k2 : A -> Id) (x y : Id) :
  find (fun a => (k1 a =? x) && (k2 a =? y)) l = None ->
  ~ In (x, y) (map (fun a => (k1 a, k2 a)) l).
Proof.
  intros Hn Hin. apply in_map_iff in Hin. destruct Hin as (a & Hk & Ha).
  inversion Hk; subst.
  pose proof (find_none _ _ Hn a Ha) as Hc. cbn in Hc.
  now rewrite !String.eqb_refl in Hc.
Qed.

(** *** Requests whose calls alternate *)

(** A service method is an [async] function: at each [await] control goes
    back to the event loop, and the repository calls of another request
    can run before the method goes on.  Neither [joinExam] nor
    [upsertAnswer] runs its lookup and its insert in one transaction, and
    the tables have no unique index on the keys.  An operation in [M] is
    a request that runs from its first call to its last with no call of
    another request in between.  Below, an operation is cut at the
    [await] between its last read and its first write, and two requests
    run with the reads of both before the writes of either. *)
Definition readsBeforeWrites {A B C D}
  (readsA : M A) (writesA : A -> M B) (readsB : M C) (writesB : C -> M D)
  : M (B * D) :=
  a <- readsA ;;
  c <- readsB ;;
  b <- writesA a ;;
  d <- writesB c ;;
  ret (b, d).

Lemma twice_at_the_end {K} (l : list K) (k : K) : ~ NoDup (l ++ [k; k]).
Proof.
  intros H. apply NoDup_remove_2 in H. apply H.
  rewrite in_app_iff. right. now left.
Qed.

(** [joinExam] up to [findParticipant], and from there on. *)
Definition joinExam_reads (examId studentId : Id)
  : M (Exam * option ExamParticipant) :=
  exam <- findExamById examId ;;
  match exam with
  | None => throw (NotFoundError "Exam")
  | Some exam =>
      if negb (ExamStatus_eqb (exam_status exam) ONGOING)
      then throw (BadRequestError
                    "This exam is not available for joining")
      else
        participant <- findParticipant examId studentId ;;
        ret (exam, participant)
  end.

Definition joinExam_writes (startSession : StartSession)
  (examId studentId : Id) (studentName : string)
  (newId : Id) (now : Timestamp) (found : Exam * option ExamParticipant)
  : M JoinResult :=
  let exam := fst found in
  match snd found with
  | Some participant =>
      ret {| join_participant := participant;
             alreadyJoined := true;
             join_proctoringSessionId := None |}
  | None =>
      let proctoringSessionId :=
        if settingsEnableProctoring exam
        then match startSession
                     {| req_student_id := studentId;
                        req_exam_id := examId;
                        req_student_name := studentName;
                        req_exam_name := exam_title exam |} with
             | Returned sid => Some sid
             | Thrown _ => None
             end
        else None in
      participant <- createParticipant
        {| participant_id := newId;
           participant_examId := examId;
           participant_studentId := studentId;
           participant_proctoringSessionId := proctoringSessionId;
           participant_startTime := Some now;
           participant_submitTime := None;
           participant_score := None;
           participant_status := Some "IN_PROGRESS";
           participant_createdAt := now |} ;;
      stats <- getStatistics examId ;;
      upsertStatistics examId
        {| set_avgScore := None; set_maxScore := None;
           set_minScore := None;
           set_totalParticipants :=
             Some (orZeroZ (match stats with
                            | Some s => totalParticipants s
                            | None => None end) + 1)%Z;
           set_submittedCount := None; set_scoredCount := None;
           set_suspiciousCount := None |}
        now ;;;
      ret {| join_participant := participant;
             alreadyJoined := false;
             join_proctoringSessionId := proctoringSessionId |}
  end.

Lemma joinExam_in_two_parts
  startSession examId studentId studentName newId now w :
  joinExam startSession examId studentId studentName newId now w
  = (found <- joinExam_reads examId studentId ;;
     joinExam_writes startSession examId studentId studentName newId now
                     found) w.
Proof.
  unfold joinExam, joinExam_reads, joinExam_writes, findExamById,
    findParticipant, bind, gets, throw, ret.
  destruct (find (fun e => exam_id e =? examId) (exams w)) as [exam|];
    [|reflexivity].
  destruct (negb (ExamStatus_eqb (exam_status exam) ONGOING));
    [reflexivity|].
  cbn [fst snd].
  destruct (find _ (examParticipants w)); reflexivity.
Qed.

Lemma joinExam_reads_run w examId studentId exam :
  find (fun e => exam_id e =? examId) (exams w) = Some exam ->
  exam_status exam = ONGOING ->
  joinExam_reads examId studentId w
  = (Returned (exam, joined w examId studentId), w).
Proof.
  intros He Hs. unfold joinExam_reads, findExamById, findParticipant.
  unfold bind, gets, ret. rewrite He, Hs. reflexivity.
Qed.

Lemma joinExam_writes_new
  startSession examId studentId studentName newId now exam w :
  exists result row stats',
    joinExam_writes startSession examId studentId studentName newId now
                    (exam, None) w
    = (Returned result,
       with_examStatistics stats'
         (with_examParticipants (examParticipants w ++ [row]) w))
    /\ alreadyJoined result = false
    /\ participant_examId row = examId
    /\ participant_studentId row = studentId.
Proof.
  unfold joinExam_writes, createParticipant. cbn [fst snd]. run.
  match goal with
  | |- context [upsertStatistics examId ?d now ?w1] =>
      destruct (upsertStatistics_run examId d now w1)
        as (row & stats' & Hrun & _)
  end.
  rewrite Hrun. cbn.
  eexists _, _, stats'. split; [reflexivity|]. auto.
Qed.

(** X4: the schema has no unique constraint on (exam, student) in
    [exam_participants], and [joinExam] looks the student up before it
    inserts.  For a call that runs with no call of another request
    between its lookup and its insert, whatever its arguments and its
    outcome, a participant table without two rows for one (exam, student)
    stays so.  The lookup and the insert are not one step: when two
    requests of a student who has not joined an ONGOING exam both look up
    before either inserts, both insert, and the table holds two rows for
    the (exam, student). *)
Theorem joinExam_keeps_one_row_per_student
  (startSession : StartSession) (w : World) (examId studentId : Id)
  (studentName : string) (newId : Id) (now : Timestamp) :
  NoDup (participantKeys w) ->
  NoDup (participantKeys
           (snd (joinExam startSession examId studentId studentName newId
                          now w)))
  /\ (forall exam otherId later,
        find (fun e => exam_id e =? examId) (exams w) = Some exam ->
        exam_status exam = ONGOING ->
        joined w examId studentId = None ->
        exists first second w',
          readsBeforeWrites
            (joinExam_reads examId studentId)
            (joinExam_writes startSession examId studentId studentName
                             newId now)
            (joinExam_reads examId studentId)
            (joinExam_writes startSession examId studentId studentName
                             otherId later) w
          = (Returned (first, second), w')
          /\ alreadyJoined first = false /\ alreadyJoined second = false
          /\ ~ NoDup (participantKeys w')).
Proof.
  intros Hn. split.
  - unfold joinExam, findExamById, findParticipant.
    unfold bind at 1. unfold gets at 1.
    destruct (find (fun e => exam_id e =? examId) (exams w)) as [exam|];
      [|exact Hn].
    destruct (negb (ExamStatus_eqb (exam_status exam) ONGOING)); [exact Hn|].
    unfold bind at 1. unfold gets at 1.
    destruct (find _ (examParticipants w)) as [existing|] eqn:Ef;
      [exact Hn|].
    unfold createParticipant. run.
    match goal with
    | |- context [upsertStatistics examId ?d now ?w1] =>
        destruct (upsertStatistics_run examId d now w1)
          as (row & stats' & Hrun & _)
    end.
    rewrite Hrun. cbn. unfold participantKeys in *. cbn.
    rewrite map_app. cbn. apply NoDup_snoc; [exact Hn|].
    exact (find_none_key _ participant_examId participant_studentId _ _ Ef).
  - intros exam otherId later He Hs Hj. unfold readsBeforeWrites.
    unfold bind at 1. rewrite (joinExam_reads_run w examId studentId exam He Hs).
    unfold bind at 1. rewrite (joinExam_reads_run w examId studentId exam He Hs).
    rewrite Hj. unfold bind at 1.
    destruct (joinExam_writes_new startSession examId studentId studentName
                newId now exam w)
      as (first & rowA & statsA & HrunA & HfirstA & HeA & HsA).
    rewrite HrunA. unfold bind at 1.
    match goal with
    | |- context [joinExam_writes _ _ _ _ otherId later _ ?w1] =>
        destruct (joinExam_writes_new startSession examId studentId
                    studentName otherId later exam w1)
          as (second & rowB & statsB & HrunB & HfirstB & HeB & HsB)
    end.
    rewrite HrunB. unfold ret.
    eexists first, second, _. split; [reflexivity|].
    split; [exact HfirstA|]. split; [exact HfirstB|].
    unfold participantKeys. cbn [examParticipants with_examParticipants
                                 with_examStatistics].
    rewrite <- app_assoc, map_app. cbn [map app].
    rewrite HeA, HsA, HeB, HsB. apply twice_at_the_end.
Qed.

Ltac distinct_keys :=
  repeat (constructor;
          [cbn; intuition (try discriminate; try congruence)|]);
  constructor.

Lemma joinExam_keeps_one_row_per_student_witness :
  NoDup (participantKeys
           (snd (joinExam (fun _ => Returned "session-7") "exam-live" "eka"
                          "Eka" "p-eka" 40%Z Sample.school)))
  /\ exists first second w',
       readsBeforeWrites
         (joinExam_reads "exam-live" "eka")
         (joinExam_writes (fun _ => Returned "session-7") "exam-live" "eka"
                          "Eka" "p-eka" 40%Z)
         (joinExam_reads "exam-live" "eka")
         (joinExam_writes (fun _ => Returned "session-7") "exam-live" "eka"
                          "Eka" "p-eka-2" 41%Z) Sample.school
       = (Returned (first, second), w')
       /\ alreadyJoined first = false /\ alreadyJoined second = false
       /\ ~ NoDup (participantKeys w').
Proof.
  destruct (joinExam_keeps_one_row_per_student
              (fun _ => Returned "session-7")
              Sample.school "exam-live" "eka" "Eka" "p-eka" 40%Z)
    as [Halone Hboth].
  - unfold participantKeys. cbn. distinct_keys.
  - split; [exact Halone|].
    apply (Hboth (Sample.exam "exam-live" ONGOING true) "p-eka-2" 41%Z);
      reflexivity.
Defined.

Lemma upsertAnswer_keeps_keys w participantId questionId data newId now :
  NoDup (answerKeys w) ->
  NoDup (answerKeys
           (snd (upsertAnswer participantId questionId data newId now w))).
Proof.
  intros Hn.
  destruct (upsertAnswer_run w participantId questionId data newId now)
    as (_ & _ & Hw).
  unfold answerUnder in Hw.
  destruct (find _ (answers w)) as [existing|] eqn:E; rewrite Hw;
    unfold answerKeys in *; cbn [answers with_answers].
  - rewrite map_key_preserved; [exact Hn|].
    intros a. destruct (answer_id a =? answer_id existing); reflexivity.
  - rewrite map_app. cbn. apply NoDup_snoc; [exact Hn|].
    exact (find_none_key _ answer_participantId answer_questionId _ _ E).
Qed.

Lemma batchLoop_keeps_keys participantId inputs now w :
  NoDup (answerKeys w) ->
  NoDup (answerKeys (snd (batchLoop participantId inputs now w))).
Proof.
  revert w. induction inputs as [|[answerInput newId] rest IH]; intros w Hn;
    [exact Hn|].
  cbn [batchLoop]. unfold bind at 1.
  pose proof (upsertAnswer_keeps_keys w participantId
                (input_questionId answerInput) (answerDataOf answerInput)
                newId now Hn) as H1.
  destruct (upsertAnswer participantId (input_questionId answerInput)
              (answerDataOf answerInput) newId now w) as [[answer|e] w1];
    [|exact H1].
  cbn [snd] in H1. unfold bind at 1.
  pose proof (IH w1 H1) as H2.
  destruct (batchLoop participantId rest now w1) as [[results|e] w2];
    exact H2.
Qed.

(** [upsertAnswer] is its [findFirst] and then the update or the insert. *)
Definition upsertAnswer_reads (participantId questionId : Id)
  : M (option Answer) :=
  gets (fun w =>
    find (fun a => (answer_participantId a =? participantId)
                   && (answer_questionId a =? questionId))
         (answers w)).

Definition upsertAnswer_writes (participantId questionId : Id)
  (data : AnswerData) (newId : Id) (now : Timestamp)
  (existing : option Answer) : M (option Answer) :=
  match existing with
  | Some existing =>
      modify (fun w =>
        with_answers
          (map (fun a => if answer_id a =? answer_id existing
                         then applyAnswerData data now a else a)
               (answers w))
          w) ;;;
      gets (fun w => find (fun a => answer_id a =? answer_id existing)
                          (answers w))
  | None =>
      let created := newAnswer newId participantId questionId data now in
      modify (fun w => with_answers (answers w ++ [created]) w) ;;;
      ret (Some created)
  end.

Lemma upsertAnswer_in_two_parts participantId questionId data newId now :
  upsertAnswer participantId questionId data newId now
  = (existing <- upsertAnswer_reads participantId questionId ;;
     upsertAnswer_writes participantId questionId data newId now existing).
Proof. reflexivity. Qed.

(** [submitAnswer] up to the [findFirst] of [upsertAnswer], and from
    there on. *)
Definition submitAnswer_reads (examId studentId : Id)
  (input : SubmitAnswerInput) : M (ExamParticipant * option Answer) :=
  participant <- findParticipant examId studentId ;;
  match participant with
  | None => throw (ForbiddenError "You have not joined this exam")
  | Some participant =>
      if isSome (participant_submitTime participant)
      then throw (BadRequestError "You have already submitted the exam")
      else
        examQuestions <- getExamQuestions examId ;;
        let questionExists :=
          existsb (fun q => eq_questionId q =? input_questionId input)
                  examQuestions in
        if negb questionExists
        then throw (NotFoundError "Question not found in this exam")
        else
          existing <- upsertAnswer_reads (participant_id participant)
                                         (input_questionId input) ;;
          ret (participant, existing)
  end.

Definition submitAnswer_writes (input : SubmitAnswerInput) (newId : Id)
  (now : Timestamp) (found : ExamParticipant * option Answer)
  : M (option Answer) :=
  upsertAnswer_writes (participant_id (fst found)) (input_questionId input)
                      (answerDataOf input) newId now (snd found).

Lemma submitAnswer_in_two_parts examId studentId input newId now w :
  submitAnswer examId studentId input newId now w
  = (found <- submitAnswer_reads examId studentId input ;;
     submitAnswer_writes input newId now found) w.
Proof.
  unfold submitAnswer, submitAnswer_reads, submitAnswer_writes,
    findParticipant, getExamQuestions, upsertAnswer, upsertAnswer_writes,
    upsertAnswer_reads.
  unfold bind, gets, throw, ret.
  destruct (find _ (examParticipants w)) as [p|]; [|reflexivity].
  destruct (isSome (participant_submitTime p)); [reflexivity|].
  destruct (negb _); reflexivity.
Qed.

Lemma submitAnswer_reads_run w examId studentId input p :
  joined w examId studentId = Some p ->
  participant_submitTime p = None ->
  linked w examId (input_questionId input) = true ->
  submitAnswer_reads examId studentId input w
  = (Returned (p, answerUnder w (participant_id p) (input_questionId input)),
     w).
Proof.
  intros Hj Hs Hl.
  unfold submitAnswer_reads, findParticipant, getExamQuestions,
    upsertAnswer_reads.
  unfold bind, gets, throw, ret. unfold joined in Hj. rewrite Hj, Hs.
  cbn [isSome]. unfold linked, linkedQuestions in Hl. rewrite Hl.
  reflexivity.
Qed.

(** X5: [upsertAnswer] looks for the row of (participant, question)
    before it updates or inserts, and the schema has no unique constraint
    on that pair.  For a call that runs with no call of another request
    between the lookup and the write, an answer table that holds at most
    one row per (participant, question) still does after [submitAnswer]
    and after [batchSubmitAnswers], whatever they are given and however
    they end; this covers a batch that names one question several times.
    The lookup and the write are not one step: when two [submitAnswer]
    requests of a participant for one question not answered yet both look
    up before either writes, both insert, and the table holds two rows
    for the (participant, question). *)
Theorem submissions_keep_one_row_per_question
  (w : World) (examId studentId : Id) (input : SubmitAnswerInput)
  (inputs : list (SubmitAnswerInput * Id)) (newId : Id) (now : Timestamp) :
  NoDup (answerKeys w) ->
  NoDup (answerKeys (snd (submitAnswer examId studentId input newId now w)))
  /\ NoDup (answerKeys
              (snd (batchSubmitAnswers examId studentId inputs now w)))
  /\ (forall p other otherId later,
        joined w examId studentId = Some p ->
        participant_submitTime p = None ->
        linked w examId (input_questionId input) = true ->
        answerUnder w (participant_id p) (input_questionId input) = None ->
        input_questionId other = input_questionId input ->
        exists first second w',
          readsBeforeWrites
            (submitAnswer_reads examId studentId input)
            (submitAnswer_writes input newId now)
            (submitAnswer_reads examId studentId other)
            (submitAnswer_writes other otherId later) w
          = (Returned (Some first, Some second), w')
          /\ answer_id first = newId /\ answer_id second = otherId
          /\ ~ NoDup (answerKeys w')).
Proof.
  intros Hn. split; [|split].
  - unfold submitAnswer, findParticipant, getExamQuestions.
    unfold bind at 1. unfold gets at 1.
    destruct (find _ (examParticipants w)) as [p|]; [|exact Hn].
    destruct (isSome (participant_submitTime p)); [exact Hn|].
    unfold bind at 1. unfold gets at 1.
    destruct (negb _); [exact Hn|].
    now apply upsertAnswer_keeps_keys.
  - unfold batchSubmitAnswers, findParticipant.
    unfold bind at 1. unfold gets at 1.
    destruct (find _ (examParticipants w)) as [p|]; [|exact Hn].
    destruct (isSome (participant_submitTime p)); [exact Hn|].
    now apply batchLoop_keeps_keys.
  - intros p other otherId later Hj Hs Hl Hnone Hq.
    unfold readsBeforeWrites. unfold bind at 1.
    rewrite (submitAnswer_reads_run w examId studentId input p Hj Hs Hl).
    unfold bind at 1.
    rewrite (submitAnswer_reads_run w examId studentId other p Hj Hs)
      by (now rewrite Hq).
    rewrite Hq, Hnone. unfold submitAnswer_writes, upsertAnswer_writes.
    cbn [fst snd]. unfold bind, modify, ret.
    eexists _, _, _. split; [reflexivity|].
    split; [reflexivity|]. split; [reflexivity|].
    unfold answerKeys. cbn [answers with_answers].
    rewrite <- app_assoc, map_app. cbn [map app newAnswer
      answer_participantId answer_questionId].
    rewrite Hq. apply twice_at_the_end.
Qed.

Lemma submissions_keep_one_row_per_question_witness :
  let answerB := {| input_questionId := "q-pg";
                    input_answerText := Some "B";
                    input_answerFileUrl := None |} in
  let answerC := {| input_questionId := "q-pg";
                    input_answerText := Some "C";
                    input_answerFileUrl := None |} in
  NoDup (answerKeys (snd (submitAnswer "exam-live" "ani" answerB "a-9" 50%Z
                                       Sample.school)))
  /\ NoDup (answerKeys
              (snd (batchSubmitAnswers "exam-live" "ani"
                      [(answerB, "a-9"); (answerC, "a-10")] 50%Z
                      Sample.school)))
  /\ exists first second w',
       readsBeforeWrites
         (submitAnswer_reads "exam-live" "ani" answerB)
         (submitAnswer_writes answerB "a-9" 50%Z)
         (submitAnswer_reads "exam-live" "ani" answerC)
         (submitAnswer_writes answerC "a-10" 51%Z) Sample.school
       = (Returned (Some first, Some second), w')
       /\ answer_id first = "a-9" /\ answer_id second = "a-10"
       /\ ~ NoDup (answerKeys w').
Proof.
  destruct (submissions_keep_one_row_per_question Sample.school "exam-live"
              "ani"
              {| input_questionId := "q-pg"; input_answerText := Some "B";
                 input_answerFileUrl := None |}
              [({| input_questionId := "q-pg"; input_answerText := Some "B";
                   input_answerFileUrl := None |}, "a-9");
               ({| input_questionId := "q-pg"; input_answerText := Some "C";
                   input_answerFileUrl := None |}, "a-10")] "a-9" 50%Z)
    as (Hone & Hbatch & Hboth).
  - unfold answerKeys. cbn. distinct_keys.
  - split; [exact Hone|]. split; [exact Hbatch|].
    apply (Hboth (Sample.participant "p-ani" "exam-live" "ani" None None)
                 {| input_questionId := "q-pg"; input_answerText := Some "C";
                    input_answerFileUrl := None |} "a-10" 51%Z);
      reflexivity.
Defined.

End MoreParticipation.

(** ** The questions of an exam *)

Module ExamQuestions.
Import examsRepository examsService examsRepositoryRest examsServiceRest.
Import Views LifecycleFacts.

Definition questionOwned (w : World) (teacherId questionId : Id) : bool :=
  isSome (find (fun q => (question_id q =? questionId)
                         && (question_teacherId q =? teacherId))
               (questions w)).

Definition linked (w : World) (examId questionId : Id) : bool :=
  existsb (fun l => (eq_examId l =? examId)
                    && (eq_questionId l =? questionId))
          (examQuestions w).


(** The first question of the input that is not the teacher's. *)
Fixpoint firstUnowned (w : World) (teacherId : Id) (refs : list QuestionRef)
  : option Id :=
  match refs with
  | [] => None
  | r :: rest =>
      if questionOwned w teacherId (ref_questionId r)
      then firstUnowned w teacherId rest
      else Some (ref_questionId r)
  end.

Lemma verifyQuestions_run w teacherId refs :
  verifyQuestions teacherId refs w
  = (match firstUnowned w teacherId refs with
     | Some questionId => Thrown (NotFoundError ("Question " ++ questionId))
     | None => Returned tt
     end, w).
Proof.
  induction refs as [|r rest IH]; [reflexivity|].
  cbn [verifyQuestions firstUnowned]. unfold questionOwned.
  unfold bind, findQuestionByIdAndTeacher, gets.
  destruct (find _ (questions w)); [exact IH | reflexivity].
Qed.

Lemma firstUnowned_some w teacherId refs :
  (exists r, In r refs
             /\ questionOwned w teacherId (ref_questionId r) = false) ->
  exists questionId,
    firstUnowned w teacherId refs = Some questionId
    /\ questionOwned w teacherId questionId = false
    /\ In questionId (map ref_questionId refs).
Proof.
  induction refs as [|r rest IH]; intros (x & Hin & Hx); [destruct Hin|].
  cbn. destruct (questionOwned w teacherId (ref_questionId r)) eqn:E.
  - destruct Hin as [->|Hin]; [congruence|].
    destruct (IH (ex_intro _ x (conj Hin Hx))) as (q & Hq & Ho & Hi).
    exists q. auto.
  - exists (ref_questionId r). auto.
Qed.

Lemma firstUnowned_none w teacherId refs :
  (forall r, In r refs ->
             questionOwned w teacherId (ref_questionId r) = true) ->
  firstUnowned w teacherId refs = None.
Proof.
  induction refs as [|r rest IH]; intros H; [reflexivity|].
  cbn. rewrite (H r (or_introl eq_refl)). apply IH.
  intros x Hx. apply H. now right.
Qed.

(** *** [insert ... onConflictDoNothing] *)

Lemma insert_extends values table :
  exists added,
    insertOnConflictDoNothing values table = table ++ added
    /\ incl added values.
Proof.
  revert table. induction values as [|v rest IH]; intros table; cbn.
  - exists []. rewrite app_nil_r. split; [reflexivity | intros x []].
  - destruct (existsb (sameLink v) table).
    + destruct (IH table) as (added & -> & Hi). exists added.
      split; [reflexivity|]. intros x Hx. right. now apply Hi.
    + destruct (IH (table ++ [v])) as (added & -> & Hi).
      exists (v :: added). rewrite <- app_assoc. split; [reflexivity|].
      intros x [->|Hx]; [now left | right; now apply Hi].
Qed.

Lemma present_after_insert v values table :
  existsb (sameLink v) table = true ->
  existsb (sameLink v) (insertOnConflictDoNothing values table) = true.
Proof.
  intros H. destruct (insert_extends values table) as (added & -> & _).
  rewrite existsb_app, H. reflexivity.
Qed.

Lemma sameLink_refl v : sameLink v v = true.
Proof. unfold sameLink. now rewrite !String.eqb_refl. Qed.

Lemma inserted_are_present values table v :
  In v values ->
  existsb (sameLink v) (insertOnConflictDoNothing values table) = true.
Proof.
  revert table. induction values as [|x rest IH]; intros table Hin;
    [destruct Hin|].
  cbn. destruct Hin as [->|Hin]; [|now apply IH].
  apply present_after_insert.
  destruct (existsb (sameLink v) table) eqn:E; [exact E|].
  rewrite existsb_app. cbn. rewrite sameLink_refl.
  now rewrite orb_true_r.
Qed.




Lemma linkValues_exam examId refs index l :
  In l (linkValues examId refs index) ->
  eq_examId l = examId /\ In (eq_questionId l) (map ref_questionId refs).
Proof.
  revert index. induction refs as [|r rest IH]; intros index Hin;
    [destruct Hin|].
  cbn in Hin. destruct Hin as [<-|Hin]; cbn; [auto|].
  destruct (IH _ Hin). auto.
Qed.

Lemma linkValues_covers examId refs index r :
  In r refs ->
  exists l, In l (linkValues examId refs index)
            /\ eq_examId l = examId
            /\ eq_questionId l = ref_questionId r.
Proof.
  revert index. induction refs as [|x rest IH]; intros index Hin;
    [destruct Hin|].
  cbn. destruct Hin as [->|Hin].
  - eexists. split; [now left|]. auto.
  - destruct (IH (index + 1)%Z Hin) as (l & Hl & H1 & H2).
    exists l. auto.
Qed.

Lemma linked_sameLink (table : list ExamQuestion) l examId questionId :
  eq_examId l = examId -> eq_questionId l = questionId ->
  existsb (sameLink l) table
  = existsb (fun x => (eq_examId x =? examId)
                      && (eq_questionId x =? questionId)) table.
Proof.
  intros <- <-. induction table as [|x t IH]; [reflexivity|].
  cbn. rewrite IH. unfold sameLink.
  now rewrite (String.eqb_sym (eq_examId l)),
    (String.eqb_sym (eq_questionId l)).
Qed.

Definition afterAdding (w : World) (examId : Id) (input : list QuestionRef)
  : World :=
  with_examQuestions
    (insertOnConflictDoNothing (linkValues examId input 0%Z)
                               (examQuestions w)) w.

(** The run of [addQuestionsToExam] past its guards. *)
Lemma addQuestionsToExam_run w examId teacherId exam input :
  owns w examId teacherId exam ->
  exam_status exam = DRAFT ->
  input <> [] ->
  firstUnowned w teacherId input = None ->
  exists result,
    addQuestionsToExam examId teacherId input w
    = (Returned (Some result), afterAdding w examId input).
Proof.
  intros Ho Es Hne Hu.
  unfold addQuestionsToExam, findExamByIdAndTeacher.
  unfold bind at 1. unfold gets at 1. pose proof Ho as Ho'.
  unfold owns in Ho'. rewrite Ho', Es. cbn [ExamStatus_eqb negb].
  unfold bind at 1. rewrite verifyQuestions_run, Hu.
  unfold bind at 1. unfold examsRepositoryRest.addQuestionsToExam.
  destruct input as [|r rest]; [congruence|].
  unfold modify, findExamWithQuestions, gets. fold (afterAdding w examId
                                                      (r :: rest)).
  assert (Hid : find (fun e => exam_id e =? examId)
                     (exams (afterAdding w examId (r :: rest))) <> None).
  { cbn. intros Hn. apply find_some in Ho'. destruct Ho' as [Hin Hp].
    apply andb_prop in Hp. destruct Hp as [Hp _].
    pose proof (find_none _ _ Hn _ Hin) as Hc. cbn in Hc. congruence. }
  destruct (find (fun e => exam_id e =? examId)
                 (exams (afterAdding w examId (r :: rest))))
    as [e|]; [|congruence].
  eexists. reflexivity.
Qed.

Definition refOf (questionId : Id) : QuestionRef :=
  {| ref_questionId := questionId; ref_order := None; ref_points := None |}.

(** X6: [addQuestionsToExam] verifies the whole input before it writes:
    when one question of the input is missing or belongs to another
    teacher, the call fails with NotFound for the first such question and
    links nothing, also not the questions that come before it in the
    input. *)
Theorem addQuestionsToExam_is_all_or_nothing
  (w : World) (examId teacherId : Id) (exam : Exam)
  (input : list QuestionRef) :
  owns w examId teacherId exam ->
  exam_status exam = DRAFT ->
  (exists r, In r input
             /\ questionOwned w teacherId (ref_questionId r) = false) ->
  exists questionId,
    addQuestionsToExam examId teacherId input w
    = (Thrown (NotFoundError ("Question " ++ questionId)), w)
    /\ In questionId (map ref_questionId input)
    /\ questionOwned w teacherId questionId = false.
Proof.
  intros Ho Es Hbad.
  destruct (firstUnowned_some w teacherId input Hbad)
    as (questionId & Hf & Hq & Hin).
  exists questionId. split; [|auto].
  unfold addQuestionsToExam, findExamByIdAndTeacher.
  unfold bind at 1. unfold gets at 1. unfold owns in Ho. rewrite Ho, Es.
  cbn [ExamStatus_eqb negb]. unfold bind at 1.
  now rewrite verifyQuestions_run, Hf.
Qed.

Lemma addQuestionsToExam_is_all_or_nothing_witness :
  exists questionId,
    addQuestionsToExam "exam-draft" "guru-1"
      [refOf "q-essay"; refOf "q-stolen"; refOf "q-other"] Sample.school
    = (Thrown (NotFoundError ("Question " ++ questionId)), Sample.school)
    /\ In questionId
          (map ref_questionId
               [refOf "q-essay"; refOf "q-stolen"; refOf "q-other"])
    /\ questionOwned Sample.school "guru-1" questionId = false.
Proof.
  apply (addQuestionsToExam_is_all_or_nothing Sample.school "exam-draft"
           "guru-1" (Sample.exam "exam-draft" DRAFT false));
    [reflexivity | reflexivity |].
  exists (refOf "q-stolen"). split; [cbn; auto | reflexivity].
Defined.



Lemma linked_has_questions w examId questionId :
  linked w examId questionId = true -> linkedQuestions w examId <> [].
Proof.
  unfold linked, linkedQuestions. intros H Hnil.
  apply existsb_exists in H. destruct H as (l & Hl & Hk).
  apply andb_prop in Hk. destruct Hk as [He _].
  assert (Hin : In l (filter (fun q => eq_examId q =? examId)
                             (examQuestions w)))
    by (apply filter_In; auto).
  rewrite Hnil in Hin. destruct Hin.
Qed.

(** X9: a draft that has just been given questions can be started: after
    a successful [addQuestionsToExam], [updateExamStatus] to ONGOING by
    the owner returns the exam with status ONGOING. *)
Theorem exam_with_added_questions_starts
  (w : World) (examId teacherId : Id) (exam : Exam)
  (input : list QuestionRef) (now : Timestamp) :
  owns w examId teacherId exam ->
  exam_status exam = DRAFT ->
  input <> [] ->
  (forall r, In r input ->
             questionOwned w teacherId (ref_questionId r) = true) ->
  exists result w1 started w2,
    addQuestionsToExam examId teacherId input w
    = (Returned (Some result), w1)
    /\ updateExamStatus examId teacherId ONGOING now w1
       = (Returned (Some started), w2)
    /\ exam_status started = ONGOING.
Proof.
  intros Ho Es Hne Hall.
  pose proof (firstUnowned_none w teacherId input Hall) as Hu.
  destruct (addQuestionsToExam_run w examId teacherId exam input Ho Es Hne
              Hu) as (result & Hrun).
  assert (Ho' : owns (afterAdding w examId input) examId teacherId exam)
    by exact Ho.
  assert (Hq : linkedQuestions (afterAdding w examId input) examId <> []).
  { destruct input as [|r rest]; [congruence|].
    apply (linked_has_questions _ examId (ref_questionId r)).
    destruct (linkValues_covers examId (r :: rest) 0%Z r
                (or_introl eq_refl)) as (l & Hl & H1 & H2).
    unfold linked, afterAdding. cbn [examQuestions with_examQuestions].
    rewrite <- (linked_sameLink _ l examId (ref_questionId r) H1 H2).
    now apply inserted_are_present. }
  assert (Hal : allowed (exam_status exam) ONGOING)
    by (unfold allowed; rewrite Es; cbn; auto).
  destruct (updateExamStatus_admitted _ examId teacherId exam ONGOING now
              Ho' Hal ltac:(discriminate) (fun _ => Hq))
    as (started & w2 & Hrun2 & Hs & _).
  exists result, (afterAdding w examId input), started, w2. auto.
Qed.

Lemma exam_with_added_questions_starts_witness :
  exists result w1 started w2,
    addQuestionsToExam "exam-empty" "guru-1" [refOf "q-essay"] Sample.school
    = (Returned (Some result), w1)
    /\ updateExamStatus "exam-empty" "guru-1" ONGOING 100%Z w1
       = (Returned (Some started), w2)
    /\ exam_status started = ONGOING.
Proof.
  apply (exam_with_added_questions_starts Sample.school "exam-empty"
           "guru-1" (Sample.exam "exam-empty" DRAFT false));
    [reflexivity | reflexivity | discriminate |].
  intros r [<-|[]]; reflexivity.
Defined.

Lemma with_examQuestions_same w : with_examQuestions (examQuestions w) w = w.
Proof. destruct w; reflexivity. Qed.

Lemma not_linked_filter (table : list ExamQuestion) examId questionId :
  existsb (fun l => (eq_examId l =? examId)
                    && (eq_questionId l =? questionId)) table = false ->
  filter (fun l => negb ((eq_examId l =? examId)
                         && (eq_questionId l =? questionId))) table
  = table.
Proof.
  induction table as [|x t IH]; cbn; [reflexivity|].
  intros H. apply orb_false_iff in H. destruct H as [Hx Ht].
  rewrite Hx. cbn. now rewrite IH.
Qed.

(** X8: on an owned DRAFT exam [removeQuestionFromExam] always succeeds;
    afterwards the question is not linked to the exam (also when it was
    not linked before), every other (exam, question) pair is linked
    exactly when it was, and removing a question that
    [addQuestionsToExam] has just linked for the first time gives back
    the world from before the addition. *)
Theorem removeQuestionFromExam_unlinks_and_undoes_add
  (w : World) (examId teacherId questionId : Id) (exam : Exam) :
  owns w examId teacherId exam ->
  exam_status exam = DRAFT ->
  let r := removeQuestionFromExam examId teacherId questionId w in
  fst r = Returned true
  /\ linked (snd r) examId questionId = false
  /\ (forall e q, (e, q) <> (examId, questionId) ->
                  linked (snd r) e q = linked w e q)
  /\ (linked w examId questionId = false ->
      questionOwned w teacherId questionId = true ->
      snd (removeQuestionFromExam examId teacherId questionId
             (snd (addQuestionsToExam examId teacherId [refOf questionId]
                                      w)))
      = w).
Proof.
  intros Ho Es r. subst r.
  assert (Hrun : forall w0, owns w0 examId teacherId exam ->
            removeQuestionFromExam examId teacherId questionId w0
            = (Returned true,
               with_examQuestions
                 (filter (fun l => negb ((eq_examId l =? examId)
                                         && (eq_questionId l =? questionId)))
                         (examQuestions w0)) w0)).
  { intros w0 Ho0. unfold removeQuestionFromExam, findExamByIdAndTeacher.
    run. unfold owns in Ho0. now rewrite Ho0, Es. }
  rewrite (Hrun w Ho). cbn [fst snd]. split; [reflexivity|].
  split; [|split].
  - unfold linked. cbn [examQuestions with_examQuestions].
    induction (examQuestions w) as [|x t IH]; [reflexivity|]. cbn.
    destruct ((eq_examId x =? examId) && (eq_questionId x =? questionId))
      eqn:E; cbn; [exact IH | now rewrite E, IH].
  - intros e q Hneq. unfold linked. cbn [examQuestions with_examQuestions].
    induction (examQuestions w) as [|x t IH]; [reflexivity|]. cbn.
    destruct ((eq_examId x =? examId) && (eq_questionId x =? questionId))
      eqn:E; cbn; rewrite IH; [|reflexivity].
    apply andb_prop in E. destruct E as [E1 E2].
    apply String.eqb_eq in E1. apply String.eqb_eq in E2.
    destruct ((eq_examId x =? e) && (eq_questionId x =? q)) eqn:E';
      [|reflexivity].
    apply andb_prop in E'. destruct E' as [E3 E4].
    apply String.eqb_eq in E3. apply String.eqb_eq in E4.
    exfalso. apply Hneq. congruence.
  - intros Hl Hq.
    assert (Hu : firstUnowned w teacherId [refOf questionId] = None)
      by (cbn; now rewrite Hq).
    destruct (addQuestionsToExam_run w examId teacherId exam
                [refOf questionId] Ho Es ltac:(discriminate) Hu)
      as (result & Hadd).
    rewrite Hadd. cbn [snd].
    rewrite (Hrun (afterAdding w examId [refOf questionId]) Ho).
    set (v := {| eq_examId := examId; eq_questionId := questionId;
                 eq_order := Some 0%Z; eq_points := Some 1%float |}).
    assert (Hs : existsb (sameLink v) (examQuestions w) = false).
    { rewrite (linked_sameLink _ v examId questionId eq_refl eq_refl).
      exact Hl. }
    unfold afterAdding.
    cbn [snd examQuestions with_examQuestions linkValues refOf ref_order
         ref_points ref_questionId insertOnConflictDoNothing].
    fold v. rewrite Hs. rewrite filter_app.
    cbn [filter eq_examId eq_questionId v].
    rewrite !String.eqb_refl. cbn [andb negb].
    unfold linked in Hl.
    rewrite app_nil_r, (not_linked_filter _ _ _ Hl).
    destruct w; reflexivity.
Qed.

Lemma removeQuestionFromExam_unlinks_and_undoes_add_witness :
  let r := removeQuestionFromExam "exam-draft" "guru-1" "q-essay"
                                  Sample.school in
  fst r = Returned true
  /\ linked (snd r) "exam-draft" "q-essay" = false
  /\ (forall e q, (e, q) <> ("exam-draft", "q-essay") ->
                  linked (snd r) e q = linked Sample.school e q)
  /\ (linked Sample.school "exam-draft" "q-essay" = false ->
      questionOwned Sample.school "guru-1" "q-essay" = true ->
      snd (removeQuestionFromExam "exam-draft" "guru-1" "q-essay"
             (snd (addQuestionsToExam "exam-draft" "guru-1"
                     [refOf "q-essay"] Sample.school)))
      = Sample.school).
Proof.
  apply (removeQuestionFromExam_unlinks_and_undoes_add Sample.school
           "exam-draft" "guru-1" "q-essay"
           (Sample.exam "exam-draft" DRAFT false)); reflexivity.
Defined.

End ExamQuestions.

(** ** The life of an exam under sequences of operations *)

Module ExamLife.
Import examsRepository examsService examsRepositoryRest examsServiceRest.
Import Views LifecycleFacts.

Definition examIds (w : World) : list Id := map exam_id (exams w).

Definition statusOf (w : World) (examId : Id) : option ExamStatus :=
  option_map exam_status (find (fun e => exam_id e =? examId) (exams w)).

(** One step of the status of one exam: it stays, or it follows the
    transition table of [updateExamStatus]. *)
Definition staysOrMoves (s s' : ExamStatus) : Prop :=
  s' = s \/ In s' (validTransitions s).

(** What a status operation may do to the world: nothing to the exams, or
    one admitted move of the exam that the caller owns; in both cases the
    links are left alone. *)
Definition moved (w w' : World) : Prop :=
  examQuestions w' = examQuestions w
  /\ (exams w' = exams w
      \/ exists examId teacherId exam patch now target,
           owns w examId teacherId exam
           /\ In target (validTransitions (exam_status exam))
           /\ (exam_status exam = DRAFT -> linkedQuestions w examId <> [])
           /\ set_status patch = Some target
           /\ exams w' = map (fun e => if exam_id e =? examId
                                       then applyExamPatch patch now e
                                       else e) (exams w)).

(** What an operation on the links may do: nothing, or change the links of
    one DRAFT exam that the caller owns. *)
Definition relinked (w w' : World) : Prop :=
  exams w' = exams w
  /\ (examQuestions w' = examQuestions w
      \/ exists examId teacherId exam,
           owns w examId teacherId exam
           /\ exam_status exam = DRAFT
           /\ forall other, other <> examId ->
                linkedQuestions w' other = linkedQuestions w other).

Ltac name_run r Hr :=
  match goal with
  | |- context [snd ?t] => remember t as r eqn:Hr
  end.

Lemma moved_nothing w : moved w w.
Proof. split; auto. Qed.

Lemma moved_updateExamStatus w examId teacherId target now :
  moved w (snd (updateExamStatus examId teacherId target now w)).
Proof.
  name_run r Hr. unfold updateExamStatus, findExamByIdAndTeacher in Hr.
  unfold bind at 1 in Hr. unfold gets at 1 in Hr.
  destruct (find _ (exams w)) as [exam|] eqn:Ho;
    [|subst r; apply moved_nothing].
  destruct (includes target (validTransitions (exam_status exam))) eqn:Ei;
    [|subst r; apply moved_nothing].
  apply includes_allowed in Ei. unfold allowed in Ei. cbn [negb] in Hr.
  assert (Hmove : forall patch w1,
            examQuestions w1 = examQuestions w -> exams w1 = exams w ->
            set_status patch = Some target ->
            (exam_status exam = DRAFT -> linkedQuestions w examId <> []) ->
            moved w (snd (updateExam examId patch now w1))).
  { intros patch w1 Hq He Hp Hd. unfold updateExam, refusedByColumn.
    rewrite Hp. destruct (columnAccepts target);
      [|split; [exact Hq | left; exact He]].
    unfold bind, gets, modify, ret. cbn.
    split; [exact Hq|]. right. cbn. rewrite He.
    exists examId, teacherId, exam, patch, now, target.
    repeat (split; [assumption|]). reflexivity. }
  destruct (exam_status exam) eqn:Hs; destruct target; cbn in Ei;
    try (exfalso; intuition discriminate);
    cbn [ExamStatus_eqb andb] in Hr.
  - unfold getExamQuestions in Hr. unfold bind at 1 in Hr.
    unfold bind at 1 in Hr. unfold bind at 1 in Hr. unfold gets at 1 in Hr.
    destruct (filter (fun q => eq_examId q =? examId) (examQuestions w))
      as [|q0 qs] eqn:Eq; [subst r; apply moved_nothing|].
    cbn [List.length Nat.eqb] in Hr. unfold bind at 1 in Hr.
    destruct (upsertStatistics_run examId zeroStatistics now w)
      as (row & stats' & Hrun & _).
    rewrite Hrun in Hr. unfold broadcastExamStart in Hr.
    unfold modify at 1 in Hr. unfold ret at 1 in Hr. subst r.
    apply Hmove; try reflexivity.
    intros _. unfold linkedQuestions. rewrite Eq. discriminate.
  - unfold broadcastExamEnd in Hr.
    unfold bind at 1 in Hr. unfold bind at 1 in Hr. unfold ret at 1 in Hr.
    unfold modify at 1 in Hr. subst r.
    apply Hmove; try reflexivity. discriminate.
  - unfold bind at 1 in Hr. unfold bind at 1 in Hr. unfold ret at 1 in Hr.
    unfold ret at 1 in Hr. subst r.
    apply Hmove; try reflexivity. discriminate.
  - unfold bind at 1 in Hr. unfold bind at 1 in Hr. unfold ret at 1 in Hr.
    unfold ret at 1 in Hr. subst r.
    apply Hmove; try reflexivity. discriminate.
Qed.

Lemma moved_publishExam w examId teacherId now :
  moved w (snd (publishExam examId teacherId now w)).
Proof.
  name_run r Hr. unfold publishExam, findExamByIdAndTeacher in Hr.
  unfold bind at 1 in Hr. unfold gets at 1 in Hr.
  destruct (find _ (exams w)) as [exam|] eqn:Ho;
    [|subst r; apply moved_nothing].
  destruct (ExamStatus_eqb (exam_status exam) DRAFT) eqn:Ed;
    [|subst r; apply moved_nothing].
  cbn [negb] in Hr. unfold getExamQuestions in Hr.
  unfold bind at 1 in Hr. unfold gets at 1 in Hr.
  destruct (filter (fun q => eq_examId q =? examId) (examQuestions w))
    as [|q0 qs] eqn:Eq; [subst r; apply moved_nothing|].
  cbn [List.length Nat.eqb] in Hr. unfold updateExam, refusedByColumn in Hr.
  cbn [set_status columnAccepts examStatusEnum existsb ExamStatus_eqb orb]
    in Hr.
  unfold bind at 1 in Hr. unfold bind at 1 in Hr. unfold modify at 1 in Hr.
  unfold gets at 1 in Hr. unfold bind at 1 in Hr.
  match type of Hr with
  | context [upsertStatistics examId zeroStatistics now ?w1] =>
      destruct (upsertStatistics_run examId zeroStatistics now w1)
        as (row & stats' & Hrun & _)
  end.
  rewrite Hrun in Hr. unfold broadcastExamStart in Hr.
  unfold bind, gets, modify, ret in Hr. cbn in Hr. subst r.
  split; [reflexivity|]. right.
  eexists examId, teacherId, exam, _, now, ONGOING.
  split; [exact Ho|].
  assert (Hs : exam_status exam = DRAFT)
    by (destruct (exam_status exam); (reflexivity || discriminate)).
  split; [rewrite Hs; cbn; auto|].
  split; [unfold linkedQuestions; rewrite Eq; discriminate|].
  split; [|reflexivity]. reflexivity.
Qed.

Lemma moved_endExam w examId teacherId now :
  moved w (snd (endExam examId teacherId now w)).
Proof.
  name_run r Hr. unfold endExam, findExamByIdAndTeacher in Hr.
  unfold bind at 1 in Hr. unfold gets at 1 in Hr.
  destruct (find _ (exams w)) as [exam|] eqn:Ho;
    [|subst r; apply moved_nothing].
  destruct (ExamStatus_eqb (exam_status exam) ONGOING) eqn:Ed;
    [|subst r; apply moved_nothing].
  cbn [negb] in Hr. unfold updateExam, broadcastExamEnd in Hr.
  unfold bind, gets, modify, ret in Hr. cbn in Hr. subst r.
  split; [reflexivity|]. right.
  eexists examId, teacherId, exam, _, now, FINISHED.
  split; [exact Ho|].
  assert (Hs : exam_status exam = ONGOING)
    by (destruct (exam_status exam); (reflexivity || discriminate)).
  split; [rewrite Hs; cbn; auto|].
  split; [rewrite Hs; discriminate|]. split; [|reflexivity]. reflexivity.
Qed.

Lemma other_links_after_insert values table examId other :
  (forall l, In l values -> eq_examId l = examId) ->
  other <> examId ->
  filter (fun q => eq_examId q =? other)
         (insertOnConflictDoNothing values table)
  = filter (fun q => eq_examId q =? other) table.
Proof.
  intros Hv Hneq.
  destruct (ExamQuestions.insert_extends values table)
    as (added & -> & Hincl).
  rewrite filter_app.
  assert (Hnone : filter (fun q => eq_examId q =? other) added = []).
  { clear - Hv Hneq Hincl. induction added as [|a t IH]; [reflexivity|].
    cbn. rewrite (Hv a (Hincl a (or_introl eq_refl))).
    assert (E : (examId =? other) = false)
      by (apply String.eqb_neq; congruence).
    rewrite E. apply IH. intros x Hx. apply Hincl. now right. }
  now rewrite Hnone, app_nil_r.
Qed.

Lemma relinked_nothing w : relinked w w.
Proof. split; auto. Qed.

Lemma relinked_addQuestionsToExam w examId teacherId input :
  relinked w (snd (addQuestionsToExam examId teacherId input w)).
Proof.
  name_run r Hr. unfold addQuestionsToExam, findExamByIdAndTeacher in Hr.
  unfold bind at 1 in Hr. unfold gets at 1 in Hr.
  destruct (find _ (exams w)) as [exam|] eqn:Ho;
    [|subst r; apply relinked_nothing].
  destruct (ExamStatus_eqb (exam_status exam) DRAFT) eqn:Ed;
    [|subst r; apply relinked_nothing].
  cbn [negb] in Hr. unfold bind at 1 in Hr.
  rewrite ExamQuestions.verifyQuestions_run in Hr.
  destruct (ExamQuestions.firstUnowned w teacherId input);
    [subst r; apply relinked_nothing|].
  unfold bind at 1 in Hr.
  unfold examsRepositoryRest.addQuestionsToExam in Hr.
  destruct input as [|q rest]; [subst r; apply relinked_nothing|].
  unfold modify, findExamWithQuestions, gets in Hr. subst r. cbn [snd].
  split; [reflexivity|]. right. exists examId, teacherId, exam.
  split; [exact Ho|].
  split; [destruct (exam_status exam); (reflexivity || discriminate)|].
  intros other Hneq. unfold linkedQuestions.
  cbn [examQuestions with_examQuestions].
  apply (other_links_after_insert _ _ examId); [|exact Hneq].
  intros l Hl. apply (ExamQuestions.linkValues_exam _ _ _ _ Hl).
Qed.

Lemma relinked_removeQuestionFromExam w examId teacherId questionId :
  relinked w (snd (removeQuestionFromExam examId teacherId questionId w)).
Proof.
  name_run r Hr. unfold removeQuestionFromExam, findExamByIdAndTeacher in Hr.
  unfold bind at 1 in Hr. unfold gets at 1 in Hr.
  destruct (find _ (exams w)) as [exam|] eqn:Ho;
    [|subst r; apply relinked_nothing].
  destruct (ExamStatus_eqb (exam_status exam) DRAFT) eqn:Ed;
    [|subst r; apply relinked_nothing].
  cbn [negb] in Hr.
  unfold examsRepositoryRest.removeQuestionFromExam in Hr.
  unfold bind, modify, ret in Hr. subst r. cbn [snd].
  split; [reflexivity|]. right. exists examId, teacherId, exam.
  split; [exact Ho|].
  split; [destruct (exam_status exam); (reflexivity || discriminate)|].
  intros other Hneq. unfold linkedQuestions.
  cbn [examQuestions with_examQuestions].
  induction (examQuestions w) as [|x t IH]; [reflexivity|]. cbn.
  destruct (eq_examId x =? examId) eqn:E1; cbn.
  - apply String.eqb_eq in E1.
    assert (E2 : (eq_examId x =? other) = false)
      by (apply String.eqb_neq; congruence).
    destruct (eq_questionId x =? questionId); cbn; rewrite ?E2; exact IH.
  - destruct (eq_examId x =? other); [now rewrite IH | exact IH].
Qed.

(** *** Operations that leave the exams and their links alone *)

Definition leavesExams {A} (m : M A) : Prop :=
  forall w, exams (snd (m w)) = exams w
            /\ examQuestions (snd (m w)) = examQuestions w.

Lemma leaves_ret {A} (a : A) : leavesExams (ret a).
Proof. intros w. split; reflexivity. Qed.

Lemma leaves_throw {A} e : leavesExams (@throw A e).
Proof. intros w. split; reflexivity. Qed.

Lemma leaves_gets {A} (f : World -> A) : leavesExams (gets f).
Proof. intros w. split; reflexivity. Qed.

Lemma leaves_modify (f : World -> World) :
  (forall w, exams (f w) = exams w /\ examQuestions (f w) = examQuestions w) ->
  leavesExams (modify f).
Proof. intros Hf w. exact (Hf w). Qed.

Lemma leaves_bind {A B} (m : M A) (k : A -> M B) :
  leavesExams m -> (forall a, leavesExams (k a)) -> leavesExams (bind m k).
Proof.
  intros Hm Hk w. unfold bind. destruct (Hm w) as [He Hq].
  destruct (m w) as [[a|e] w1]; cbn [snd] in *.
  - destruct (Hk a w1) as [He1 Hq1]. split; congruence.
  - split; assumption.
Qed.

Ltac leaves :=
  repeat first
    [ apply leaves_ret | apply leaves_throw | apply leaves_gets
    | apply leaves_bind; [|intros ?]
    | apply leaves_modify; intros ?; split; reflexivity
    | match goal with
      | |- leavesExams (match ?x with _ => _ end) => destruct x
      end
    | progress cbv zeta ].

Lemma leaves_upsertStatistics examId data now :
  leavesExams (upsertStatistics examId data now).
Proof. unfold upsertStatistics, getStatistics. leaves. Qed.

Lemma leaves_upsertAnswer participantId questionId data newId now :
  leavesExams (upsertAnswer participantId questionId data newId now).
Proof. unfold upsertAnswer. leaves. Qed.

Lemma leaves_batchLoop participantId inputs now :
  leavesExams (batchLoop participantId inputs now).
Proof.
  induction inputs as [|[input newId] rest IH]; cbn [batchLoop].
  - apply leaves_ret.
  - apply leaves_bind; [apply leaves_upsertAnswer|]. intros answer.
    apply leaves_bind; [exact IH|]. intros results. apply leaves_ret.
Qed.

Lemma leaves_joinExam startSession examId studentId studentName newId now :
  leavesExams (joinExam startSession examId studentId studentName newId now).
Proof.
  unfold joinExam, findExamById, findParticipant, createParticipant,
    getStatistics.
  leaves; apply leaves_upsertStatistics.
Qed.

Lemma leaves_submitAnswer examId studentId input newId now :
  leavesExams (submitAnswer examId studentId input newId now).
Proof.
  unfold submitAnswer, findParticipant, getExamQuestions.
  leaves; apply leaves_upsertAnswer.
Qed.

Lemma leaves_batchSubmitAnswers examId studentId inputs now :
  leavesExams (batchSubmitAnswers examId studentId inputs now).
Proof.
  unfold batchSubmitAnswers, findParticipant.
  leaves; apply leaves_batchLoop.
Qed.

Lemma leaves_endProctoring endSession participant :
  leavesExams (endProctoring endSession participant).
Proof.
  intros w. rewrite MoreParticipation.endProctoring_run.
  split; reflexivity.
Qed.

Lemma leaves_finishExam endSession examId studentId now :
  leavesExams (finishExam endSession examId studentId now).
Proof.
  unfold finishExam, findExamById, findParticipant, updateParticipant,
    getStatistics.
  leaves; (apply leaves_endProctoring || apply leaves_upsertStatistics).
Qed.

Lemma leaves_moved {A} (m : M A) w : leavesExams m -> moved w (snd (m w)).
Proof. intros H. destruct (H w) as [He Hq]. split; auto. Qed.

(** *** Requests and runs *)

(** The requests of the exam routes that are modelled here, with the
    arguments the service method gets. *)
Inductive Command :=
| UpdateExamStatus (examId teacherId : Id) (newStatus : ExamStatus)
| PublishExam (examId teacherId : Id)
| EndExam (examId teacherId : Id)
| AddQuestionsToExam (examId teacherId : Id) (input : list QuestionRef)
| RemoveQuestionFromExam (examId teacherId questionId : Id)
| JoinExam (startSession : StartSession) (examId studentId : Id)
           (studentName : string) (newId : Id)
| SubmitAnswer (examId studentId : Id) (input : SubmitAnswerInput)
               (newId : Id)
| BatchSubmitAnswers (examId studentId : Id)
                     (inputs : list (SubmitAnswerInput * Id))
| FinishExam (endSession : EndSession) (examId studentId : Id).

(** The world after one request served at time [now]; a request that is
    refused leaves what it wrote before the error. *)
Definition exec (c : Command) (now : Timestamp) (w : World) : World :=
  match c with
  | UpdateExamStatus examId teacherId newStatus =>
      snd (updateExamStatus examId teacherId newStatus now w)
  | PublishExam examId teacherId =>
      snd (publishExam examId teacherId now w)
  | EndExam examId teacherId =>
      snd (endExam examId teacherId now w)
  | AddQuestionsToExam examId teacherId input =>
      snd (addQuestionsToExam examId teacherId input w)
  | RemoveQuestionFromExam examId teacherId questionId =>
      snd (removeQuestionFromExam examId teacherId questionId w)
  | JoinExam startSession examId studentId studentName newId =>
      snd (joinExam startSession examId studentId studentName newId now w)
  | SubmitAnswer examId studentId input newId =>
      snd (submitAnswer examId studentId input newId now w)
  | BatchSubmitAnswers examId studentId inputs =>
      snd (batchSubmitAnswers examId studentId inputs now w)
  | FinishExam endSession examId studentId =>
      snd (finishExam endSession examId studentId now w)
  end.

Fixpoint execAll (cs : list (Command * Timestamp)) (w : World) : World :=
  match cs with
  | [] => w
  | (c, now) :: rest => execAll rest (exec c now w)
  end.

Lemma exec_shape c now w :
  moved w (exec c now w) \/ relinked w (exec c now w).
Proof.
  destruct c; cbn [exec].
  - left. apply moved_updateExamStatus.
  - left. apply moved_publishExam.
  - left. apply moved_endExam.
  - right. apply relinked_addQuestionsToExam.
  - right. apply relinked_removeQuestionFromExam.
  - left. apply leaves_moved, leaves_joinExam.
  - left. apply leaves_moved, leaves_submitAnswer.
  - left. apply leaves_moved, leaves_batchSubmitAnswers.
  - left. apply leaves_moved, leaves_finishExam.
Qed.

(** *** The invariants *)

(** Every exam that has left DRAFT has a linked question. *)
Definition startedHaveQuestions (w : World) : Prop :=
  forall e, In e (exams w) -> exam_status e <> DRAFT ->
            linkedQuestions w (exam_id e) <> [].

(** The statuses that the transition table reaches in any number of
    moves. *)
Inductive reachable : ExamStatus -> ExamStatus -> Prop :=
| reach_here s : reachable s s
| reach_move s t u :
    reachable s t -> In u (validTransitions t) -> reachable s u.

Lemma applyExamPatch_id patch now e :
  exam_id (applyExamPatch patch now e) = exam_id e.
Proof. reflexivity. Qed.

Lemma patched_ids examId patch now l :
  map exam_id (map (fun e => if exam_id e =? examId
                             then applyExamPatch patch now e else e) l)
  = map exam_id l.
Proof.
  apply map_key_preserved. intros e.
  destruct (exam_id e =? examId); reflexivity.
Qed.

Lemma owns_row w examId teacherId exam :
  owns w examId teacherId exam -> In exam (exams w) /\ exam_id exam = examId.
Proof.
  intros Ho. apply find_some in Ho. destruct Ho as [Hin Hb].
  apply andb_prop in Hb. destruct Hb as [Hb _].
  apply String.eqb_eq in Hb. auto.
Qed.

Lemma exec_keeps_ids c now w : examIds (exec c now w) = examIds w.
Proof.
  unfold examIds.
  destruct (exec_shape c now w) as [[_ [He|H]]|[He _]];
    try (now rewrite He).
  destruct H as (examId & teacherId & exam & patch & t & target & H).
  destruct H as (_ & _ & _ & _ & He). rewrite He. apply patched_ids.
Qed.

Lemma execAll_keeps_ids cs w : examIds (execAll cs w) = examIds w.
Proof.
  revert w. induction cs as [|[c now] rest IH]; intros w; cbn [execAll].
  - reflexivity.
  - rewrite IH. apply exec_keeps_ids.
Qed.

Lemma exec_keeps_started c now w :
  NoDup (examIds w) -> startedHaveQuestions w ->
  startedHaveQuestions (exec c now w).
Proof.
  intros Hn Hinv.
  destruct (exec_shape c now w) as [[Hq [He|H]]|[He [Hq|H]]].
  - intros e Hin. unfold linkedQuestions. rewrite Hq.
    rewrite He in Hin. exact (Hinv e Hin).
  - destruct H as (examId & teacherId & exam & patch & t & target & H).
    destruct H as (Ho & _ & Hd & _ & He).
    destruct (owns_row _ _ _ _ Ho) as [Hin0 Hid0].
    intros e Hin. unfold linkedQuestions. rewrite Hq.
    rewrite He in Hin. apply in_map_iff in Hin.
    destruct Hin as (e0 & <- & Hin).
    destruct (exam_id e0 =? examId) eqn:E; [|exact (Hinv e0 Hin)].
    intros _. rewrite applyExamPatch_id. apply String.eqb_eq in E.
    rewrite E. destruct (ExamStatus_eqb (exam_status exam) DRAFT) eqn:Es.
    + apply Hd. destruct (exam_status exam); (reflexivity || discriminate).
    + rewrite <- Hid0. apply (Hinv exam Hin0). intros Hs.
      rewrite Hs in Es. discriminate.
  - intros e Hin. unfold linkedQuestions. rewrite Hq.
    rewrite He in Hin. exact (Hinv e Hin).
  - destruct H as (examId & teacherId & exam & Ho & Hs & Hother).
    destruct (owns_row _ _ _ _ Ho) as [Hin0 Hid0].
    intros e Hin Hne. rewrite He in Hin.
    destruct (String.eqb_spec (exam_id e) examId) as [E|E].
    + exfalso. apply Hne.
      rewrite (unique_key_row exam_id (exams w) e exam Hn Hin Hin0);
        [exact Hs | congruence].
    + rewrite (Hother _ E). exact (Hinv e Hin Hne).
Qed.

Lemma find_by_id_owned w examId teacherId exam :
  NoDup (examIds w) -> owns w examId teacherId exam ->
  find (fun e => exam_id e =? examId) (exams w) = Some exam.
Proof.
  intros Hn Ho. destruct (owns_row _ _ _ _ Ho) as [Hin Hid].
  destruct (find (fun e => exam_id e =? examId) (exams w)) as [e|] eqn:F.
  - apply find_some in F. destruct F as [Hin' Hb].
    apply String.eqb_eq in Hb. f_equal.
    apply (unique_key_row exam_id (exams w) e exam Hn Hin' Hin). congruence.
  - exfalso. apply (find_none _ _ F) in Hin.
    rewrite Hid, String.eqb_refl in Hin. discriminate.
Qed.

Lemma exec_status_step c now w examId s :
  NoDup (examIds w) -> statusOf w examId = Some s ->
  exists s', statusOf (exec c now w) examId = Some s' /\ staysOrMoves s s'.
Proof.
  intros Hn Hs. unfold statusOf in *.
  destruct (exec_shape c now w) as [[_ [He|H]]|[He _]].
  - rewrite He. exists s. split; [exact Hs | now left].
  - destruct H as (eid & teacherId & exam & patch & t & target & H).
    destruct H as (Ho & Ht & _ & Hp & He). rewrite He.
    rewrite find_map_preserve
      by (intros a; destruct (exam_id a =? eid); reflexivity).
    destruct (find (fun e => exam_id e =? examId) (exams w)) as [e|] eqn:F;
      [|discriminate].
    cbn [option_map] in *. injection Hs as Hs.
    destruct (exam_id e =? eid) eqn:E.
    + exists target. split.
      * unfold applyExamPatch. cbn [exam_status]. now rewrite Hp.
      * right. apply find_some in F. destruct F as [Hin Hb].
        apply String.eqb_eq in Hb. apply String.eqb_eq in E.
        assert (Hx : find (fun e => exam_id e =? eid) (exams w) = Some exam)
          by (apply (find_by_id_owned _ _ teacherId); assumption).
        apply find_some in Hx. destruct Hx as [Hin' _].
        destruct (owns_row _ _ _ _ Ho) as [_ Hid].
        assert (e = exam)
          by (apply (unique_key_row exam_id (exams w) e exam Hn Hin Hin');
              congruence).
        subst e. now rewrite <- Hs.
    + exists s. split; [now rewrite Hs | now left].
  - rewrite He. exists s. split; [exact Hs | now left].
Qed.

Lemma reachable_published s : reachable PUBLISHED s -> s = PUBLISHED.
Proof.
  intros H. remember PUBLISHED as p eqn:Hp.
  induction H as [|s t u _ IH Hin]; [reflexivity|].
  specialize (IH Hp). subst. cbn in Hin. destruct Hin.
Qed.

Lemma reachable_not_draft s s' : reachable s s' -> s <> DRAFT -> s' <> DRAFT.
Proof.
  intros H Hs. induction H as [|s t u _ IH Hin]; [exact Hs|].
  destruct t; cbn in Hin; intuition congruence.
Qed.

(** X10: along any run of status changes, publish, end, link and unlink
    requests and student requests, in a table with one row per exam id,
    every exam that is not DRAFT keeps at least one linked question. *)
Theorem started_exams_keep_their_questions cs w :
  NoDup (examIds w) -> startedHaveQuestions w ->
  startedHaveQuestions (execAll cs w).
Proof.
  revert w. induction cs as [|[c now] rest IH]; intros w Hn Hinv;
    cbn [execAll]; [exact Hinv|].
  apply IH.
  - rewrite exec_keeps_ids. exact Hn.
  - apply exec_keeps_started; assumption.
Qed.

(** X11: along any run of requests the status of an exam is one the
    transition table reaches from where it was: the exam is never lost, a
    PUBLISHED exam stays PUBLISHED and an exam that left DRAFT never
    returns to it. *)
Theorem status_only_follows_the_table cs w examId s :
  NoDup (examIds w) -> statusOf w examId = Some s ->
  exists s', statusOf (execAll cs w) examId = Some s'
             /\ reachable s s'
             /\ (s = PUBLISHED -> s' = PUBLISHED)
             /\ (s <> DRAFT -> s' <> DRAFT).
Proof.
  intros Hn Hs.
  assert (H : exists s', statusOf (execAll cs w) examId = Some s'
                         /\ reachable s s').
  { assert (G : forall w t, NoDup (examIds w) -> reachable s t ->
                  statusOf w examId = Some t ->
                  exists s', statusOf (execAll cs w) examId = Some s'
                             /\ reachable s s').
    { induction cs as [|[c now] rest IH]; intros w0 t Hn0 Hr Ht;
        cbn [execAll].
      - exists t. auto.
      - destruct (exec_status_step c now w0 examId t Hn0 Ht)
          as (t' & Ht' & [->|Hm]).
        + apply (IH _ t); [now rewrite exec_keeps_ids | exact Hr | exact Ht'].
        + apply (IH _ t'); [now rewrite exec_keeps_ids | | exact Ht'].
          apply (reach_move s t t'); assumption. }
    apply (G w s); [exact Hn | constructor | exact Hs]. }
  destruct H as (s' & Hs' & Hr). exists s'.
  split; [exact Hs'|]. split; [exact Hr|]. split.
  - intros ->. now apply reachable_published.
  - now apply reachable_not_draft.
Qed.

Lemma started_exams_keep_their_questions_witness :
  startedHaveQuestions
    (execAll [(PublishExam "exam-empty" "guru-1", 60%Z);
              (PublishExam "exam-draft" "guru-1", 61%Z);
              (RemoveQuestionFromExam "exam-draft" "guru-1" "q-pg", 62%Z);
              (UpdateExamStatus "exam-live" "guru-1" FINISHED, 63%Z)]
             Sample.school).
Proof.
  apply started_exams_keep_their_questions.
  - repeat (constructor;
            [cbn; intuition (try discriminate; try congruence)|]).
    constructor.
  - intros e Hin. cbn in Hin.
    destruct Hin as [<-|[<-|[<-|[<-|[]]]]]; cbn; intros H;
      (congruence || discriminate).
Defined.

Lemma status_only_follows_the_table_witness :
  exists s',
    statusOf (execAll [(UpdateExamStatus "exam-over" "guru-1" PUBLISHED, 60%Z);
                       (UpdateExamStatus "exam-over" "guru-1" ONGOING, 61%Z);
                       (EndExam "exam-over" "guru-1", 62%Z)]
                      Sample.school) "exam-over" = Some s'
    /\ reachable FINISHED s'
    /\ (FINISHED = PUBLISHED -> s' = PUBLISHED)
    /\ (FINISHED <> DRAFT -> s' <> DRAFT).
Proof.
  apply status_only_follows_the_table.
  - repeat (constructor;
            [cbn; intuition (try discriminate; try congruence)|]).
    constructor.
  - reflexivity.
Defined.

(** X12: with one row per exam id, publishing an owned DRAFT exam that has
    questions is the status change to ONGOING, and ending an owned ONGOING
    exam is the status change to FINISHED: same result, same world. *)
Theorem publish_and_end_are_status_changes w examId teacherId exam now :
  NoDup (examIds w) -> owns w examId teacherId exam ->
  (exam_status exam = DRAFT -> linkedQuestions w examId <> [] ->
   publishExam examId teacherId now w
   = updateExamStatus examId teacherId ONGOING now w)
  /\ (exam_status exam = ONGOING ->
      endExam examId teacherId now w
      = updateExamStatus examId teacherId FINISHED now w).
Proof.
  intros Hn Ho.
  assert (Hrow : forall e, In e (exams w) -> exam_id e = examId -> e = exam).
  { intros e Hin Hid. destruct (owns_row _ _ _ _ Ho) as [Hin0 Hid0].
    apply (unique_key_row exam_id (exams w) e exam Hn Hin Hin0). congruence. }
  split.
  - intros Hs Hq. unfold owns in Ho. unfold linkedQuestions in Hq.
    assert (HL :
      map (fun e => if exam_id e =? examId
                    then applyExamPatch
                           {| set_status := Some ONGOING;
                              set_startTime :=
                                Some (match exam_startTime exam with
                                      | Some t => t | None => now end);
                              set_endTime := None |} now e
                    else e) (exams w)
      = map (fun e => if exam_id e =? examId
                      then applyExamPatch
                             {| set_status := Some ONGOING;
                                set_startTime :=
                                  if negb (isSome (exam_startTime exam))
                                  then Some now else None;
                                set_endTime := None |} now e
                      else e) (exams w)).
    { apply map_ext_in. intros e Hin.
      destruct (exam_id e =? examId) eqn:E; [|reflexivity].
      apply String.eqb_eq in E. rewrite (Hrow e Hin E).
      unfold applyExamPatch. cbn.
      destruct (exam_startTime exam); reflexivity. }
    unfold publishExam, updateExamStatus, findExamByIdAndTeacher,
      getExamQuestions, upsertStatistics, getStatistics, updateExam,
      refusedByColumn, broadcastExamStart, broadcastExamEnd.
    unfold bind, gets, modify, ret, throw. rewrite Ho, Hs.
    cbn [ExamStatus_eqb negb includes validTransitions andb existsb orb
         set_status columnAccepts examStatusEnum].
    destruct (filter (fun q => eq_examId q =? examId) (examQuestions w))
      as [|q0 qs] eqn:Eq; [congruence|].
    cbn [List.length Nat.eqb]. cbn [examStatistics with_exams].
    rewrite HL.
    destruct (find (fun s => stat_examId s =? examId) (examStatistics w));
      reflexivity.
  - intros Hs. unfold owns in Ho.
    unfold endExam, updateExamStatus, findExamByIdAndTeacher,
      updateExam, refusedByColumn, broadcastExamEnd.
    unfold bind, gets, modify, ret, throw. rewrite Ho, Hs.
    cbn [ExamStatus_eqb negb includes validTransitions andb existsb orb
         set_status columnAccepts examStatusEnum].
    reflexivity.
Qed.

Lemma publish_and_end_are_status_changes_witness :
  (exam_status (Sample.exam "exam-draft" DRAFT false) = DRAFT ->
   linkedQuestions Sample.school "exam-draft" <> [] ->
   publishExam "exam-draft" "guru-1" 60%Z Sample.school
   = updateExamStatus "exam-draft" "guru-1" ONGOING 60%Z Sample.school)
  /\ (exam_status (Sample.exam "exam-draft" DRAFT false) = ONGOING ->
      endExam "exam-draft" "guru-1" 60%Z Sample.school
      = updateExamStatus "exam-draft" "guru-1" FINISHED 60%Z Sample.school).
Proof.
  apply publish_and_end_are_status_changes.
  - repeat (constructor;
            [cbn; intuition (try discriminate; try congruence)|]).
    constructor.
  - reflexivity.
Defined.

End ExamLife.

(** ** Scoring: statistics, manual scores, the trigger *)

Module ScoreStatistics.
Import examsRepository scoringService Views LifecycleFacts.

(** *** The order of doubles *)

Lemma SFltb_asym a b : SFltb a b = true -> SFltb b a = false.
Proof.
  unfold SFltb, SFcompare.
  destruct a as [[]|[]| |[] m1 e1], b as [[]|[]| |[] m2 e2];
    try discriminate; try reflexivity;
    rewrite (Z.compare_antisym e1 e2);
    destruct (e1 ?= e2)%Z; cbn; try discriminate; try reflexivity;
    fold (Pos.compare m1 m2); fold (Pos.compare m2 m1);
    rewrite (Pos.compare_antisym m1 m2);
    destruct (m1 ?= m2)%positive; cbn; try discriminate; reflexivity.
Qed.

Lemma SFltb_chain a b c :
  b <> S754_nan ->
  SFltb a b = false -> SFltb b c = false -> SFltb a c = false.
Proof.
  unfold SFltb, SFcompare. intros Hb.
  destruct a as [[]|[]| |[] m1 e1], b as [[]|[]| |[] m2 e2],
           c as [[]|[]| |[] m3 e3];
    try discriminate; try reflexivity; try congruence;
    repeat match goal with
    | |- context [Pcompare ?a ?b Eq] => fold (Pos.compare a b)
    end;
    try destruct (Z.compare_spec e1 e2); try destruct (Z.compare_spec e2 e3);
    try destruct (Z.compare_spec e1 e3);
    try discriminate; try reflexivity; try lia;
    try destruct (Pos.compare_spec m1 m2);
    try destruct (Pos.compare_spec m2 m3);
    try destruct (Pos.compare_spec m1 m3);
    cbn; try discriminate; try reflexivity; try lia.
Qed.

Lemma number_spec x : PrimFloat.is_nan x = false -> Prim2SF x <> S754_nan.
Proof.
  unfold PrimFloat.is_nan. rewrite FloatAxioms.eqb_spec. intros H E.
  rewrite E in H. discriminate.
Qed.

Lemma ltb_asym x y : PrimFloat.ltb x y = true -> PrimFloat.ltb y x = false.
Proof. rewrite !FloatAxioms.ltb_spec. apply SFltb_asym. Qed.

Lemma ltb_irrefl x : PrimFloat.ltb x x = false.
Proof.
  destruct (PrimFloat.ltb x x) eqn:E; [|reflexivity].
  pose proof (ltb_asym _ _ E). congruence.
Qed.

Lemma ltb_chain x y z :
  PrimFloat.is_nan y = false ->
  PrimFloat.ltb x y = false -> PrimFloat.ltb y z = false ->
  PrimFloat.ltb x z = false.
Proof.
  intros Hy. rewrite !FloatAxioms.ltb_spec.
  apply SFltb_chain, number_spec, Hy.
Qed.

Lemma nothing_below_neg_infinity x :
  PrimFloat.ltb x PrimFloat.neg_infinity = false.
Proof.
  rewrite FloatAxioms.ltb_spec.
  change (Prim2SF PrimFloat.neg_infinity) with (S754_infinity true).
  destruct (Prim2SF x) as [[]|[]| |[] m e]; reflexivity.
Qed.

Lemma nothing_above_infinity x :
  PrimFloat.ltb PrimFloat.infinity x = false.
Proof.
  rewrite FloatAxioms.ltb_spec.
  change (Prim2SF PrimFloat.infinity) with (S754_infinity false).
  destruct (Prim2SF x) as [[]|[]| |[] m e]; reflexivity.
Qed.

(** *** [Math.max] and [Math.min] *)

Definition someNaN (l : list float) : Prop :=
  exists s, In s l /\ PrimFloat.is_nan s = true.

Lemma maxOfTwo_spec a b :
  (maxOfTwo a b = a \/ maxOfTwo a b = b)
  /\ (PrimFloat.is_nan (maxOfTwo a b) = true
      <-> PrimFloat.is_nan a = true \/ PrimFloat.is_nan b = true)
  /\ (PrimFloat.is_nan (maxOfTwo a b) = false ->
      PrimFloat.ltb (maxOfTwo a b) a = false
      /\ PrimFloat.ltb (maxOfTwo a b) b = false).
Proof.
  unfold maxOfTwo.
  destruct (PrimFloat.is_nan a) eqn:Na.
  { rewrite Na. split; [now left|]. split; [tauto|discriminate]. }
  destruct (PrimFloat.is_nan b) eqn:Nb.
  { rewrite Nb. split; [now right|]. split; [tauto|discriminate]. }
  destruct (PrimFloat.ltb a b) eqn:Lab.
  { rewrite Nb. split; [now right|].
    split; [split; [discriminate | intros [H|H]; discriminate]|].
    intros _. split; [now apply ltb_asym | apply ltb_irrefl]. }
  destruct (PrimFloat.ltb b a) eqn:Lba.
  { rewrite Na. split; [now left|].
    split; [split; [discriminate | intros [H|H]; discriminate]|].
    intros _. split; [apply ltb_irrefl | exact Lab]. }
  destruct (PrimFloat.get_sign a).
  - rewrite Nb. split; [now right|].
    split; [split; [discriminate | intros [H|H]; discriminate]|].
    intros _. split; [exact Lba | apply ltb_irrefl].
  - rewrite Na. split; [now left|].
    split; [split; [discriminate | intros [H|H]; discriminate]|].
    intros _. split; [apply ltb_irrefl | exact Lab].
Qed.

Lemma minOfTwo_spec a b :
  (minOfTwo a b = a \/ minOfTwo a b = b)
  /\ (PrimFloat.is_nan (minOfTwo a b) = true
      <-> PrimFloat.is_nan a = true \/ PrimFloat.is_nan b = true)
  /\ (PrimFloat.is_nan (minOfTwo a b) = false ->
      PrimFloat.ltb a (minOfTwo a b) = false
      /\ PrimFloat.ltb b (minOfTwo a b) = false).
Proof.
  unfold minOfTwo.
  destruct (PrimFloat.is_nan a) eqn:Na.
  { rewrite Na. split; [now left|]. split; [tauto|discriminate]. }
  destruct (PrimFloat.is_nan b) eqn:Nb.
  { rewrite Nb. split; [now right|]. split; [tauto|discriminate]. }
  destruct (PrimFloat.ltb a b) eqn:Lab.
  { rewrite Na. split; [now left|].
    split; [split; [discriminate | intros [H|H]; discriminate]|].
    intros _. split; [apply ltb_irrefl | now apply ltb_asym]. }
  destruct (PrimFloat.ltb b a) eqn:Lba.
  { rewrite Nb. split; [now right|].
    split; [split; [discriminate | intros [H|H]; discriminate]|].
    intros _. split; [exact Lab | apply ltb_irrefl]. }
  destruct (PrimFloat.get_sign a).
  - rewrite Na. split; [now left|].
    split; [split; [discriminate | intros [H|H]; discriminate]|].
    intros _. split; [apply ltb_irrefl | exact Lba].
  - rewrite Nb. split; [now right|].
    split; [split; [discriminate | intros [H|H]; discriminate]|].
    intros _. split; [exact Lab | apply ltb_irrefl].
Qed.

Lemma fold_maxOfTwo l acc :
  let r := fold_left maxOfTwo l acc in
  In r (acc :: l)
  /\ (PrimFloat.is_nan r = true
      <-> PrimFloat.is_nan acc = true \/ someNaN l)
  /\ (PrimFloat.is_nan r = false ->
      forall s, In s (acc :: l) -> PrimFloat.ltb r s = false).
Proof.
  revert acc. induction l as [|b l IH]; intros acc; cbn [fold_left].
  - split; [now left|]. split.
    + split; [now left|]. intros [H|(s & [] & _)]. exact H.
    + intros _ s [<-|[]]. apply ltb_irrefl.
  - destruct (IH (maxOfTwo acc b)) as (Hin & Hnan & Hord).
    destruct (maxOfTwo_spec acc b) as (Hm & Hmn & Hmo).
    cbv zeta. split; [|split].
    + destruct Hin as [Hin|Hin]; [|now right; right].
      rewrite <- Hin. destruct Hm as [->| ->]; [now left | now right; left].
    + rewrite Hnan, Hmn. unfold someNaN. split.
      * intros [[H|H]|(s & Hs & Hn)];
          [now left | right; exists b; split; [now left | exact H]
          | right; exists s; split; [now right | exact Hn]].
      * intros [H|(s & [<-|Hs] & Hn)];
          [now left; left | now left; right | right; exists s; auto].
    + intros Hr s Hs.
      assert (Hnum : PrimFloat.is_nan (maxOfTwo acc b) = false).
      { destruct (PrimFloat.is_nan (maxOfTwo acc b)) eqn:E; [|reflexivity].
        rewrite (proj2 Hnan (or_introl eq_refl)) in Hr. discriminate. }
      pose proof (Hord Hr _ (or_introl eq_refl)) as Htop.
      destruct (Hmo Hnum) as [Ha Hb].
      destruct Hs as [<-|[<-|Hs]].
      * exact (ltb_chain _ _ _ Hnum Htop Ha).
      * exact (ltb_chain _ _ _ Hnum Htop Hb).
      * apply (Hord Hr). now right.
Qed.

Lemma fold_minOfTwo l acc :
  let r := fold_left minOfTwo l acc in
  In r (acc :: l)
  /\ (PrimFloat.is_nan r = true
      <-> PrimFloat.is_nan acc = true \/ someNaN l)
  /\ (PrimFloat.is_nan r = false ->
      forall s, In s (acc :: l) -> PrimFloat.ltb s r = false).
Proof.
  revert acc. induction l as [|b l IH]; intros acc; cbn [fold_left].
  - split; [now left|]. split.
    + split; [now left|]. intros [H|(s & [] & _)]. exact H.
    + intros _ s [<-|[]]. apply ltb_irrefl.
  - destruct (IH (minOfTwo acc b)) as (Hin & Hnan & Hord).
    destruct (minOfTwo_spec acc b) as (Hm & Hmn & Hmo).
    cbv zeta. split; [|split].
    + destruct Hin as [Hin|Hin]; [|now right; right].
      rewrite <- Hin. destruct Hm as [->| ->]; [now left | now right; left].
    + rewrite Hnan, Hmn. unfold someNaN. split.
      * intros [[H|H]|(s & Hs & Hn)];
          [now left | right; exists b; split; [now left | exact H]
          | right; exists s; split; [now right | exact Hn]].
      * intros [H|(s & [<-|Hs] & Hn)];
          [now left; left | now left; right | right; exists s; auto].
    + intros Hr s Hs.
      assert (Hnum : PrimFloat.is_nan (minOfTwo acc b) = false).
      { destruct (PrimFloat.is_nan (minOfTwo acc b)) eqn:E; [|reflexivity].
        rewrite (proj2 Hnan (or_introl eq_refl)) in Hr. discriminate. }
      pose proof (Hord Hr _ (or_introl eq_refl)) as Htop.
      destruct (Hmo Hnum) as [Ha Hb].
      destruct Hs as [<-|[<-|Hs]].
      * exact (ltb_chain _ _ _ Hnum Ha Htop).
      * exact (ltb_chain _ _ _ Hnum Hb Htop).
      * apply (Hord Hr). now right.
Qed.

Lemma Math_max_cons x rest :
  Math_max (x :: rest) = fold_left maxOfTwo rest x.
Proof.
  unfold Math_max. cbn [fold_left]. f_equal. unfold maxOfTwo.
  change (PrimFloat.is_nan PrimFloat.neg_infinity) with false.
  change (PrimFloat.get_sign PrimFloat.neg_infinity) with true.
  rewrite nothing_below_neg_infinity.
  destruct (PrimFloat.is_nan x); [reflexivity|].
  destruct (PrimFloat.ltb PrimFloat.neg_infinity x); reflexivity.
Qed.

Lemma Math_min_cons x rest :
  Math_min (x :: rest) = fold_left minOfTwo rest x.
Proof.
  unfold Math_min. cbn [fold_left]. f_equal. unfold minOfTwo.
  change (PrimFloat.is_nan PrimFloat.infinity) with false.
  change (PrimFloat.get_sign PrimFloat.infinity) with false.
  rewrite nothing_above_infinity.
  destruct (PrimFloat.is_nan x); [reflexivity|].
  destruct (PrimFloat.ltb x PrimFloat.infinity); reflexivity.
Qed.

(** What [Math.max] and [Math.min] give on an array that is not empty: a
    member of the array; NaN exactly when a member is NaN; and no member
    compares above the maximum or below the minimum. *)
Definition extremes (mn mx : float) (scores : list float) : Prop :=
  In mn scores /\ In mx scores
  /\ (PrimFloat.is_nan mn = true <-> someNaN scores)
  /\ (PrimFloat.is_nan mx = true <-> someNaN scores)
  /\ (forall s, In s scores ->
        PrimFloat.ltb s mn = false /\ PrimFloat.ltb mx s = false).

Lemma someNaN_cons x rest :
  PrimFloat.is_nan x = true \/ someNaN rest <-> someNaN (x :: rest).
Proof.
  unfold someNaN. split.
  - intros [H|(s & Hs & Hn)];
      [exists x; split; [now left | exact H]
      | exists s; split; [now right | exact Hn]].
  - intros (s & [<-|Hs] & Hn); [now left | right; exists s; auto].
Qed.

Lemma ltb_nan_left x y :
  PrimFloat.is_nan x = true -> PrimFloat.ltb x y = false.
Proof.
  unfold PrimFloat.is_nan. rewrite FloatAxioms.eqb_spec, FloatAxioms.ltb_spec.
  unfold SFeqb, SFltb, SFcompare.
  destruct (Prim2SF x) as [[]|[]| |[] m e]; try reflexivity;
    try discriminate;
    rewrite ?Z.compare_refl; fold (Pos.compare m m);
    rewrite ?Pos.compare_refl; discriminate.
Qed.

Lemma ltb_nan_right x y :
  PrimFloat.is_nan y = true -> PrimFloat.ltb x y = false.
Proof.
  unfold PrimFloat.is_nan. rewrite FloatAxioms.eqb_spec, FloatAxioms.ltb_spec.
  unfold SFeqb, SFltb, SFcompare.
  destruct (Prim2SF y) as [[]|[]| |[] m e];
    try (destruct (Prim2SF x) as [[]|[]| |[] m' e']; reflexivity);
    try discriminate;
    rewrite ?Z.compare_refl; fold (Pos.compare m m);
    rewrite ?Pos.compare_refl; discriminate.
Qed.

Lemma extremes_of_array x rest :
  extremes (Math_min (x :: rest)) (Math_max (x :: rest)) (x :: rest).
Proof.
  rewrite Math_min_cons, Math_max_cons.
  destruct (fold_minOfTwo rest x) as (Imin & Nmin & Omin).
  destruct (fold_maxOfTwo rest x) as (Imax & Nmax & Omax).
  cbv zeta in *. unfold extremes.
  split; [exact Imin|]. split; [exact Imax|].
  split; [now rewrite Nmin, someNaN_cons|].
  split; [now rewrite Nmax, someNaN_cons|].
  intros s Hs. split.
  - destruct (PrimFloat.is_nan (fold_left minOfTwo rest x)) eqn:E;
      [now apply ltb_nan_right | now apply Omin].
  - destruct (PrimFloat.is_nan (fold_left maxOfTwo rest x)) eqn:E;
      [now apply ltb_nan_left | now apply Omax].
Qed.

Definition scoresOf (w : World) (examId : Id) : list float :=
  nonNullScores (participantsOf w examId).

Lemma nonNullScores_length l :
  (List.length (nonNullScores l) <= List.length l)%nat.
Proof.
  induction l as [|p l IH]; simpl; [lia|].
  destruct (participant_score p); simpl; lia.
Qed.

Lemma filter_shorter {A} (f : A -> bool) l :
  (List.length (filter f l) <= List.length l)%nat.
Proof.
  induction l as [|a l IH]; simpl; [lia|]. destruct (f a); simpl; lia.
Qed.

(** X13: when [updateExamStatistics] writes, the row it leaves is
    coherent in the arithmetic of doubles: minScore and maxScore are
    scores of participants of the exam, no such score compares below
    minScore or above maxScore, and each of the two is NaN exactly when
    some score is NaN; avgScore is the sum of the scores, added from 0 in
    the order of the rows, divided by their number (a rounded value, for
    which no place between minScore and maxScore is stated); and
    0 < scoredCount <= totalParticipants, 0 <= submittedCount <=
    totalParticipants. *)
Theorem statistics_are_coherent w examId now :
  scoresOf w examId <> [] ->
  exists row mn av mx total submitted scored,
    statisticsRow (snd (updateExamStatistics examId now w)) examId = Some row
    /\ minScore row = Some mn /\ avgScore row = Some av
    /\ maxScore row = Some mx
    /\ totalParticipants row = Some total
    /\ submittedCount row = Some submitted
    /\ scoredCount row = Some scored
    /\ extremes mn mx (scoresOf w examId)
    /\ av = Aggregates.arithmeticMean (scoresOf w examId)
    /\ (0 < scored <= total)%Z /\ (0 <= submitted <= total)%Z.
Proof.
  unfold scoresOf, participantsOf. intros Hne.
  unfold updateExamStatistics, listParticipants.
  unfold bind at 1. unfold gets at 1.
  set (participants := filter _ (examParticipants w)) in *.
  destruct (nonNullScores participants) as [|x rest] eqn:Es;
    [contradiction|].
  cbn [List.length Nat.eqb]. unfold bind at 1.
  destruct (upsertStatistics_run examId (statisticsOf participants) now w)
    as (row & stats' & Hrun & Hfind & Hrow).
  rewrite Hrun. unfold ret. cbn [snd]. unfold statisticsRow at 1.
  cbn [examStatistics with_examStatistics].
  pose proof (nonNullScores_length participants) as Hsc.
  pose proof (filter_shorter (fun p => isSome (participant_submitTime p))
                             participants) as Hsb.
  rewrite Es in Hsc. cbn [List.length] in Hsc.
  exists row, (Math_min (x :: rest)),
    (Aggregates.arithmeticMean (x :: rest)),
    (Math_max (x :: rest)),
    (Z.of_nat (List.length participants)),
    (Z.of_nat (List.length
                 (filter (fun p => isSome (participant_submitTime p))
                         participants))),
    (Z.of_nat (List.length (x :: rest))).
  split; [exact Hfind|].
  assert (Hfields :
            minScore row = Some (Math_min (x :: rest))
            /\ avgScore row = Some (Aggregates.arithmeticMean (x :: rest))
            /\ maxScore row = Some (Math_max (x :: rest))
            /\ totalParticipants row
               = Some (Z.of_nat (List.length participants))
            /\ submittedCount row
               = Some (Z.of_nat
                         (List.length
                            (filter
                               (fun p => isSome (participant_submitTime p))
                               participants)))
            /\ scoredCount row = Some (Z.of_nat (List.length (x :: rest)))).
  { rewrite Hrow. unfold statisticsOf. rewrite Es.
    destruct (statisticsRow w examId); repeat split. }
  destruct Hfields as (F1 & F2 & F3 & F4 & F5 & F6).
  repeat (split; [assumption|]).
  split; [apply extremes_of_array|]. split; [reflexivity|].
  cbn [List.length] in *. split; lia.
Qed.

Lemma statistics_are_coherent_witness :
  exists row mn av mx total submitted scored,
    statisticsRow (snd (updateExamStatistics "exam-over" 90%Z Sample.school))
                  "exam-over" = Some row
    /\ minScore row = Some mn /\ avgScore row = Some av
    /\ maxScore row = Some mx
    /\ totalParticipants row = Some total
    /\ submittedCount row = Some submitted
    /\ scoredCount row = Some scored
    /\ extremes mn mx (scoresOf Sample.school "exam-over")
    /\ av = Aggregates.arithmeticMean (scoresOf Sample.school "exam-over")
    /\ (0 < scored <= total)%Z /\ (0 <= submitted <= total)%Z.
Proof.
  apply statistics_are_coherent. cbn. discriminate.
Defined.

End ScoreStatistics.

(** ** Scoring: what a pass leaves alone, and what it settles *)

Module Rescoring.
Import examsRepository scoringService Views LifecycleFacts.

Definition answerIds (w : World) : list Id := map answer_id (answers w).

(** What a loop body of the pipeline does: it leaves the exams and the job
    map alone, and it either leaves the answers alone or, for a PENDING answer of the
    snapshot, rewrites the rows that carry the id of that answer. *)
Definition scoresOwnAnswer
  (scoreAnswer : Answer * option Question -> Timestamp -> M unit) : Prop :=
  forall aq now w,
    exams (snd (scoreAnswer aq now w)) = exams w
    /\ scoringQueue (snd (scoreAnswer aq now w)) = scoringQueue w
    /\ (answers (snd (scoreAnswer aq now w)) = answers w
        \/ (answer_status (fst aq) = PENDING
            /\ exists f,
                 (forall a, answer_id (f a) = answer_id a)
                 /\ answers (snd (scoreAnswer aq now w))
                    = map (fun a => if answer_id a =? answer_id (fst aq)
                                    then f a else a)
                          (answers w))).

Section OwnAnswer.
Context {builtins : StringBuiltins}.

Lemma scoreAnswerPlain_own : scoresOwnAnswer scoreAnswerPlain.
Proof.
  intros [answer question] now w. unfold scoreAnswerPlain.
  destruct (answer_status answer) eqn:Es;
    [|split; [|split]; [reflexivity | reflexivity | now left]].
  destruct question as [q|];
    [|split; [|split]; [reflexivity | reflexivity | now left]].
  unfold updateAnswerScore, modify. cbn [snd fst].
  split; [reflexivity|]. split; [reflexivity|]. right. split; [exact Es|].
  eexists (fun a => _). split; [|reflexivity]. reflexivity.
Qed.

Lemma scoreAnswerAes_own scorer : scoresOwnAnswer (scoreAnswerAes scorer).
Proof.
  intros [answer question] now w. unfold scoreAnswerAes.
  destruct (answer_status answer) eqn:Es;
    [|split; [|split]; [reflexivity | reflexivity | now left]].
  destruct question as [q|];
    [|split; [|split]; [reflexivity | reflexivity | now left]].
  destruct (computeScoreAes scorer answer q) as [aiScore feedbackJson].
  unfold modify. cbn [snd fst].
  split; [reflexivity|]. split; [reflexivity|]. right. split; [exact Es|].
  exists (applyScore aiScore feedbackJson now). split; reflexivity.
Qed.

End OwnAnswer.

(** The answers of [wc] are those of [w0], row by row, with the SCORED
    rows of [w0] as they were. *)
Definition kept (w0 wc : World) : Prop :=
  exists g,
    answers wc = map g (answers w0)
    /\ (forall a, answer_id (g a) = answer_id a)
    /\ (forall a, In a (answers w0) -> answer_status a = SCORED -> g a = a).

Definition descends (w0 : World) (s : Answer) : Prop :=
  exists b, In b (answers w0) /\ answer_id s = answer_id b
            /\ (answer_status b = SCORED -> s = b).

Definition keepsScored (w0 : World) {A} (m : M A) : Prop :=
  forall wc, kept w0 wc -> kept w0 (snd (m wc)).

Lemma kept_refl w0 : kept w0 w0.
Proof. exists (fun a => a). rewrite map_id. auto. Qed.

Lemma kept_same_answers w0 wc wc' :
  answers wc' = answers wc -> kept w0 wc -> kept w0 wc'.
Proof. intros He (g & Hg & H). exists g. rewrite He. auto. Qed.

Lemma kept_descends w0 wc a :
  kept w0 wc -> In a (answers wc) -> descends w0 a.
Proof.
  intros (g & Hg & Hid & Hs) Hin. rewrite Hg in Hin.
  apply in_map_iff in Hin. destruct Hin as (b & <- & Hb).
  exists b. split; [exact Hb|]. split; [apply Hid|]. intros H.
  now apply Hs.
Qed.

Lemma ks_ret w0 {A} (a : A) : keepsScored w0 (ret a).
Proof. intros wc H. exact H. Qed.

Lemma ks_throw w0 {A} e : keepsScored w0 (@throw A e).
Proof. intros wc H. exact H. Qed.

Lemma ks_frame w0 {A} (m : M A) :
  (forall w, answers (snd (m w)) = answers w) -> keepsScored w0 m.
Proof. intros Hm wc H. apply (kept_same_answers w0 wc); auto. Qed.

Lemma ks_bind w0 {A B} (m : M A) (k : A -> M B) :
  keepsScored w0 m -> (forall a, keepsScored w0 (k a)) ->
  keepsScored w0 (bind m k).
Proof.
  intros Hm Hk wc H. unfold bind. specialize (Hm wc H).
  destruct (m wc) as [[a|e] w1]; cbn [snd] in *; [now apply Hk | exact Hm].
Qed.

Lemma ks_gets_bind w0 {A B} (f : World -> A) (k : A -> M B) :
  (forall wc, kept w0 wc -> kept w0 (snd (k (f wc) wc))) ->
  keepsScored w0 (bind (gets f) k).
Proof. intros Hk wc H. unfold bind, gets. now apply Hk. Qed.

Lemma ks_tryCatch w0 {A} (body : M A) (handler : AppError -> M A) :
  keepsScored w0 body -> (forall e, keepsScored w0 (handler e)) ->
  keepsScored w0 (tryCatch body handler).
Proof.
  intros Hb Hh wc H. unfold tryCatch. specialize (Hb wc H).
  destruct (body wc) as [[a|e] w1]; cbn [snd] in *; [exact Hb | now apply Hh].
Qed.

Lemma ks_forEach w0 {A} (l : list A) (body : A -> M unit) :
  (forall x, In x l -> keepsScored w0 (body x)) ->
  keepsScored w0 (forEach l body).
Proof.
  induction l as [|x l IH]; intros Hb; cbn [forEach]; [apply ks_ret|].
  apply ks_bind; [apply Hb; now left|]. intros _. apply IH.
  intros y Hy. apply Hb. now right.
Qed.

Lemma answers_after_recalculate participantId w :
  answers (snd (recalculateParticipantScore participantId w)) = answers w.
Proof.
  destruct (Aggregates.recalculate_establishes w participantId)
    as (w' & Hrun & Hans & _). now rewrite Hrun.
Qed.

Lemma answers_after_updateExamStatistics examId now w :
  answers (snd (updateExamStatistics examId now w)) = answers w.
Proof.
  unfold updateExamStatistics, listParticipants.
  unfold bind at 1. unfold gets at 1.
  destruct (List.length _ =? 0)%nat; [reflexivity|].
  unfold bind.
  destruct (upsertStatistics_run examId
              (statisticsOf (filter (fun p => participant_examId p =? examId)
                                    (examParticipants w))) now w)
    as (row & stats' & Hrun & _).
  rewrite Hrun. reflexivity.
Qed.

Section Pass.
Variable scoreAnswer : Answer * option Question -> Timestamp -> M unit.
Hypothesis own : scoresOwnAnswer scoreAnswer.
Variable w0 : World.
Hypothesis distinct : NoDup (answerIds w0).

Lemma ks_scoreAnswer aq now :
  descends w0 (fst aq) -> keepsScored w0 (scoreAnswer aq now).
Proof.
  intros (b & Hb & Hid & Hsame) wc (g & Hg & Hgid & Hgs).
  destruct (own aq now wc) as [_ [_ [He|(Hp & f & Hf & He)]]].
  - exists g. rewrite He. auto.
  - exists (fun a => if answer_id (g a) =? answer_id (fst aq)
                     then f (g a) else g a).
    split; [rewrite He, Hg, map_map; reflexivity|]. split.
    + intros a. destruct (answer_id (g a) =? answer_id (fst aq));
        [rewrite Hf|]; apply Hgid.
    + intros a Ha Hs. rewrite (Hgs a Ha Hs).
      destruct (String.eqb_spec (answer_id a) (answer_id (fst aq)))
        as [E|E]; [|reflexivity].
      exfalso.
      assert (a = b)
        by (apply (unique_key_row answer_id (answers w0) a b distinct Ha Hb);
            congruence).
      subst b. rewrite (Hsame Hs) in Hp. congruence.
Qed.

Lemma ks_processParticipant participantId now :
  keepsScored w0 (processParticipant scoreAnswer participantId now).
Proof.
  unfold processParticipant. apply ks_gets_bind. intros wc Hk.
  destruct (queueGet participantId (scoringQueue wc)); [|exact Hk].
  revert wc Hk. apply ks_tryCatch.
  - apply ks_bind; [apply ks_frame; reflexivity|]. intros _.
    unfold getParticipantAnswers. apply ks_gets_bind. intros wc Hk.
    set (snapshot := map _ (filter _ (answers wc))).
    assert (Hsnap : forall aq, In aq snapshot -> descends w0 (fst aq)).
    { intros aq Hin. apply in_map_iff in Hin.
      destruct Hin as (a & <- & Ha).
      apply filter_In in Ha. destruct Ha as [Ha _].
      exact (kept_descends w0 wc a Hk Ha). }
    clearbody snapshot. revert wc Hk. apply ks_bind.
    + apply ks_forEach. intros aq Hin. apply ks_scoreAnswer. auto.
    + intros _. apply ks_bind.
      * apply ks_frame. apply answers_after_recalculate.
      * intros _. apply ks_frame. reflexivity.
  - intros e. apply ks_frame. reflexivity.
Qed.

Lemma ks_processScoring examId participantIds now :
  keepsScored w0 (processScoring scoreAnswer examId participantIds now).
Proof.
  unfold processScoring. apply ks_bind.
  - apply ks_forEach. intros participantId _. apply ks_processParticipant.
  - intros _. apply ks_frame. intros w.
    apply answers_after_updateExamStatistics.
Qed.

Lemma ks_triggerScoring examId teacherId participantIds now :
  keepsScored w0
    (triggerScoring scoreAnswer examId teacherId participantIds now).
Proof.
  unfold triggerScoring, findExamByIdAndTeacher, listParticipants.
  apply ks_gets_bind. intros wc Hk.
  destruct (find _ (exams wc)); [|exact Hk].
  revert wc Hk. apply ks_gets_bind. intros wc Hk.
  set (toScore := match participantIds with
                  | Some (id :: ids) => _ | _ => _ end).
  clearbody toScore. revert wc Hk. apply ks_bind.
  - apply ks_forEach. intros p _. apply ks_frame. reflexivity.
  - intros _. apply ks_bind; [apply ks_processScoring|].
    intros _. apply ks_ret.
Qed.

Lemma scored_row_stays {A} (m : M A) a :
  keepsScored w0 m -> In a (answers w0) -> answer_status a = SCORED ->
  answerById (snd (m w0)) (answer_id a) = Some a
  /\ answerIds (snd (m w0)) = answerIds w0.
Proof.
  intros Hm Ha Hs. destruct (Hm w0 (kept_refl w0)) as (g & Hg & Hid & Hsc).
  unfold answerById, answerIds. rewrite Hg. split.
  - rewrite find_map_preserve by (intros x; now rewrite Hid).
    destruct (find (fun x => answer_id x =? answer_id a) (answers w0))
      as [x|] eqn:F.
    + apply find_some in F. destruct F as [Hx Hb].
      apply String.eqb_eq in Hb.
      rewrite (unique_key_row answer_id (answers w0) x a distinct Hx Ha Hb).
      cbn [option_map]. now rewrite Hsc.
    + exfalso. apply (find_none _ _ F) in Ha.
      rewrite String.eqb_refl in Ha. discriminate.
  - apply map_key_preserved. exact Hid.
Qed.

End Pass.

Section AnyBuiltins.
Context {builtins : StringBuiltins}.

(** X14: with one row per answer id, a scoring run started by
    [triggerScoring] leaves every answer that is already SCORED, a manual
    score among them, exactly as it was, and neither adds nor removes an
    answer; in both scoring services and for every AI scorer. *)
Theorem scoring_leaves_scored_answers_alone
  scorer examId teacherId participantIds now w a :
  NoDup (answerIds w) -> In a (answers w) -> answer_status a = SCORED ->
  (answerById
     (snd (triggerScoringPlain examId teacherId participantIds now w))
     (answer_id a) = Some a
   /\ answerIds
        (snd (triggerScoringPlain examId teacherId participantIds now w))
      = answerIds w)
  /\ (answerById
        (snd (triggerScoringAes scorer examId teacherId participantIds now w))
        (answer_id a) = Some a
      /\ answerIds
           (snd (triggerScoringAes scorer examId teacherId participantIds
                                   now w))
         = answerIds w).
Proof.
  intros Hn Ha Hs. split.
  - apply (scored_row_stays w Hn); [|exact Ha|exact Hs].
    apply ks_triggerScoring; [apply scoreAnswerPlain_own | exact Hn].
  - apply (scored_row_stays w Hn); [|exact Ha|exact Hs].
    apply ks_triggerScoring; [apply scoreAnswerAes_own | exact Hn].
Qed.

End AnyBuiltins.

Lemma scoring_leaves_scored_answers_alone_witness :
  (answerById
     (snd (triggerScoringPlain "exam-over" "guru-1" None 90%Z Sample.school))
     "a-4" = Some (Sample.answer "a-4" "p-citra" "q-pg" (Some "C") None
                                 (Some 70%float) SCORED)
   /\ answerIds
        (snd (triggerScoringPlain "exam-over" "guru-1" None 90%Z
                                  Sample.school))
      = answerIds Sample.school)
  /\ (answerById
        (snd (triggerScoringAes Scenarios.steady "exam-over" "guru-1" None
                                90%Z Sample.school))
        "a-4" = Some (Sample.answer "a-4" "p-citra" "q-pg" (Some "C") None
                                    (Some 70%float) SCORED)
      /\ answerIds
           (snd (triggerScoringAes Scenarios.steady "exam-over" "guru-1"
                                   None 90%Z Sample.school))
         = answerIds Sample.school).
Proof.
  apply (scoring_leaves_scored_answers_alone Scenarios.steady "exam-over"
           "guru-1" None 90%Z Sample.school
           (Sample.answer "a-4" "p-citra" "q-pg" (Some "C") None
                          (Some 70%float) SCORED)).
  - repeat (constructor;
            [cbn; intuition (try discriminate; try congruence)|]).
    constructor.
  - cbn. auto.
  - reflexivity.
Defined.

(** *** The job map *)

Definition updatedQueue (participantId : Id) (f : ScoringJob -> ScoringJob)
  (q : list (Id * ScoringJob)) : list (Id * ScoringJob) :=
  map (fun kj => if fst kj =? participantId then (fst kj, f (snd kj)) else kj)
      q.

(** The participant has a job of the exam; the job has come to an end. *)
Definition registered (examId : Id) (w : World) (participantId : Id) : Prop :=
  exists job, jobOf w participantId = Some job /\ job_examId job = examId.

Definition settled (examId : Id) (w : World) (participantId : Id) : Prop :=
  exists job, jobOf w participantId = Some job /\ job_examId job = examId
              /\ (job_status job = done \/ job_status job = failed).

Lemma updatedQueue_twice participantId f g q :
  updatedQueue participantId g (updatedQueue participantId f q)
  = updatedQueue participantId (fun j => g (f j)) q.
Proof.
  unfold updatedQueue. rewrite map_map. apply map_ext. intros [k j].
  cbn [fst snd]. destruct (k =? participantId) eqn:E; cbn [fst snd];
    now rewrite ?E.
Qed.

Lemma queueGet_updated_other participantId other f q :
  other <> participantId ->
  queueGet other (updatedQueue participantId f q) = queueGet other q.
Proof.
  intros Hne. induction q as [|[k j] q IH]; cbn; [reflexivity|].
  destruct (k =? participantId) eqn:E; cbn [fst snd queueGet].
  - apply String.eqb_eq in E. subst k.
    assert (E' : (participantId =? other) = false)
      by (apply String.eqb_neq; congruence).
    rewrite E'. exact IH.
  - destruct (k =? other); [reflexivity | exact IH].
Qed.

Lemma queueGet_queueSet participantId job q :
  queueGet participantId (queueSet participantId job q) = Some job.
Proof.
  induction q as [|[k j] q IH]; cbn.
  - now rewrite String.eqb_refl.
  - destruct (k =? participantId) eqn:E; cbn; now rewrite E.
Qed.

Lemma queueGet_queueSet_other participantId other job q :
  other <> participantId ->
  queueGet other (queueSet participantId job q) = queueGet other q.
Proof.
  intros Hne. induction q as [|[k j] q IH]; cbn.
  - assert (E : (participantId =? other) = false)
      by (apply String.eqb_neq; congruence).
    now rewrite E.
  - destruct (k =? participantId) eqn:E; cbn.
    + apply String.eqb_eq in E. subst k.
      assert (E' : (participantId =? other) = false)
        by (apply String.eqb_neq; congruence).
      now rewrite E'.
    + destruct (k =? other); [reflexivity | exact IH].
Qed.

Definition leavesField {T} (proj : World -> T) {A} (m : M A) : Prop :=
  forall w, proj (snd (m w)) = proj w.

Section Fields.
Context {T : Type}.
Variable proj : World -> T.

Lemma lf_ret {A} (a : A) : leavesField proj (ret a).
Proof. intros w. reflexivity. Qed.

Lemma lf_throw {A} e : leavesField proj (@throw A e).
Proof. intros w. reflexivity. Qed.

Lemma lf_gets {A} (f : World -> A) : leavesField proj (gets f).
Proof. intros w. reflexivity. Qed.

Lemma lf_modify (f : World -> World) :
  (forall w, proj (f w) = proj w) -> leavesField proj (modify f).
Proof. intros Hf w. apply Hf. Qed.

Lemma lf_bind {A B} (m : M A) (k : A -> M B) :
  leavesField proj m -> (forall a, leavesField proj (k a)) ->
  leavesField proj (bind m k).
Proof.
  intros Hm Hk w. unfold bind. specialize (Hm w).
  destruct (m w) as [[a|e] w1]; cbn [snd] in *; [|exact Hm].
  now rewrite Hk.
Qed.

Lemma lf_tryCatch {A} (body : M A) (handler : AppError -> M A) :
  leavesField proj body -> (forall e, leavesField proj (handler e)) ->
  leavesField proj (tryCatch body handler).
Proof.
  intros Hb Hh w. unfold tryCatch. specialize (Hb w).
  destruct (body w) as [[a|e] w1]; cbn [snd] in *; [exact Hb|].
  now rewrite Hh.
Qed.

Lemma lf_forEach {A} (l : list A) (body : A -> M unit) :
  (forall x, leavesField proj (body x)) -> leavesField proj (forEach l body).
Proof.
  intros Hb. induction l as [|x l IH]; cbn [forEach]; [apply lf_ret|].
  apply lf_bind; [apply Hb | intros _; exact IH].
Qed.

End Fields.

Ltac field_frame :=
  repeat first
    [ apply lf_ret | apply lf_throw | apply lf_gets
    | apply lf_bind; [|intros ?]
    | apply lf_tryCatch; [|intros ?]
    | apply lf_forEach; intros ?
    | apply lf_modify; intros ?; reflexivity
    | match goal with
      | |- leavesField _ (match ?x with _ => _ end) => destruct x
      end
    | progress cbv zeta ].

Lemma updateExamStatistics_returns examId now w :
  exists w', updateExamStatistics examId now w = (Returned tt, w')
             /\ scoringQueue w' = scoringQueue w.
Proof.
  unfold updateExamStatistics, listParticipants.
  unfold bind at 1. unfold gets at 1.
  destruct (List.length _ =? 0)%nat; [exists w; split; reflexivity|].
  unfold bind.
  destruct (upsertStatistics_run examId
              (statisticsOf (filter (fun p => participant_examId p =? examId)
                                    (examParticipants w))) now w)
    as (row & stats' & Hrun & _).
  rewrite Hrun. eexists. split; reflexivity.
Qed.

(** The participants that the caller asked for: all when the list of ids
    is absent or empty. *)
Definition chosen (participantIds : option (list Id)) (participantId : Id)
  : Prop :=
  match participantIds with
  | Some (id :: ids) => In participantId (id :: ids)
  | _ => True
  end.

Section Jobs.
Variable scoreAnswer : Answer * option Question -> Timestamp -> M unit.
Hypothesis own : scoresOwnAnswer scoreAnswer.

(** [processParticipant] always returns; a participant with a job gets
    its job rewritten to one that is done or failed. *)
Lemma processParticipant_queue participantId now w :
  exists w',
    processParticipant scoreAnswer participantId now w = (Returned tt, w')
    /\ ((jobOf w participantId = None
         /\ scoringQueue w' = scoringQueue w)
        \/ exists f,
             scoringQueue w' = updatedQueue participantId f (scoringQueue w)
             /\ forall j, job_examId (f j) = job_examId j
                          /\ (job_status (f j) = done
                              \/ job_status (f j) = failed)).
Proof.
  unfold processParticipant, jobOf. unfold bind at 1. unfold gets at 1.
  destruct (queueGet participantId (scoringQueue w)) as [job|] eqn:Ej;
    [|exists w; split; [reflexivity | left; split; reflexivity]].
  unfold tryCatch, updateJob, getParticipantAnswers.
  unfold bind at 1. unfold modify at 1.
  unfold bind at 1. unfold gets at 1.
  set (w1 := with_scoringQueue _ w).
  set (snapshot := map _ (filter _ (answers w1))).
  pose proof (lf_forEach scoringQueue snapshot
                (fun aq => scoreAnswer aq now)
                (fun aq w => proj1 (proj2 (own aq now w))) w1) as Hq.
  unfold bind at 1.
  destruct (forEach snapshot (fun aq => scoreAnswer aq now) w1)
    as [[u|e] wA]; cbn [snd] in Hq.
  - destruct (Aggregates.recalculate_establishes wA participantId)
      as (wB & Hrun & _ & HqB & _).
    unfold bind at 1. rewrite Hrun. unfold modify.
    eexists. split; [reflexivity|]. right.
    exists (fun j => setJobDone now (setJobStatus processing j)).
    cbn [scoringQueue with_scoringQueue]. rewrite HqB, Hq. subst w1.
    cbn [scoringQueue with_scoringQueue].
    split; [apply updatedQueue_twice|]. intros j. split; [reflexivity|].
    now left.
  - unfold modify. eexists. split; [reflexivity|]. right.
    exists (fun j => setJobFailed (errorMessage e)
                                  (setJobStatus processing j)).
    cbn [scoringQueue with_scoringQueue]. rewrite Hq. subst w1.
    cbn [scoringQueue with_scoringQueue].
    split; [apply updatedQueue_twice|]. intros j. split; [reflexivity|].
    now right.
Qed.

Lemma keys_updatedQueue participantId f q :
  map fst (updatedQueue participantId f q) = map fst q.
Proof.
  unfold updatedQueue. rewrite map_map. apply map_ext. intros [k j].
  cbn [fst snd]. destruct (k =? participantId); reflexivity.
Qed.

Lemma processParticipant_settles examId participantId now w :
  exists w',
    processParticipant scoreAnswer participantId now w = (Returned tt, w')
    /\ (registered examId w participantId -> settled examId w' participantId)
    /\ (forall other, registered examId w other -> registered examId w' other)
    /\ (forall other, settled examId w other -> settled examId w' other)
    /\ map fst (scoringQueue w') = map fst (scoringQueue w).
Proof.
  destruct (processParticipant_queue participantId now w)
    as (w' & Hrun & [[Hnone Hq]|(f & Hq & Hf)]); exists w';
    (split; [exact Hrun|]); unfold registered, settled, jobOf in *.
  - rewrite Hq. split; [|split; [|split]]; auto.
    intros (job & Hj & _). congruence.
  - rewrite Hq. split; [|split; [|split]].
    + intros (job & Hj & He). exists (f job).
      unfold updatedQueue. rewrite Aggregates.queueGet_updated, Hj.
      split; [reflexivity|]. destruct (Hf job) as [H1 H2].
      split; [congruence | exact H2].
    + intros other (job & Hj & He).
      destruct (String.eqb_spec other participantId) as [->|Hne].
      * exists (f job). unfold updatedQueue.
        rewrite Aggregates.queueGet_updated, Hj.
        split; [reflexivity|]. destruct (Hf job) as [H1 _]. congruence.
      * exists job. rewrite queueGet_updated_other by exact Hne. auto.
    + intros other (job & Hj & He & Hs).
      destruct (String.eqb_spec other participantId) as [->|Hne].
      * exists (f job). unfold updatedQueue.
        rewrite Aggregates.queueGet_updated, Hj.
        split; [reflexivity|]. destruct (Hf job) as [H1 H2].
        split; [congruence | exact H2].
      * exists job. rewrite queueGet_updated_other by exact Hne. auto.
    + apply keys_updatedQueue.
Qed.

Lemma forEach_processParticipant_settles examId ids now w :
  (forall pid, In pid ids -> registered examId w pid) ->
  exists w',
    forEach ids (fun pid => processParticipant scoreAnswer pid now) w
    = (Returned tt, w')
    /\ (forall pid, In pid ids -> settled examId w' pid)
    /\ (forall pid, settled examId w pid -> settled examId w' pid)
    /\ map fst (scoringQueue w') = map fst (scoringQueue w).
Proof.
  revert w. induction ids as [|pid0 ids IH]; intros w Hreg; cbn [forEach].
  - exists w. split; [reflexivity|]. split; [intros pid []|auto].
  - destruct (processParticipant_settles examId pid0 now w)
      as (w1 & Hrun & Hset & Hkeep & Hstay & Hkeys).
    unfold bind. rewrite Hrun.
    destruct (IH w1) as (w' & Hrun' & Hall & Hstay' & Hkeys').
    { intros pid Hin. apply Hkeep, Hreg. now right. }
    exists w'. split; [exact Hrun'|]. split; [|split].
    + intros pid [<-|Hin]; [|now apply Hall].
      apply Hstay', Hset, Hreg. now left.
    + intros pid Hs. now apply Hstay', Hstay.
    + congruence.
Qed.

Lemma keys_queueSet_new participantId job q :
  ~ In participantId (map fst q) ->
  map fst (queueSet participantId job q) = map fst q ++ [participantId].
Proof.
  induction q as [|[k j] q IH]; cbn; intros Hn; [reflexivity|].
  destruct (String.eqb_spec k participantId) as [E|E].
  - exfalso. apply Hn. now left.
  - cbn. f_equal. apply IH. intros H. apply Hn. now right.
Qed.

Lemma forEach_enqueue examId now toScore w :
  exists w',
    forEach toScore (enqueue examId now) w = (Returned tt, w')
    /\ (forall p, In p toScore -> registered examId w' (participant_id p))
    /\ (forall pid, registered examId w pid -> registered examId w' pid)
    /\ (NoDup (map fst (scoringQueue w) ++ map participant_id toScore) ->
        map fst (scoringQueue w')
        = map fst (scoringQueue w) ++ map participant_id toScore).
Proof.
  revert w. induction toScore as [|p0 rest IH]; intros w; cbn [forEach].
  - exists w. split; [reflexivity|]. split; [intros p []|].
    split; [auto|]. intros _. cbn. now rewrite app_nil_r.
  - unfold bind, enqueue at 1, modify.
    set (w1 := with_scoringQueue _ w).
    destruct (IH w1) as (w' & Hrun & Hall & Hkeep & Hkeys).
    exists w'. split; [exact Hrun|].
    assert (Hnew : registered examId w1 (participant_id p0)).
    { eexists. unfold jobOf. subst w1.
      cbn [scoringQueue with_scoringQueue].
      rewrite queueGet_queueSet. split; reflexivity. }
    split; [|split].
    + intros p [<-|Hin]; [now apply Hkeep | now apply Hall].
    + intros pid Hr. apply Hkeep.
      destruct (String.eqb_spec pid (participant_id p0)) as [->|Hne];
        [exact Hnew|].
      destruct Hr as (job & Hj & Heq). exists job. unfold jobOf in *.
      subst w1. cbn [scoringQueue with_scoringQueue].
      rewrite queueGet_queueSet_other by exact Hne. auto.
    + intros Hn. cbn [map] in Hn.
      assert (Hfresh : ~ In (participant_id p0) (map fst (scoringQueue w))).
      { intros Hin. apply NoDup_remove_2 in Hn. apply Hn.
        apply in_or_app. now left. }
      assert (Hk1 : map fst (scoringQueue w1)
                    = map fst (scoringQueue w) ++ [participant_id p0]).
      { subst w1. cbn [scoringQueue with_scoringQueue].
        now apply keys_queueSet_new. }
      rewrite Hkeys; rewrite Hk1, <- app_assoc; [reflexivity|exact Hn].
Qed.

Lemma exams_after_triggerScoring examId teacherId participantIds now :
  leavesField exams
    (triggerScoring scoreAnswer examId teacherId participantIds now).
Proof.
  unfold triggerScoring, findExamByIdAndTeacher, listParticipants,
    processScoring, updateExamStatistics, upsertStatistics, getStatistics.
  field_frame. intros w. exact (proj1 (own _ _ w)).
Qed.

Lemma NoDup_map_filter {A B} (key : A -> B) (p : A -> bool) l :
  NoDup (map key l) -> NoDup (map key (filter p l)).
Proof.
  induction l as [|a l IH]; cbn; intros Hn; [constructor|].
  inversion Hn as [|k ks Hx Hl]; subst.
  destruct (p a); cbn; [|now apply IH].
  constructor; [|now apply IH]. intros Hin. apply Hx.
  apply in_map_iff in Hin. destruct Hin as (b & Hb & Hin).
  apply filter_In in Hin. rewrite <- Hb. apply in_map. tauto.
Qed.

Lemma triggerScoring_full examId teacherId participantIds now w exam :
  owns w examId teacherId exam ->
  exists toScore w',
    triggerScoring scoreAnswer examId teacherId participantIds now w
    = (Returned {| triggered := List.length toScore;
                   jobs := map participant_id toScore |}, w')
    /\ (forall p, In p toScore <->
                  In p (participantsOf w examId)
                  /\ participant_submitTime p <> None
                  /\ chosen participantIds (participant_id p))
    /\ (forall p, In p toScore -> settled examId w' (participant_id p))
    /\ (scoringQueue w = [] ->
        NoDup (map participant_id (examParticipants w)) ->
        map fst (scoringQueue w') = map participant_id toScore
        /\ NoDup (map participant_id toScore)).
Proof.
  intros Ho. unfold owns in Ho.
  unfold triggerScoring, findExamByIdAndTeacher, listParticipants.
  unfold bind at 1. unfold gets at 1. rewrite Ho.
  unfold bind at 1. unfold gets at 1.
  fold (participantsOf w examId).
  set (toScore := match participantIds with
                  | Some (id :: ids) => _ | _ => _ end).
  assert (Hmem : forall p, In p toScore <->
                  In p (participantsOf w examId)
                  /\ participant_submitTime p <> None
                  /\ chosen participantIds (participant_id p)).
  { assert (Hsub : forall p,
              In p (filter (fun p => isSome (participant_submitTime p))
                           (participantsOf w examId))
              <-> In p (participantsOf w examId)
                  /\ participant_submitTime p <> None).
    { intros p. rewrite filter_In.
      destruct (participant_submitTime p); cbn; intuition congruence. }
    intros p. subst toScore. unfold chosen.
    destruct participantIds as [[|id ids]|]; try (rewrite Hsub; tauto).
    rewrite filter_In, Hsub, existsb_exists. split.
    - intros [[H1 H2] (x & Hx & Hb)]. apply String.eqb_eq in Hb.
      subst x. auto.
    - intros (H1 & H2 & H3). split; [auto|].
      exists (participant_id p). split; [exact H3 | apply String.eqb_refl]. }
  assert (Hdistinct : NoDup (map participant_id (examParticipants w)) ->
                      NoDup (map participant_id toScore)).
  { intros Hn. subst toScore. unfold participantsOf.
    destruct participantIds as [[|id ids]|];
      repeat apply NoDup_map_filter; exact Hn. }
  clearbody toScore.
  destruct (forEach_enqueue examId now toScore w)
    as (w1 & Hrun1 & Hreg & _ & Hkeys1).
  unfold bind at 1. rewrite Hrun1. unfold processScoring.
  destruct (forEach_processParticipant_settles examId
              (map participant_id toScore) now w1)
    as (w2 & Hrun2 & Hall & _ & Hkeys2).
  { intros pid Hin. apply in_map_iff in Hin.
    destruct Hin as (p & <- & Hp). now apply Hreg. }
  unfold bind at 1. unfold bind at 1. rewrite Hrun2.
  destruct (updateExamStatistics_returns examId now w2)
    as (w3 & Hrun3 & Hq3).
  rewrite Hrun3. unfold ret.
  exists toScore, w3. split; [reflexivity|]. split; [exact Hmem|]. split.
  - intros p Hp. unfold settled, jobOf. rewrite Hq3.
    apply Hall. apply in_map. exact Hp.
  - intros Hempty Hn. split; [|now apply Hdistinct].
    rewrite Hq3, Hkeys2, Hkeys1; rewrite Hempty; cbn [map app];
      [reflexivity | now apply Hdistinct].
Qed.

Lemma triggerScoring_run examId teacherId participantIds now w exam :
  owns w examId teacherId exam ->
  exists toScore w',
    triggerScoring scoreAnswer examId teacherId participantIds now w
    = (Returned {| triggered := List.length toScore;
                   jobs := map participant_id toScore |}, w')
    /\ (forall p, In p toScore <->
                  In p (participantsOf w examId)
                  /\ participant_submitTime p <> None
                  /\ chosen participantIds (participant_id p))
    /\ (forall p, In p toScore -> settled examId w' (participant_id p)).
Proof.
  intros Ho.
  destruct (triggerScoring_full examId teacherId participantIds now w exam
              Ho) as (toScore & w' & H1 & H2 & H3 & _).
  exists toScore, w'. auto.
Qed.

Lemma queueGet_member participantId job q :
  NoDup (map fst q) -> In (participantId, job) q ->
  queueGet participantId q = Some job.
Proof.
  induction q as [|[k j] q IH]; cbn; intros Hn Hin; [destruct Hin|].
  inversion Hn as [|k' ks Hx Hl]; subst.
  destruct Hin as [Heq|Hin].
  - injection Heq as -> ->. now rewrite String.eqb_refl.
  - destruct (String.eqb_spec k participantId) as [->|_]; [|now apply IH].
    exfalso. apply Hx. change participantId with (fst (participantId, job)).
    now apply in_map.
Qed.

Definition countOf (s : JobStatus) (l : list ScoringJob) : nat :=
  List.length (filter (fun j => JobStatus_eqb (job_status j) s) l).

Lemma counts_of_settled examId l :
  Forall (fun j => job_examId j = examId
                   /\ (job_status j = done \/ job_status j = failed)) l ->
  filter (fun j => job_examId j =? examId) l = l
  /\ countOf pending l = 0%nat /\ countOf processing l = 0%nat
  /\ (countOf done l + countOf failed l)%nat = List.length l.
Proof.
  unfold countOf. induction 1 as [|j l [He Hs] _ (I1 & I2 & I3 & I4)];
    [repeat split|].
  cbn [filter]. rewrite He, String.eqb_refl, I1.
  destruct Hs as [Hs|Hs]; rewrite Hs; cbn; repeat split; auto; lia.
Qed.

(** After the run that [run] starts on an empty job map, the status query
    of the owner finds no job pending or processing, and as many done or
    failed as were triggered. *)
Definition idleAfter (run : M TriggerResult) (examId teacherId : Id)
  (w : World) : Prop :=
  exists result w' status,
    run w = (Returned result, w')
    /\ getScoringStatus examId teacherId w' = (Returned status, w')
    /\ count_pending status = 0%nat
    /\ count_processing status = 0%nat
    /\ (count_done status + count_failed status)%nat = triggered result.

Lemma triggerScoring_idle examId teacherId participantIds now w exam :
  owns w examId teacherId exam -> scoringQueue w = [] ->
  NoDup (map participant_id (examParticipants w)) ->
  idleAfter (triggerScoring scoreAnswer examId teacherId participantIds now)
            examId teacherId w.
Proof.
  intros Ho Hempty Hn.
  destruct (triggerScoring_full examId teacherId participantIds now w exam
              Ho) as (toScore & w' & Hrun & _ & Hset & Hkeys).
  destruct (Hkeys Hempty Hn) as [Hk Hd].
  pose proof (exams_after_triggerScoring examId teacherId participantIds
                now w) as He.
  rewrite Hrun in He. cbn [snd] in He.
  assert (Hall : Forall (fun j => job_examId j = examId
                          /\ (job_status j = done \/ job_status j = failed))
                        (map snd (scoringQueue w'))).
  { apply Forall_forall. intros j Hj. apply in_map_iff in Hj.
    destruct Hj as ([k j'] & <- & Hin). cbn [snd].
    assert (Hkin : In k (map participant_id toScore))
      by (rewrite <- Hk; change k with (fst (k, j')); now apply in_map).
    apply in_map_iff in Hkin. destruct Hkin as (p & <- & Hp).
    destruct (Hset p Hp) as (job & Hj & He' & Hs). unfold jobOf in Hj.
    rewrite (queueGet_member (participant_id p) j' (scoringQueue w')) in Hj;
      [|rewrite Hk; exact Hd | exact Hin].
    injection Hj as <-. auto. }
  destruct (counts_of_settled examId _ Hall) as (C1 & C2 & C3 & C4).
  eexists. exists w'. eexists. split; [exact Hrun|].
  unfold getScoringStatus, findExamByIdAndTeacher.
  unfold bind at 1. unfold gets at 1. rewrite He. unfold owns in Ho.
  rewrite Ho. unfold bind, gets, ret. rewrite C1.
  split; [reflexivity|]. cbn [count_pending count_processing count_done
                              count_failed triggered].
  fold (countOf pending (map snd (scoringQueue w'))).
  fold (countOf processing (map snd (scoringQueue w'))).
  fold (countOf done (map snd (scoringQueue w'))).
  fold (countOf failed (map snd (scoringQueue w'))).
  split; [exact C2|]. split; [exact C3|]. rewrite C4.
  rewrite length_map, <- (length_map fst), Hk. apply length_map.
Qed.

End Jobs.

Section EveryService.
Context {builtins : StringBuiltins}.

(** X15: for the owner of the exam [triggerScoring] never throws, in
    either scoring service and whatever the AI scorer does.  It selects
    the participants of the exam that have submitted, all of them or those
    named in a non-empty participantIds, reports their number as
    triggered, and once the pass it starts has run each of them has a job
    of this exam that is done or failed: none is left pending or
    processing. *)
Theorem triggerScoring_settles_every_selected_job
  scorer examId teacherId participantIds now w exam :
  owns w examId teacherId exam ->
  (exists toScore w',
     triggerScoringPlain examId teacherId participantIds now w
     = (Returned {| triggered := List.length toScore;
                    jobs := map participant_id toScore |}, w')
     /\ (forall p, In p toScore <->
                   In p (participantsOf w examId)
                   /\ participant_submitTime p <> None
                   /\ chosen participantIds (participant_id p))
     /\ (forall p, In p toScore -> settled examId w' (participant_id p)))
  /\ (exists toScore w',
        triggerScoringAes scorer examId teacherId participantIds now w
        = (Returned {| triggered := List.length toScore;
                       jobs := map participant_id toScore |}, w')
        /\ (forall p, In p toScore <->
                      In p (participantsOf w examId)
                      /\ participant_submitTime p <> None
                      /\ chosen participantIds (participant_id p))
        /\ (forall p, In p toScore ->
                      settled examId w' (participant_id p))).
Proof.
  intros Ho. split.
  - exact (triggerScoring_run scoreAnswerPlain scoreAnswerPlain_own
             examId teacherId participantIds now w exam Ho).
  - exact (triggerScoring_run (scoreAnswerAes scorer)
             (scoreAnswerAes_own scorer)
             examId teacherId participantIds now w exam Ho).
Qed.

End EveryService.

Lemma triggerScoring_settles_every_selected_job_witness :
  (exists toScore w',
     triggerScoringPlain "exam-over" "guru-1" (Some ["p-budi"; "p-dedi"])
                         90%Z Sample.school
     = (Returned {| triggered := List.length toScore;
                    jobs := map participant_id toScore |}, w')
     /\ (forall p, In p toScore <->
                   In p (participantsOf Sample.school "exam-over")
                   /\ participant_submitTime p <> None
                   /\ chosen (Some ["p-budi"; "p-dedi"]) (participant_id p))
     /\ (forall p, In p toScore ->
                   settled "exam-over" w' (participant_id p)))
  /\ (exists toScore w',
        triggerScoringAes Scenarios.steady "exam-over" "guru-1"
                          (Some ["p-budi"; "p-dedi"]) 90%Z Sample.school
        = (Returned {| triggered := List.length toScore;
                       jobs := map participant_id toScore |}, w')
        /\ (forall p, In p toScore <->
                      In p (participantsOf Sample.school "exam-over")
                      /\ participant_submitTime p <> None
                      /\ chosen (Some ["p-budi"; "p-dedi"])
                                (participant_id p))
        /\ (forall p, In p toScore ->
                      settled "exam-over" w' (participant_id p))).
Proof.
  apply (triggerScoring_settles_every_selected_job Scenarios.steady
           "exam-over" "guru-1" (Some ["p-budi"; "p-dedi"]) 90%Z
           Sample.school (Sample.exam "exam-over" FINISHED false)).
  reflexivity.
Defined.

Section EveryServiceStatus.
Context {builtins : StringBuiltins}.

(** X17: on a job map that is empty and with one row per participant id,
    once the run that the owner's [triggerScoring] starts is over,
    [getScoringStatus] reports no job pending or processing, and done +
    failed equal to the number triggered; in both scoring services and for
    every AI scorer. *)
Theorem scoring_status_is_idle_after_a_run
  scorer examId teacherId participantIds now w exam :
  owns w examId teacherId exam -> scoringQueue w = [] ->
  NoDup (map participant_id (examParticipants w)) ->
  idleAfter (triggerScoringPlain examId teacherId participantIds now)
            examId teacherId w
  /\ idleAfter (triggerScoringAes scorer examId teacherId participantIds now)
               examId teacherId w.
Proof.
  intros Ho Hempty Hn. split.
  - exact (triggerScoring_idle scoreAnswerPlain scoreAnswerPlain_own
             examId teacherId participantIds now w exam Ho Hempty Hn).
  - exact (triggerScoring_idle (scoreAnswerAes scorer)
             (scoreAnswerAes_own scorer)
             examId teacherId participantIds now w exam Ho Hempty Hn).
Qed.

End EveryServiceStatus.

Lemma scoring_status_is_idle_after_a_run_witness :
  idleAfter (triggerScoringPlain "exam-over" "guru-1" None 90%Z)
            "exam-over" "guru-1" Sample.school
  /\ idleAfter (triggerScoringAes Scenarios.steady "exam-over" "guru-1" None
                                  90%Z)
               "exam-over" "guru-1" Sample.school.
Proof.
  apply (scoring_status_is_idle_after_a_run Scenarios.steady "exam-over"
           "guru-1" None 90%Z Sample.school
           (Sample.exam "exam-over" FINISHED false)).
  - reflexivity.
  - reflexivity.
  - repeat (constructor;
            [cbn; intuition (try discriminate; try congruence)|]).
    constructor.
Defined.

End Rescoring.
